(** * GAEZ v5 caloric-yield pipeline: the raster aggregation core

    A shallow embedding of [src/utils.py] (path resolver, group
    aggregator, cross-group calorie reducer) and of [get_har_area.py]
    (harvested-area reducer), with the properties of the specification
    stated and proved against it.

    Conventions of the embedding.
    - A Python exception is a value of [exn]; a call that may raise
      returns a [result].  Code that also logs runs in the monad [M],
      which carries the list of warnings written so far.
    - The remote raster store is the function [open_raster] given to the
      aggregation functions: what a URL resolves to (a raster, or the
      exception raised while opening it).  Loads are eager, as the
      specification reads them.
    - Cell values are IEEE 754 numbers, as the Standard Library
      specifies them ([SpecFloat]): signed zeros, infinities, NaN (what
      a masked cell carries) and finite numbers, with operations rounded
      to nearest even.  [open_raster] returns float32 cells; the code
      casts to float64 before it reduces, and every cast and promotion
      is written out.  A reduction starts from 0.0 and adds its layers
      in the order they were stacked.
    - A [Raster] is an array on a regular grid, as it is read from a
      file or resampled: a flat row-major buffer with its shape, next
      to the spatial reference and affine transform rioxarray reports.
    - A [DataArray] is an array with its coordinate labels.  xarray
      pairs the cells of two arrays by label: [xr.concat] keeps the
      labels of all its layers (outer join, missing cells filled with
      NaN), arithmetic keeps the labels both operands have (inner
      join).  The labels rioxarray computes for the rows and columns of
      a transform are given to the functions as [coords]; a label is the
      number the coordinate holds.  The labels along an axis are taken
      to differ from each other, as they do when the pixel size is not
      zero, and a raster to keep both its axes when it is squeezed.
    - Resampling ([rio.reproject_match]) belongs to rioxarray; its cell
      values are an oracle [resample] given to the functions.
    - The drivers ([run] of [get_data.py] and of [get_har_area.py]) work
      on the output files, a finite map from path to the array written,
      and log events.  What reading the two CSV tables gives and what the
      raster writer does are given to them; creating the directories and
      configuring the logger are left out, and so are the attributes set
      on an array before it is written.
    - The dataset builders of [process_data.py] and [process_har_area.py]
      are one function up to attributes; it is given the sorted list of
      the files the glob matches, each named by its stem. *)

From Stdlib Require Import ZArith QArith Qcanon Ascii SpecFloat.
From stdpp Require Import gmap strings list fin_maps sorting.

(** ** Exceptions and results *)

Inductive exn : Type :=
  | KeyError (key : string)
  | ValueError (msg : string)
  | TypeError (msg : string)
  | RasterioIOError (msg : string).

Inductive result (A : Type) : Type :=
  | Ok (a : A)
  | Raise (e : exn).
Arguments Ok {A} a.
Arguments Raise {A} e.

Global Instance exn_eq_dec : EqDecision exn.
Proof. solve_decision. Defined.

Global Instance result_eq_dec {A} `{EqDecision A} : EqDecision (result A).
Proof. solve_decision. Defined.

Definition is_ok {A} (r : result A) : bool :=
  match r with Ok _ => true | Raise _ => false end.

(** ** Strings *)

(** [str.startswith] with a tuple of prefixes. *)
Definition startswith (s : string) (prefixes : list string) : bool :=
  existsb (fun p => String.prefix p s) prefixes.

(** How an f-string renders an argument that may be [None]. *)
Definition fmt (o : option string) : string :=
  match o with
  | Some s => s
  | None => "None"
  end.

(** A token that can be read back from a dotted name holds no dot. *)
Fixpoint dotfree (s : string) : bool :=
  match s with
  | EmptyString => true
  | String c s' => negb (Ascii.eqb c "."%char) && dotfree s'
  end.

(** A token that is given (not [None]) and holds no dot. *)
Definition token_ok (o : option string) : bool :=
  match o with
  | Some s => dotfree s
  | None => false
  end.

(** ** Path Resolver: [gaezv5_path] *)

Definition https_base : string :=
  "https://storage.googleapis.com/fao-gismgr-gaez-v5-data/DATA/GAEZ-V5/MAPSET".

Definition gs_base : string := "gs://fao-gismgr-gaez-v5-data/DATA/GAEZ-V5/MAPSET".

(** The dict [base] is looked up in, by URL scheme. *)
Definition BASE : gmap string string :=
  <["https" := https_base]> (<["gs" := gs_base]> ∅).

(** The two file-name layouts. *)
Definition fname_scenario (variable_code : string)
    (period climate_model scenario crop water_code : option string) : string :=
  "GAEZ-V5." +:+ variable_code +:+ "." +:+ fmt period +:+ "." +:+ fmt climate_model
    +:+ "." +:+ fmt scenario +:+ "." +:+ fmt crop +:+ "." +:+ fmt water_code +:+ ".tif".

Definition fname_static (variable_code : string) (crop water_code : option string) : string :=
  "GAEZ-V5." +:+ variable_code +:+ "." +:+ fmt crop +:+ "." +:+ fmt water_code +:+ ".tif".

Definition gaezv5_path (variable_code : string)
    (period climate_model scenario crop water_code : option string)
    (scheme : string) : result string :=
  match BASE !! scheme with
  | None => Raise (KeyError scheme)
  | Some base =>
    let fname :=
      if startswith variable_code ["RES02"; "RES03"; "RES04"] then
        Ok (fname_scenario variable_code period climate_model scenario crop water_code)
      else if startswith variable_code ["RES05"; "RES04"] then
        Ok (fname_scenario variable_code period climate_model scenario crop water_code)
      else if startswith variable_code ["RES06"; "RES05"] then
        Ok (fname_static variable_code crop water_code)
      else Raise (ValueError "Unrecognized variable code family.")
    in
    match fname with
    | Ok fname => Ok (base +:+ "/" +:+ variable_code +:+ "/" +:+ fname)
    | Raise e => Raise e
    end
  end.

(** The two naming schemes, read off the branches: the families that
    reach a scenario-dependent name, and those that reach the static one
    (the "RES05" of the third test is shadowed by the second). *)
Definition scheme_A (variable_code : string) : bool :=
  startswith variable_code ["RES02"; "RES03"; "RES04"; "RES05"].

Definition scheme_B (variable_code : string) : bool :=
  startswith variable_code ["RES06"].

Definition recognized (variable_code : string) : bool :=
  scheme_A variable_code || scheme_B variable_code.


(** ** Cell values *)

(** A cell holds an IEEE 754 number: a zero, an infinity, NaN where the
    source is masked, or a finite number (sign, mantissa, exponent). *)
Definition cell : Type := spec_float.

Global Instance cell_eq_dec : EqDecision cell.
Proof. solve_decision. Defined.

Definition NaN : cell := S754_nan.

(** The float [0.0]. *)
Definition zero : cell := S754_zero false.

Definition is_nan (x : cell) : bool :=
  match x with S754_nan => true | _ => false end.

Definition is_zero (x : cell) : bool :=
  match x with S754_zero _ => true | _ => false end.

Definition is_inf (x : cell) : bool :=
  match x with S754_infinity _ => true | _ => false end.

(** A number that is neither NaN nor infinite. *)
Definition is_finite (x : cell) : bool :=
  match x with S754_zero _ | S754_finite _ _ _ => true | _ => false end.

(** Equal as floats compare ([0.0 == -0.0]), NaN taken equal to NaN. *)
Definition cell_same (x y : cell) : Prop :=
  x = y \/ (is_zero x = true /\ is_zero y = true).

(** Arithmetic of float32 (binary32) and of float64 (binary64, Python's
    [float]). *)
Definition f32_mul : cell -> cell -> cell := SFmul 24 128.
Definition f64_add : cell -> cell -> cell := SFadd 53 1024.
Definition f64_mul : cell -> cell -> cell := SFmul 53 1024.
Definition f64_div : cell -> cell -> cell := SFdiv 53 1024.

(** [astype] on one cell: the nearest number of the target format, an
    infinity when the number is out of its range. *)
Definition float32 (x : cell) : cell :=
  match x with
  | S754_finite s m e => binary_normalize 24 128 (cond_Zopp s (Zpos m)) e s
  | _ => x
  end.

Definition float64 (x : cell) : cell :=
  match x with
  | S754_finite s m e => binary_normalize 53 1024 (cond_Zopp s (Zpos m)) e s
  | _ => x
  end.

(** An integer, and a count, as a float64. *)
Definition f64_of_Z (z : Z) : cell := binary_normalize 53 1024 z 0 false.
Definition f64_of_nat (n : nat) : cell := f64_of_Z (Z.of_nat n).

Definition nan_to_zero (x : cell) : cell := if is_nan x then zero else x.

(** [sum(skipna=True)] over float64 entries: the masked entries are
    replaced by zero, then everything is added, in order; no minimum
    count of valid entries is asked. *)
Definition nansum (l : list cell) : cell := foldl f64_add zero (nan_to_zero <$> l).

(** The entries that are not NaN. *)
Definition valid (l : list cell) : list cell := filter (fun x => is_nan x = false) l.

Definition count_valid (l : list cell) : nat := length (valid l).

(** [mean(skipna=True)]: that total over the number of valid entries;
    with no valid entry it is 0/0. *)
Definition nanmean (l : list cell) : cell :=
  f64_div (nansum l) (f64_of_nat (count_valid l)).

(** ** Rasters *)

(** The six coefficients of an affine transform. *)
Record Affine : Type := mkAffine {
  aff_a : Qc; aff_b : Qc; aff_c : Qc;
  aff_d : Qc; aff_e : Qc; aff_f : Qc
}.

Global Instance Affine_eq_dec : EqDecision Affine.
Proof. solve_decision. Defined.

Record Raster : Type := mkRaster {
  crs : option string;
  transform : Affine;
  shape : nat * nat;
  values : list cell;
  name : option string
}.

Global Instance Raster_eq_dec : EqDecision Raster.
Proof. solve_decision. Defined.

Record Grid : Type := mkGrid {
  grid_crs : option string;
  grid_transform : Affine;
  grid_shape : nat * nat
}.

Global Instance Grid_eq_dec : EqDecision Grid.
Proof. solve_decision. Defined.

Definition grid (r : Raster) : Grid := mkGrid (crs r) (transform r) (shape r).

(** The buffer of a raster fills its shape. *)
Definition wf (r : Raster) : Prop :=
  length (values r) = (shape r).1 * (shape r).2.

(** A raster on the grid [g]. *)
Definition on_grid (g : Grid) (r : Raster) : Prop := grid r = g /\ wf r.

(** The test both aggregation loops make before resampling. *)
Definition grid_differs (a ref : Raster) : bool :=
  negb (bool_decide (crs a = crs ref))
  || negb (bool_decide (transform a = transform ref))
  || negb (bool_decide (shape a = shape ref)).

(** [r.astype(...)], given the cast of one cell. *)
Definition astype (to : cell -> cell) (r : Raster) : Raster :=
  mkRaster (crs r) (transform r) (shape r) (to <$> values r) (name r).

(** [r * k] for a float32 raster and a Python float [k]: the product is
    taken in float32. *)
Definition scale (r : Raster) (k : cell) : Raster :=
  mkRaster (crs r) (transform r) (shape r)
    ((fun x => f32_mul x (float32 k)) <$> values r) (name r).

(** ** Arrays with coordinate labels *)

(** The labels rioxarray computes from an affine transform for row [i]
    and for column [j]. *)
Record Labelling : Type := mkLabelling {
  row_label : Affine -> nat -> Qc;
  col_label : Affine -> nat -> Qc
}.

Record DataArray : Type := mkDataArray {
  da_crs : option string;
  da_transform : Affine;
  da_ys : list Qc;
  da_xs : list Qc;
  da_values : list cell;
  da_name : option string
}.

Global Instance DataArray_eq_dec : EqDecision DataArray.
Proof. solve_decision. Defined.

Definition da_shape (d : DataArray) : nat * nat := (length (da_ys d), length (da_xs d)).

(** The spatial reference and the transform an array carries, and its
    shape. *)
Definition da_grid (d : DataArray) : Grid :=
  mkGrid (da_crs d) (da_transform d) (da_shape d).

Definition da_wf (d : DataArray) : Prop :=
  length (da_values d) = length (da_ys d) * length (da_xs d).

(** An array with the labels of the grid [g], whose buffer fills them. *)
Definition da_on_grid (coords : Labelling) (g : Grid) (d : DataArray) : Prop :=
  da_ys d = row_label coords (grid_transform g) <$> seq 0 (grid_shape g).1
  /\ da_xs d = col_label coords (grid_transform g) <$> seq 0 (grid_shape g).2
  /\ da_wf d.

(** A raster as the labelled array it is: its rows and columns carry
    the labels of its transform. *)
Definition labelled (coords : Labelling) (r : Raster) : DataArray :=
  mkDataArray (crs r) (transform r)
    (row_label coords (transform r) <$> seq 0 (shape r).1)
    (col_label coords (transform r) <$> seq 0 (shape r).2)
    (values r) (name r).

Definition da_set_name (d : DataArray) (n : string) : DataArray :=
  mkDataArray (da_crs d) (da_transform d) (da_ys d) (da_xs d) (da_values d) (Some n).

Definition da_astype (to : cell -> cell) (d : DataArray) : DataArray :=
  mkDataArray (da_crs d) (da_transform d) (da_ys d) (da_xs d) (to <$> da_values d)
    (da_name d).

(** [d * k] for a float64 array and a Python float. *)
Definition da_scale (d : DataArray) (k : cell) : DataArray :=
  mkDataArray (da_crs d) (da_transform d) (da_ys d) (da_xs d)
    ((fun x => f64_mul x k) <$> da_values d) (da_name d).

(** The order of the labels. *)
Definition label_le (a b : Qc) : Prop := Qle_bool a b.

Global Instance label_le_dec (a b : Qc) : Decision (label_le a b).
Proof. unfold label_le. apply _. Defined.

(** The union of two indexes, as pandas forms it for an outer join:
    equal indexes and an empty one change nothing, otherwise the labels
    of both come out sorted. *)
Definition index_union (a b : list Qc) : list Qc :=
  if decide (a = b) then a
  else if decide (b = []) then a
  else if decide (a = []) then b
  else merge_sort label_le (a ++ filter (fun l => l ∉ a) b).

(** Their intersection, for an inner join: the labels of the first that
    the second has too, in the order of the first. *)
Definition index_intersection (a b : list Qc) : list Qc :=
  if decide (a = b) then a else filter (fun l => l ∈ b) a.

(** The index xarray aligns several arrays to. *)
Definition join_indexes (join : list Qc -> list Qc -> list Qc)
    (first : list Qc) (others : list (list Qc)) : list Qc :=
  foldl join first others.

(** The position of a label in an index. *)
Fixpoint get_loc (index : list Qc) (l : Qc) : option nat :=
  match index with
  | [] => None
  | l' :: rest => if decide (l' = l) then Some 0 else S <$> get_loc rest l
  end.

(** For each label of [target], where [index] has it; an index that is
    the target is not searched. *)
Definition get_indexer (index target : list Qc) : list (option nat) :=
  if decide (index = target) then Some <$> seq 0 (length index)
  else get_loc index <$> target.

(** The cell in row [oi] and column [oj], NaN when there is no such row
    or column. *)
Definition take_cell (d : DataArray) (oi oj : option nat) : cell :=
  match oi, oj with
  | Some i, Some j => default NaN (da_values d !! (i * length (da_xs d) + j))
  | _, _ => NaN
  end.

(** The buffer of [d] re-indexed to the labels [ys'] and [xs'], filled
    with NaN where [d] lacks a label; an array that has these labels is
    taken as it is. *)
Definition reindex (ys' xs' : list Qc) (d : DataArray) : list cell :=
  if decide (da_ys d = ys' /\ da_xs d = xs') then da_values d
  else
    oi ← get_indexer (da_ys d) ys';
    oj ← get_indexer (da_xs d) xs';
    [take_cell d oi oj].

(** The cell [d] holds at a pair of labels; NaN when it has no such
    labels, which is what aligning [d] to them fills in. *)
Definition sel (d : DataArray) (y x : Qc) : cell :=
  take_cell d (get_loc (da_ys d) y) (get_loc (da_xs d) x).

(** The entries stacked at position [k] of the aligned buffers. *)
Definition column (k : nat) (buffers : list (list cell)) : list cell :=
  (fun b => default NaN (b !! k)) <$> buffers.

(** [xr.concat([first] + others, dim).f(dim, skipna=True)]: the layers
    are aligned to the union of their labels, stacked, and reduced cell
    by cell; the spatial reference and the name are those of the first. *)
Definition reduce_layers (f : list cell -> cell) (first : DataArray)
    (others : list DataArray) : DataArray :=
  let ys' := join_indexes index_union (da_ys first) (da_ys <$> others) in
  let xs' := join_indexes index_union (da_xs first) (da_xs <$> others) in
  let buffers := reindex ys' xs' <$> first :: others in
  mkDataArray (da_crs first) (da_transform first) ys' xs'
    ((fun k => f (column k buffers)) <$> seq 0 (length ys' * length xs'))
    (da_name first).

Definition concat_reduce (f : list cell -> cell) (layers : list DataArray)
    : result DataArray :=
  match layers with
  | [] => Raise (ValueError "must supply at least one object to concatenate")
  | first :: others => Ok (reduce_layers f first others)
  end.

(** [a * b] for two float64 arrays: both are aligned to the labels they
    share; the result keeps a name both operands have. *)
Definition da_mul (a b : DataArray) : DataArray :=
  let ys' := index_intersection (da_ys a) (da_ys b) in
  let xs' := index_intersection (da_xs a) (da_xs b) in
  mkDataArray (da_crs a) (da_transform a) ys' xs'
    (zip_with f64_mul (reindex ys' xs' a) (reindex ys' xs' b))
    (if bool_decide (da_name a = da_name b) then da_name a else None).
(** ** Logging and the monad of the aggregation code *)

Inductive warning : Type :=
  | SkipCrop (group crop water_code path : string) (e : exn)
  | SkipGroup (group water_code path : string) (e : exn).

Global Instance warning_eq_dec : EqDecision warning.
Proof. solve_decision. Defined.

Definition M (A : Type) : Type := (list warning * result A)%type.

Definition ret {A} (a : A) : M A := ([], Ok a).
Definition lift {A} (r : result A) : M A := ([], r).
Definition logging_warning (w : warning) : M unit := ([w], Ok tt).

Definition bind {A B} (m : M A) (k : A -> M B) : M B :=
  match m with
  | (log, Ok a) => let '(log', r) := k a in (log ++ log', r)
  | (log, Raise e) => (log, Raise e)
  end.

Notation "'let*' x ':=' m 'in' k" := (bind m (fun x => k))
  (at level 10, x pattern, m at level 100, k at level 200).

(** [d[key]] on a dict. *)
Definition getitem {V} (d : gmap string V) (key : string) : result V :=
  match d !! key with
  | Some v => Ok v
  | None => Raise (KeyError key)
  end.

(** [for c in crops] when [crops] may be [None]. *)
Definition iter {A} (o : option (list A)) : result (list A) :=
  match o with
  | Some l => Ok l
  | None => Raise (TypeError "'NoneType' object is not iterable")
  end.

(** ** Group Aggregator and calorie reducer ([src/utils.py]) *)

(** The dict local to [group_kcal_average]. *)
Definition YR_WATER_TO_AREA : gmap string string :=
  <["HILM" := "WSI"]> (<["LILM" := "WSI"]> (<["HRLM" := "WSR"]> (<["LRLM" := "WSR"]> ∅))).

Section Aggregation.

(** The remote store, the cell values rioxarray computes when it
    resamples its first argument onto the grid of the second, and the
    labels it computes from a transform. *)
Variable open_raster : string -> result Raster.
Variable resample : Raster -> Raster -> list cell.
Variable coords : Labelling.

(** [a.rio.reproject_match(ref)]: the result is on the grid of [ref]. *)
Definition reproject_match (a ref : Raster) : Raster :=
  mkRaster (crs ref) (transform ref) (shape ref) (resample a ref) (name a).

(** Grid Aligner: resample only when the grid differs from the reference. *)
Definition align_to (ref candidate : Raster) : Raster :=
  if grid_differs candidate ref then reproject_match candidate ref else candidate.

(** The variables the member loop of [group_kcal_average] rebinds. *)
Record loop_state : Type := mkLoop {
  areaG : Raster;
  ref : option Raster;
  yld_ha_layers : list Raster
}.

Global Instance loop_state_eq_dec : EqDecision loop_state.
Proof. solve_decision. Defined.

Section Group.

Variables (group : string) (kcal_per_kg : cell)
          (water_code variable_code_yield : string)
          (period climate_model scenario : option string).

Definition yield_path (c : string) : result string :=
  gaezv5_path variable_code_yield period climate_model scenario
    (Some c) (Some water_code) "https".

(** The body of [for c in crops], once the path is resolved. *)
Definition load_member (c y_path : string) (st : loop_state) : M loop_state :=
  match open_raster y_path with
  | Raise e =>
    let* _ := logging_warning (SkipCrop group c water_code y_path e) in
    ret st
  | Ok yld =>
    let st1 :=
      match ref st with
      | None => mkLoop (align_to yld (areaG st)) (Some yld) (yld_ha_layers st)
      | Some _ => st
      end in
    ret (mkLoop (areaG st1) (ref st1) (yld_ha_layers st1 ++ [astype float64 yld]))
  end.

Fixpoint load_members (crops : list string) (st : loop_state) : M loop_state :=
  match crops with
  | [] => ret st
  | c :: rest =>
    let* y_path := lift (yield_path c) in
    let* st' := load_member c y_path st in
    load_members rest st'
  end.

(** What the loop leaves behind, read off the store: the members whose
    yield raster opens, in order, and a warning for each that does not. *)
Definition loaded_members (crops : list string) : list Raster :=
  omap (fun c =>
          match yield_path c with
          | Ok y_path =>
            match open_raster y_path with Ok yld => Some yld | Raise _ => None end
          | Raise _ => None
          end) crops.

Definition skipped_members (crops : list string) : list warning :=
  omap (fun c =>
          match yield_path c with
          | Ok y_path =>
            match open_raster y_path with
            | Ok _ => None
            | Raise e => Some (SkipCrop group c water_code y_path e)
            end
          | Raise _ => None
          end) crops.

(** Whether the yield raster of member [c] opens. *)
Definition opens (c : string) : bool :=
  match yield_path c with
  | Ok y_path => is_ok (open_raster y_path)
  | Raise _ => false
  end.

Definition after_members (st : loop_state) (loaded : list Raster) : loop_state :=
  match ref st, loaded with
  | None, yld :: _ =>
    mkLoop (align_to yld (areaG st)) (Some yld)
      (yld_ha_layers st ++ (astype float64 <$> loaded))
  | _, _ => mkLoop (areaG st) (ref st) (yld_ha_layers st ++ (astype float64 <$> loaded))
  end.

Definition area_path (area_water : string) : result string :=
  gaezv5_path "RES06-HAR" None None None (Some group) (Some area_water) "https".

(** The mean is a float64 array; in the product the float32 area is
    promoted to float64. *)
Definition group_kcal_average (crops : option (list string)) : M DataArray :=
  let* area_water := lift (getitem YR_WATER_TO_AREA water_code) in
  let* a_path := lift (area_path area_water) in
  let* area := lift (open_raster a_path) in
  let* crops := lift (iter crops) in
  let* st := load_members crops (mkLoop area None []) in
  match yld_ha_layers st with
  | [] => ret (labelled coords (scale (areaG st) zero))
  | _ :: _ =>
    let* yield_ha_mean :=
      lift (concat_reduce nanmean (labelled coords <$> yld_ha_layers st)) in
    let kcal_cell :=
      da_scale (da_mul yield_ha_mean (labelled coords (astype float64 (areaG st))))
        kcal_per_kg in
    ret (da_set_name kcal_cell ("kcal_" +:+ group))
  end.

(** The array the Group Aggregator builds from the area and the members
    loaded. *)
Definition group_output (area : Raster) (loaded : list Raster) : DataArray :=
  match loaded with
  | [] => labelled coords (scale area zero)
  | yld :: ys =>
    da_set_name
      (da_scale
         (da_mul
            (reduce_layers nanmean (labelled coords (astype float64 yld))
               (labelled coords <$> (astype float64 <$> ys)))
            (labelled coords (astype float64 (align_to yld area))))
         kcal_per_kg)
      ("kcal_" +:+ group)
  end.

End Group.

(** The exception that leaves [group_kcal_average] when the member list
    is [None]: whatever stops it before the loop, else the TypeError of
    iterating [None]. *)
Definition absent_members_error (group water_code : string) : exn :=
  match getitem YR_WATER_TO_AREA water_code with
  | Raise e => e
  | Ok area_water =>
    match area_path group area_water with
    | Raise e => e
    | Ok a_path =>
      match open_raster a_path with
      | Raise e => e
      | Ok _ => TypeError "'NoneType' object is not iterable"
      end
    end
  end.

(** [sum_groups_kcal]; [calorie_mapping] is the dict in the order its
    items are iterated.  The group layers are float64, but for a
    fallback layer, whose float32 cells are zeros and NaN and are not
    changed by the promotion. *)
Section Reducer.

Variables (crop_mapping : gmap string (list string))
          (water_code variable_code_yield : string)
          (period climate_model scenario : option string).

Fixpoint collect_group_layers (items : list (string * cell))
    (group_layers : list DataArray) : M (list DataArray) :=
  match items with
  | [] => ret group_layers
  | (group_crop, kcal) :: rest =>
    let crops := crop_mapping !! group_crop in
    let* layer := group_kcal_average group_crop kcal water_code
                    variable_code_yield period climate_model scenario crops in
    collect_group_layers rest (group_layers ++ [layer])
  end.

Definition sum_groups_kcal (calorie_mapping : list (string * cell)) : M DataArray :=
  let* group_layers := collect_group_layers calorie_mapping [] in
  let* total_kcal := lift (concat_reduce nansum group_layers) in
  ret (da_set_name total_kcal
         ("cal_yld_" +:+ variable_code_yield +:+ "_" +:+ fmt period +:+ "_"
            +:+ fmt climate_model +:+ "_" +:+ fmt scenario +:+ "_" +:+ water_code)).

End Reducer.

End Aggregation.

(** ** Harvested-area reducer ([get_har_area.py]) *)

Module get_har_area.

Definition WATERS : list string := ["HILM"; "HRLM"].

(** The module-level dict of this script. *)
Definition YR_WATER_TO_AREA : gmap string string :=
  <["HILM" := "WSI"]> (<["HRLM" := "WSR"]> ∅).

Section Area.

Variable open_raster : string -> result Raster.
Variable resample : Raster -> Raster -> list cell.
Variable coords : Labelling.

Fixpoint load_areas (water_code area_water : string) (groups : list string)
    (ref : option Raster) (area_layers : list Raster) : M (list Raster) :=
  match groups with
  | [] => ret area_layers
  | group :: rest =>
    let* a_path := lift (gaezv5_path "RES06-HAR" None None None
                           (Some group) (Some area_water) "https") in
    match open_raster a_path with
    | Raise e =>
      let* _ := logging_warning (SkipGroup group water_code a_path e) in
      load_areas water_code area_water rest ref area_layers
    | Ok area =>
      match ref with
      | None =>
        load_areas water_code area_water rest (Some area)
          (area_layers ++ [astype float64 area])
      | Some r =>
        load_areas water_code area_water rest ref
          (area_layers ++ [astype float64 (align_to resample r area)])
      end
    end
  end.

Definition sum_groups_har_area (groups : list string) (water_code : string)
    : M DataArray :=
  let* area_water := lift (getitem YR_WATER_TO_AREA water_code) in
  let* area_layers := load_areas water_code area_water groups None [] in
  match area_layers with
  | [] => lift (Raise (ValueError ("No valid area layers found for water_code=" +:+ water_code)))
  | _ :: _ =>
    let* total_area := lift (concat_reduce nansum (labelled coords <$> area_layers)) in
    ret (da_set_name total_area ("har_area_" +:+ water_code))
  end.

End Area.

End get_har_area.

(** ** Stores and rasters for the scenarios of the specification *)

Module Scenario.

Definition wgs84 : option string := Some "EPSG:4326".

(** The global 5 arc-minute grid, and one shifted east by a degree. *)
Definition five_arcmin : Affine :=
  mkAffine (Q2Qc (1 # 12)) 0 (Q2Qc (-180)) 0 (Q2Qc (-1 # 12)) (Q2Qc 90).

Definition shifted : Affine :=
  mkAffine (Q2Qc (1 # 12)) 0 (Q2Qc (-179)) 0 (Q2Qc (-1 # 12)) (Q2Qc 90).

(** The same grid shifted east by one pixel only. *)
Definition shifted_one : Affine :=
  mkAffine (Q2Qc (1 # 12)) 0 (Q2Qc (-180 + (1 # 12))) 0 (Q2Qc (-1 # 12)) (Q2Qc 90).

(** Labels at the pixel centres. *)
Definition half_pixel (origin step : Qc) (k : nat) : Qc :=
  (origin + step * (Q2Qc (inject_Z (Z.of_nat k)) + Q2Qc (1 # 2)))%Qc.

Definition centres : Labelling :=
  mkLabelling (fun tr i => half_pixel (aff_f tr) (aff_e tr) i)
              (fun tr j => half_pixel (aff_c tr) (aff_a tr) j).

Definition raster_of (tr : Affine) (rows cols : nat) (cells : list cell) : Raster :=
  mkRaster wgs84 tr (rows, cols) cells None.

Definition const_raster (tr : Affine) (rows cols : nat) (v : cell) : Raster :=
  raster_of tr rows cols (replicate (rows * cols) v).

(** An integer as a float32 cell of a file, and as a float64. *)
Definition num (z : Z) : cell := float32 (f64_of_Z z).
Definition num64 (z : Z) : cell := f64_of_Z z.
Arguments num z%_Z.
Arguments num64 z%_Z.

(** A float32 infinity, as the cast leaves where a number is too
    large. *)
Definition inf : cell := float32 (f64_of_Z (10 ^ 40)).

Definition url_of (r : result string) : string :=
  match r with Ok url => url | Raise _ => "" end.

(** A store holding the listed rasters and nothing else. *)
Fixpoint store_of (entries : list (string * Raster)) (url : string) : result Raster :=
  match entries with
  | [] => Raise (RasterioIOError url)
  | (u, r) :: rest => if String.eqb u url then Ok r else store_of rest url
  end.

(** A resampler that fills the reference grid with the first cell of
    its input. *)
Definition resample_first (a ref : Raster) : list cell :=
  replicate ((shape ref).1 * (shape ref).2) (default NaN (head (values a))).

Definition yield_url (crop : string) : string :=
  url_of (gaezv5_path "RES05-YCX" (Some "HP0120") (Some "AGERA5") (Some "HIST")
            (Some crop) (Some "HILM") "https").

Definition area_url (group : string) : string :=
  url_of (gaezv5_path "RES06-HAR" None None None (Some group) (Some "WSI") "https").

(** Group "BAN": the yield of "BANA" is 2 everywhere, "PLNT" is missing,
    the harvested area is 100 everywhere. *)
Definition store_BAN : string -> result Raster :=
  store_of [(yield_url "BANA", const_raster five_arcmin 2 2 (num 2));
            (area_url "BAN", const_raster five_arcmin 2 2 (num 100))].

(** Both members open, on different grids. *)
Definition store_two_grids : string -> result Raster :=
  store_of [(yield_url "BANA", const_raster five_arcmin 2 2 (num 2));
            (yield_url "PLNT", const_raster shifted 2 2 (num 4));
            (area_url "BAN", const_raster five_arcmin 2 2 (num 100))].

(** Both members open, the second one pixel to the east of the first. *)
Definition store_overlap : string -> result Raster :=
  store_of [(yield_url "BANA", const_raster five_arcmin 2 2 (num 2));
            (yield_url "PLNT", const_raster shifted_one 2 2 (num 4));
            (area_url "BAN", const_raster five_arcmin 2 2 (num 100))].

(** No member opens, and the harvested area is masked at its first cell. *)
Definition store_masked_area : string -> result Raster :=
  store_of [(area_url "BAN", raster_of five_arcmin 2 2 [NaN; num 100; num 100; num 100])].

(** No member opens, and the harvested area is infinite at its first
    cell. *)
Definition store_inf_area : string -> result Raster :=
  store_of [(area_url "BAN", raster_of five_arcmin 2 2 [inf; num 100; num 100; num 100])].

(** An array of float64 cells on the grid [tr]. *)
Definition layer_of (tr : Affine) (rows cols : nat) (cells : list Z) : DataArray :=
  labelled centres (raster_of tr rows cols (num64 <$> cells)).

Definition mask_first (d : DataArray) : DataArray :=
  mkDataArray (da_crs d) (da_transform d) (da_ys d) (da_xs d)
    (NaN :: tail (da_values d)) (da_name d).

(** Two group layers: 100 everywhere; masked at the first cell and 50
    elsewhere. *)
Definition layer_100 : DataArray := layer_of five_arcmin 2 2 [100; 100; 100; 100]%Z.
Definition layer_50 : DataArray := mask_first (layer_of five_arcmin 2 2 [50; 50; 50; 50]%Z).

(** A group layer masked at its first cell. *)
Definition layer_masked : DataArray := mask_first (layer_of five_arcmin 2 2 [1; 1; 1; 1]%Z).

(** A group layer one pixel to the east. *)
Definition layer_east : DataArray := layer_of shifted_one 2 2 [15; 15; 15; 15]%Z.

(** An empty store. *)
Definition store_empty : string -> result Raster := store_of [].

End Scenario.

(** ** What the area loop leaves behind *)

Section AreaReading.

Variable open_raster : string -> result Raster.
Variable resample : Raster -> Raster -> list cell.

(** The harvested-area rasters that open, in the order of the groups,
    and a warning for each group whose raster does not. *)
Definition opened_areas (area_water : string) (groups : list string) : list Raster :=
  omap (fun group =>
          match area_path group area_water with
          | Ok a_path =>
            match open_raster a_path with Ok area => Some area | Raise _ => None end
          | Raise _ => None
          end) groups.

Definition skipped_groups (water_code area_water : string) (groups : list string)
    : list warning :=
  omap (fun group =>
          match area_path group area_water with
          | Ok a_path =>
            match open_raster a_path with
            | Ok _ => None
            | Raise e => Some (SkipGroup group water_code a_path e)
            end
          | Raise _ => None
          end) groups.

(** The layers appended for the rasters opened: the first one sets the
    reference when there is none yet, every other one goes through the
    aligner. *)
Definition aligned_areas (ref : option Raster) (areas : list Raster) : list Raster :=
  match ref with
  | Some r => align_to resample r <$> areas
  | None =>
    match areas with
    | [] => []
    | first :: rest => first :: (align_to resample first <$> rest)
    end
  end.

End AreaReading.

(** The cells of an array returned, if one is returned. *)
Definition result_cells (r : result DataArray) : option (list cell) :=
  match r with
  | Ok x => Some (da_values x)
  | Raise _ => None
  end.

(** A cell that is a number not below zero: [0 <= x] holds. *)
Definition nonneg_cell (x : cell) : Prop := SFleb zero x = true.
(** ** What the drivers log *)

Inductive event : Type :=
  | Processing (groups : list string)
  | Exists_skipping (out_path : string)
  | Building (fname : string)
  | Saved (out_path : string)
  | Failed (fname : string) (e : exn)
  | Logged (w : warning).

(** An event other than "Saved". *)
Definition not_saved (ev : event) : Prop :=
  match ev with Saved _ => False | _ => True end.

(** A raster writer that leaves every file but its target as it was. *)
Definition writes_only_target
    (to_raster : string -> DataArray -> gmap string DataArray
                 -> gmap string DataArray * result unit)
    : Prop :=
  forall path da fs other, other <> path -> (to_raster path da fs).1 !! other = fs !! other.

(** ** Calorie driver ([get_data.py]) *)

Module get_data.

Definition OUTDIR : string := "outputs/cal_yld".
Definition YIELD_VARS : list string := ["RES05-YCX"].
Definition WATERS : list string := ["HILM"; "HRLM"].
Definition OVERWRITE : bool := false.

Definition HIST_PERIODS : list string := ["HP8100"; "HP0120"].
Definition FUTURE_PERIODS : list string := ["FP2140"; "FP4160"; "FP6180"; "FP8100"].
Definition HIST_MODELS : list string := ["AGERA5"].
Definition FUTURE_MODELS : list string := ["ENSEMBLE"].

Record scenario_cfg : Type := mkCfg {
  periods : list string;
  models : list string
}.

(** The dict [SCENARIOS], in the order of its items. *)
Definition SCENARIOS : list (string * scenario_cfg) :=
  [("HIST", mkCfg HIST_PERIODS HIST_MODELS);
   ("SSP126", mkCfg FUTURE_PERIODS FUTURE_MODELS);
   ("SSP370", mkCfg FUTURE_PERIODS FUTURE_MODELS);
   ("SSP585", mkCfg FUTURE_PERIODS FUTURE_MODELS)].

(** The three nested loops of the generator, as the list of what they
    yield, for any table of scenarios. *)
Definition combos (scenarios : list (string * scenario_cfg))
    : list (string * string * string) :=
  item ← scenarios;
  period ← periods item.2;
  model ← models item.2;
  [(period, model, item.1)].

Definition valid_combos : list (string * string * string) := combos SCENARIOS.

(** The name [run] gives the output of one combination. *)
Definition fname (yield_var period model scen water : string) : string :=
  "cal_yld_" +:+ yield_var +:+ "_" +:+ period +:+ "_" +:+ model +:+ "_" +:+ scen
    +:+ "_" +:+ water.

(** [outdir_var / f"{name}.tif"], for the relative names used here. *)
Definition out_path (yield_var name : string) : string :=
  OUTDIR +:+ "/" +:+ yield_var +:+ "/" +:+ name +:+ ".tif".

(** [da.name or fname]. *)
Definition name_or (da : DataArray) (fname : string) : string :=
  match da_name da with
  | Some n => if bool_decide (n = "") then fname else n
  | None => fname
  end.

(** The pairs the two inner loops of [run] go through. *)
Definition jobs : list ((string * string * string) * string) :=
  combo ← valid_combos; water ← WATERS; [(combo, water)].

(** The file of one job, and the files of all the outputs [run] is to
    produce. *)
Definition job_path (yield_var : string) (job : (string * string * string) * string)
    : string :=
  out_path yield_var (fname yield_var job.1.1.1 job.1.1.2 job.1.2 job.2).

Definition requested_paths : list string :=
  yield_var ← YIELD_VARS; job ← jobs; [job_path yield_var job].

Section Run.

(** The store and the resampler, what reading the two tables gives, and
    the raster writer: the files it leaves and whether it raised. *)
Variable open_raster : string -> result Raster.
Variable resample : Raster -> Raster -> list cell.
Variable coords : Labelling.
Variable get_cal_mapper : result (list (string * cell)).
Variable get_crop_mapping : string -> result (gmap string (list string)).
Variable to_raster :
  string -> DataArray -> gmap string DataArray -> gmap string DataArray * result unit.

(** The body of the innermost loop: one output raster, written as
    float32. *)
Definition build_output (cal_map_t6 : list (string * cell))
    (crop_mapping : gmap string (list string)) (yield_var : string)
    (job : (string * string * string) * string) (fs : gmap string DataArray)
    : list event * gmap string DataArray :=
  let '((period, model, scen), water) := job in
  let fname := fname yield_var period model scen water in
  if bool_decide (is_Some (fs !! out_path yield_var fname)) && negb OVERWRITE then
    ([Exists_skipping (out_path yield_var fname)], fs)
  else
    match sum_groups_kcal open_raster resample coords crop_mapping water yield_var
            (Some period) (Some model) (Some scen) cal_map_t6 with
    | (log, Raise e) => (Building fname :: (Logged <$> log) ++ [Failed fname e], fs)
    | (log, Ok da) =>
      let da := da_astype float32 da in
      let path := out_path yield_var (name_or da fname) in
      match to_raster path da fs with
      | (fs', Ok _) => (Building fname :: (Logged <$> log) ++ [Saved path], fs')
      | (fs', Raise e) => (Building fname :: (Logged <$> log) ++ [Failed fname e], fs')
      end
    end.

Fixpoint build_outputs (cal_map_t6 : list (string * cell))
    (crop_mapping : gmap string (list string)) (yield_var : string)
    (todo : list ((string * string * string) * string)) (fs : gmap string DataArray)
    : list event * gmap string DataArray :=
  match todo with
  | [] => ([], fs)
  | job :: rest =>
    let '(log1, fs1) := build_output cal_map_t6 crop_mapping yield_var job fs in
    let '(log2, fs2) := build_outputs cal_map_t6 crop_mapping yield_var rest fs1 in
    (log1 ++ log2, fs2)
  end.

Fixpoint run_vars (cal_map_t6 : list (string * cell)) (yield_vars : list string)
    (fs : gmap string DataArray) : list event * gmap string DataArray * result unit :=
  match yield_vars with
  | [] => ([], fs, Ok tt)
  | yield_var :: rest =>
    match get_crop_mapping yield_var with
    | Raise e => ([], fs, Raise e)
    | Ok crop_mapping =>
      let '(log1, fs1) := build_outputs cal_map_t6 crop_mapping yield_var jobs fs in
      let '(log2, fs2, r) := run_vars cal_map_t6 rest fs1 in
      (log1 ++ log2, fs2, r)
    end
  end.

Definition run (fs : gmap string DataArray)
    : list event * gmap string DataArray * result unit :=
  match get_cal_mapper with
  | Raise e => ([], fs, Raise e)
  | Ok cal_map_t6 => run_vars cal_map_t6 YIELD_VARS fs
  end.

End Run.

End get_data.

(** ** Harvested-area driver ([run] of [get_har_area.py]) *)

Module get_har_area_run.

Definition OUTDIR : string := "outputs/har_area".
Definition OVERWRITE : bool := false.

Definition out_path (fname : string) : string := OUTDIR +:+ "/" +:+ fname +:+ ".tif".

Section Run.

Variable open_raster : string -> result Raster.
Variable resample : Raster -> Raster -> list cell.
Variable coords : Labelling.
Variable get_cal_mapper : result (list (string * cell)).
Variable to_raster :
  string -> DataArray -> gmap string DataArray -> gmap string DataArray * result unit.

Definition build_output (groups : list string) (water : string)
    (fs : gmap string DataArray) : list event * gmap string DataArray :=
  let fname := "har_area_" +:+ water in
  if bool_decide (is_Some (fs !! out_path fname)) && negb OVERWRITE then
    ([Exists_skipping (out_path fname)], fs)
  else
    match get_har_area.sum_groups_har_area open_raster resample coords groups water with
    | (log, Raise e) => (Building fname :: (Logged <$> log) ++ [Failed fname e], fs)
    | (log, Ok da) =>
      let da := da_astype float32 da in
      match to_raster (out_path fname) da fs with
      | (fs', Ok _) => (Building fname :: (Logged <$> log) ++ [Saved (out_path fname)], fs')
      | (fs', Raise e) => (Building fname :: (Logged <$> log) ++ [Failed fname e], fs')
      end
    end.

Fixpoint build_outputs (groups : list string) (waters : list string)
    (fs : gmap string DataArray) : list event * gmap string DataArray :=
  match waters with
  | [] => ([], fs)
  | water :: rest =>
    let '(log1, fs1) := build_output groups water fs in
    let '(log2, fs2) := build_outputs groups rest fs1 in
    (log1 ++ log2, fs2)
  end.

Definition run (fs : gmap string DataArray)
    : list event * gmap string DataArray * result unit :=
  match get_cal_mapper with
  | Raise e => ([], fs, Raise e)
  | Ok cal_map_t6 =>
    let groups := cal_map_t6.*1 in
    let '(log, fs') := build_outputs groups get_har_area.WATERS fs in
    (Processing groups :: log, fs', Ok tt)
  end.

End Run.

End get_har_area_run.

(** ** Datasets from the written rasters ([process_data.py],
    [process_har_area.py]) *)

Module process_data.

(** How [build_dataset_for_variable_local] ends. *)
Inductive outcome (A : Type) : Type :=
  | Built (a : A)
  | FileNotFoundError (msg : string)
  | OpenFailed (e : exn).
Arguments Built {A} a.
Arguments FileNotFoundError {A} msg.
Arguments OpenFailed {A} e.

Global Instance outcome_eq_dec {A} `{EqDecision A} : EqDecision (outcome A).
Proof. solve_decision. Defined.

(** [da.where(da >= 0, 0)] on one cell: the cell is kept where the test
    holds, and the test fails on NaN. *)
Definition where_nonneg_cell (x : cell) : cell :=
  if SFleb zero x then x else zero.

Definition where_nonneg (da : Raster) : Raster :=
  mkRaster (crs da) (transform da) (shape da) (where_nonneg_cell <$> values da) (name da).

Section Build.

(** What a file of the folder opens to, and the resampler. *)
Variable open_tif_local : string -> result Raster.
Variable resample : Raster -> Raster -> list cell.

(** The loop over the files, each named by its stem. *)
Fixpoint load_vars (ref : Raster) (clamp_negatives : bool) (files : list string)
    : result (list (string * Raster)) :=
  match files with
  | [] => Ok []
  | f :: rest =>
    match open_tif_local f with
    | Raise e => Raise e
    | Ok da =>
      let da := align_to resample ref da in
      let da := if clamp_negatives then where_nonneg da else da in
      match load_vars ref clamp_negatives rest with
      | Ok data_vars => Ok ((f, da) :: data_vars)
      | Raise e => Raise e
      end
    end
  end.

(** [files] is the sorted list the glob gives; the result lists the data
    variables of the dataset in the order they were entered. *)
Definition build_dataset_for_variable_local (folder variable_prefix : string)
    (files : list string) (clamp_negatives : bool) : outcome (list (string * Raster)) :=
  match files with
  | [] =>
    FileNotFoundError
      ("No tifs matching " +:+ variable_prefix +:+ "_*.tif in " +:+ folder)
  | first :: _ =>
    match open_tif_local first with
    | Raise e => OpenFailed e
    | Ok ref =>
      match load_vars ref clamp_negatives files with
      | Ok data_vars => Built data_vars
      | Raise e => OpenFailed e
      end
    end
  end.

End Build.

End process_data.

(** ** Tables, files and writers for the driver scenarios *)

Module DriverScenario.

(** The float64 nearest to 39.4. *)
Definition kcal_BAN : cell := f64_div (f64_of_Z 394) (f64_of_Z 10).

Definition cal_map : list (string * cell) := [("BAN", kcal_BAN)].

Definition crop_map : gmap string (list string) := {["BAN" := ["BANA"; "PLNT"]]}.

(** A writer that always succeeds and stores the raster under its path. *)
Definition to_raster_ok (path : string) (da : DataArray) (fs : gmap string DataArray)
    : gmap string DataArray * result unit :=
  (<[path := da]> fs, Ok tt).

(** The output of the first combination is already there. *)
Definition first_output : string :=
  "outputs/cal_yld/RES05-YCX/cal_yld_RES05-YCX_HP8100_AGERA5_HIST_HILM.tif".

Definition files_with_first : gmap string DataArray :=
  {[first_output := Scenario.layer_100]}.

(** Every requested output is there. *)
Definition all_outputs : gmap string DataArray :=
  list_to_map ((fun path => (path, Scenario.layer_100)) <$> get_data.requested_paths).

Definition area_output_HILM : string := "outputs/har_area/har_area_HILM.tif".

Definition files_with_area : gmap string DataArray :=
  {[area_output_HILM := Scenario.layer_100]}.

(** Two written rasters, the second with a negative and a masked cell
    and on a shifted grid. *)
Definition tif_a : Raster :=
  Scenario.raster_of Scenario.five_arcmin 2 2
    [NaN; Scenario.num 50; Scenario.num 50; Scenario.num 50].

Definition tif_b : Raster :=
  Scenario.raster_of Scenario.shifted 2 2
    [Scenario.num (-3); NaN; Scenario.num 1; Scenario.num 0].

Definition folder : string -> result Raster :=
  Scenario.store_of [("cal_a", tif_a); ("cal_b", tif_b)].

End DriverScenario.
(** * Properties *)

(** ** Strings *)

Lemma append_nil (b : string) : "" +:+ b = b.
Proof. reflexivity. Qed.

Lemma append_cons (x : ascii) (a b : string) :
  String x a +:+ b = String x (a +:+ b).
Proof. reflexivity. Qed.

Lemma append_assoc (a b c : string) : (a +:+ b) +:+ c = a +:+ (b +:+ c).
Proof.
  induction a as [|x a IH]; [done |].
  rewrite !append_cons. by rewrite IH.
Qed.

Lemma dotfree_app (a b : string) :
  dotfree (a +:+ b) = dotfree a && dotfree b.
Proof.
  induction a as [|x a IH]; [done |].
  rewrite append_cons. simpl. rewrite IH. by rewrite andb_assoc.
Qed.

(** A string starts with [p] exactly when it is [p] followed by a rest. *)
Lemma prefix_app (p s : string) :
  String.prefix p s = true <-> exists t, s = p +:+ t.
Proof.
  revert s. induction p as [|x p IH]; intros s.
  - split; [|by destruct s]. intros _. by exists s.
  - destruct s as [|y s]; simpl.
    + split; [done | intros [t Ht]; by rewrite append_cons in Ht].
    + destruct (ascii_dec x y) as [->|Hne].
      * rewrite IH. split; intros [t Ht]; exists t.
        -- rewrite append_cons. by rewrite Ht.
        -- rewrite append_cons in Ht. by injection Ht.
      * split; [done |]. intros [t Ht]. rewrite append_cons in Ht.
        injection Ht as Hxy _. by destruct Hne.
Qed.

(** Reading a dotted name from the left: the first token ends at the
    first dot when the token itself holds none. *)
Lemma dotted_split (a b x y : string) :
  dotfree a = true -> dotfree b = true ->
  a +:+ "." +:+ x = b +:+ "." +:+ y -> a = b /\ x = y.
Proof.
  revert b. induction a as [|c a IH]; intros [|d b] Ha Hb Heq;
    rewrite ?append_nil, ?append_cons in Heq; simpl in Ha, Hb.
  - by injection Heq.
  - injection Heq as <- _. by rewrite Ascii.eqb_refl in Hb.
  - injection Heq as -> _. by rewrite Ascii.eqb_refl in Ha.
  - injection Heq as -> Heq.
    apply andb_prop in Ha as [_ Ha]. apply andb_prop in Hb as [_ Hb].
    destruct (IH b Ha Hb Heq) as [-> ->]. done.
Qed.

(** ** Path Resolver *)

Lemma BASE_https : BASE !! "https" = Some https_base.
Proof. vm_compute. reflexivity. Qed.

Lemma BASE_gs : BASE !! "gs" = Some gs_base.
Proof. vm_compute. reflexivity. Qed.

(** What the resolver returns, branch by branch, for a known scheme. *)
Lemma gaezv5_path_cases (vc : string) (p m s c w : option string) (scheme base : string) :
  BASE !! scheme = Some base ->
  gaezv5_path vc p m s c w scheme =
    if scheme_A vc then Ok (base +:+ "/" +:+ vc +:+ "/" +:+ fname_scenario vc p m s c w)
    else if scheme_B vc then Ok (base +:+ "/" +:+ vc +:+ "/" +:+ fname_static vc c w)
    else Raise (ValueError "Unrecognized variable code family.").
Proof.
  intros Hb. unfold gaezv5_path, scheme_A, scheme_B, startswith. rewrite Hb. simpl.
  destruct (String.prefix "RES02" vc), (String.prefix "RES03" vc),
    (String.prefix "RES04" vc), (String.prefix "RES05" vc),
    (String.prefix "RES06" vc); reflexivity.
Qed.

Lemma scheme_B_not_A (vc : string) : scheme_B vc = true -> scheme_A vc = false.
Proof.
  intros H. unfold scheme_B, startswith in H. simpl in H.
  rewrite orb_false_r in H. apply prefix_app in H as [t ->].
  vm_compute. reflexivity.
Qed.

Lemma token_ok_dotfree (o : option string) : token_ok o = true -> dotfree (fmt o) = true.
Proof. by destruct o. Qed.

Lemma token_ok_fmt_inj (o1 o2 : option string) :
  token_ok o1 = true -> token_ok o2 = true -> fmt o1 = fmt o2 -> o1 = o2.
Proof. destruct o1, o2; simpl; try done. by intros _ _ ->. Qed.

Lemma fname_static_inj (vc1 vc2 : string) (c1 c2 w1 w2 : option string) :
  dotfree vc1 = true -> dotfree vc2 = true ->
  token_ok c1 = true -> token_ok c2 = true ->
  token_ok w1 = true -> token_ok w2 = true ->
  vc1 +:+ "." +:+ fmt c1 +:+ "." +:+ fmt w1 +:+ ".tif"
    = vc2 +:+ "." +:+ fmt c2 +:+ "." +:+ fmt w2 +:+ ".tif" ->
  vc1 = vc2 /\ c1 = c2 /\ w1 = w2.
Proof.
  intros Hv1 Hv2 Hc1 Hc2 Hw1 Hw2 H.
  apply dotted_split in H as [-> H]; [|done..].
  apply dotted_split in H as [Hc H]; [|by apply token_ok_dotfree..].
  change ".tif" with ("." +:+ "tif") in H.
  apply dotted_split in H as [Hw _]; [|by apply token_ok_dotfree..].
  auto using token_ok_fmt_inj.
Qed.

Lemma fname_scenario_inj (vc1 vc2 : string) (p1 p2 m1 m2 s1 s2 c1 c2 w1 w2 : option string) :
  dotfree vc1 = true -> dotfree vc2 = true ->
  token_ok p1 = true -> token_ok p2 = true ->
  token_ok m1 = true -> token_ok m2 = true ->
  token_ok s1 = true -> token_ok s2 = true ->
  token_ok c1 = true -> token_ok c2 = true ->
  token_ok w1 = true -> token_ok w2 = true ->
  vc1 +:+ "." +:+ fmt p1 +:+ "." +:+ fmt m1 +:+ "." +:+ fmt s1 +:+ "."
      +:+ fmt c1 +:+ "." +:+ fmt w1 +:+ ".tif"
    = vc2 +:+ "." +:+ fmt p2 +:+ "." +:+ fmt m2 +:+ "." +:+ fmt s2 +:+ "."
      +:+ fmt c2 +:+ "." +:+ fmt w2 +:+ ".tif" ->
  vc1 = vc2 /\ p1 = p2 /\ m1 = m2 /\ s1 = s2 /\ c1 = c2 /\ w1 = w2.
Proof.
  intros Hv1 Hv2 Hp1 Hp2 Hm1 Hm2 Hs1 Hs2 Hc1 Hc2 Hw1 Hw2 H.
  apply dotted_split in H as [-> H]; [|done..].
  apply dotted_split in H as [Hp H]; [|by apply token_ok_dotfree..].
  apply dotted_split in H as [Hm H]; [|by apply token_ok_dotfree..].
  apply dotted_split in H as [Hs H]; [|by apply token_ok_dotfree..].
  apply dotted_split in H as [Hc H]; [|by apply token_ok_dotfree..].
  change ".tif" with ("." +:+ "tif") in H.
  apply dotted_split in H as [Hw _]; [|by apply token_ok_dotfree..].
  auto 10 using token_ok_fmt_inj.
Qed.

(** The URL past its base: the directory, then the file name.  With a
    dot-free variable code the first dot is the one after "GAEZ-V5". *)
Lemma url_tail_inj (vc1 vc2 rest1 rest2 : string) :
  dotfree vc1 = true -> dotfree vc2 = true ->
  https_base +:+ "/" +:+ vc1 +:+ "/" +:+ "GAEZ-V5." +:+ rest1
    = https_base +:+ "/" +:+ vc2 +:+ "/" +:+ "GAEZ-V5." +:+ rest2 ->
  rest1 = rest2.
Proof.
  intros Hv1 Hv2 H. apply (inj (String.append https_base)) in H.
  rewrite !append_cons, !append_nil in H. injection H as H.
  assert (Hsplit : forall v r, v +:+ String "/" (String "G" (String "A" (String "E"
      (String "Z" (String "-" (String "V" (String "5" (String "." r))))))))
      = (v +:+ "/GAEZ-V5") +:+ "." +:+ r).
  { intros v r. by rewrite append_assoc. }
  rewrite !Hsplit in H.
  apply dotted_split in H as [_ H]; [done | by rewrite dotfree_app, ?Hv1, ?Hv2..].
Qed.

Lemma Ok_inj {A} (a b : A) : Ok a = Ok b -> a = b.
Proof. by intros [= ->]. Qed.

(** C6 as stated fails: the resolver is not injective within scheme A.
    Two different (period, climate model) pairs whose dotted renderings
    agree resolve to one identifier. *)
Lemma C6_injectivity_counterexample :
  scheme_A "RES05-YCX" = true
  /\ (Some "a.b", Some "c") <> (Some "a", Some "b.c")
  /\ gaezv5_path "RES05-YCX" (Some "a.b") (Some "c") (Some "HIST") (Some "MAIZ") (Some "HILM") "https"
     = gaezv5_path "RES05-YCX" (Some "a") (Some "b.c") (Some "HIST") (Some "MAIZ") (Some "HILM") "https"
  /\ is_ok (gaezv5_path "RES05-YCX" (Some "a.b") (Some "c") (Some "HIST") (Some "MAIZ")
              (Some "HILM") "https") = true.
Proof. split; [|split; [|split]]; [by vm_compute | discriminate | by vm_compute..]. Qed.

(** C6 (amended): the Path Resolver is a function of its inputs.  A
    scheme-A family resolves to the base, the family, and the file name
    "GAEZ-V5.<family>.<period>.<model>.<scenario>.<crop>.<water>.tif"; a
    scheme-B family resolves to "GAEZ-V5.<family>.<crop>.<water>.tif",
    whatever the period, climate model and scenario are.  Within each
    scheme the identifier determines the tuple when the family and the
    tokens are given and hold no dot. *)
Theorem C6_path_resolver :
  (forall vc p m s c w, scheme_A vc = true ->
     gaezv5_path vc p m s c w "https"
     = Ok (https_base +:+ "/" +:+ vc +:+ "/GAEZ-V5." +:+ vc +:+ "." +:+ fmt p +:+ "."
             +:+ fmt m +:+ "." +:+ fmt s +:+ "." +:+ fmt c +:+ "." +:+ fmt w +:+ ".tif"))
  /\ (forall vc p m s c w, scheme_B vc = true ->
     gaezv5_path vc p m s c w "https"
     = Ok (https_base +:+ "/" +:+ vc +:+ "/GAEZ-V5." +:+ vc +:+ "." +:+ fmt c +:+ "."
             +:+ fmt w +:+ ".tif"))
  /\ (forall vc1 vc2 p1 p2 m1 m2 s1 s2 c1 c2 w1 w2,
     scheme_A vc1 = true -> scheme_A vc2 = true ->
     dotfree vc1 = true -> dotfree vc2 = true ->
     forallb token_ok [p1; m1; s1; c1; w1; p2; m2; s2; c2; w2] = true ->
     gaezv5_path vc1 p1 m1 s1 c1 w1 "https" = gaezv5_path vc2 p2 m2 s2 c2 w2 "https" ->
     (vc1, p1, m1, s1, c1, w1) = (vc2, p2, m2, s2, c2, w2))
  /\ (forall vc1 vc2 p1 p2 m1 m2 s1 s2 c1 c2 w1 w2,
     scheme_B vc1 = true -> scheme_B vc2 = true ->
     dotfree vc1 = true -> dotfree vc2 = true ->
     forallb token_ok [c1; w1; c2; w2] = true ->
     gaezv5_path vc1 p1 m1 s1 c1 w1 "https" = gaezv5_path vc2 p2 m2 s2 c2 w2 "https" ->
     (vc1, c1, w1) = (vc2, c2, w2)).
Proof.
  assert (HA : forall vc p m s c w, scheme_A vc = true ->
     gaezv5_path vc p m s c w "https"
     = Ok (https_base +:+ "/" +:+ vc +:+ "/" +:+ "GAEZ-V5." +:+ vc +:+ "." +:+ fmt p +:+ "."
             +:+ fmt m +:+ "." +:+ fmt s +:+ "." +:+ fmt c +:+ "." +:+ fmt w +:+ ".tif")).
  { intros vc p m s c w HA. rewrite (gaezv5_path_cases _ _ _ _ _ _ _ _ BASE_https).
    by rewrite HA. }
  assert (HB : forall vc p m s c w, scheme_B vc = true ->
     gaezv5_path vc p m s c w "https"
     = Ok (https_base +:+ "/" +:+ vc +:+ "/" +:+ "GAEZ-V5." +:+ vc +:+ "." +:+ fmt c +:+ "."
             +:+ fmt w +:+ ".tif")).
  { intros vc p m s c w HB. rewrite (gaezv5_path_cases _ _ _ _ _ _ _ _ BASE_https).
    by rewrite (scheme_B_not_A _ HB), HB. }
  split; [exact HA | split; [exact HB | split]].
  - intros vc1 vc2 p1 p2 m1 m2 s1 s2 c1 c2 w1 w2 H1 H2 Hv1 Hv2 Htok Heq.
    rewrite (HA _ _ _ _ _ _ H1), (HA _ _ _ _ _ _ H2) in Heq. apply Ok_inj in Heq.
    apply url_tail_inj in Heq; [|done..].
    simpl in Htok. repeat (apply andb_prop in Htok as [? Htok]).
    apply fname_scenario_inj in Heq; [|done..].
    destruct Heq as (-> & -> & -> & -> & -> & ->). done.
  - intros vc1 vc2 p1 p2 m1 m2 s1 s2 c1 c2 w1 w2 H1 H2 Hv1 Hv2 Htok Heq.
    rewrite (HB _ p1 m1 s1 _ _ H1), (HB _ p2 m2 s2 _ _ H2) in Heq. apply Ok_inj in Heq.
    apply url_tail_inj in Heq; [|done..].
    simpl in Htok. repeat (apply andb_prop in Htok as [? Htok]).
    apply fname_static_inj in Heq; [|done..].
    destruct Heq as (-> & -> & ->). done.
Qed.

(** The identifier of the harvested-area raster of maize under
    irrigation, as the specification's example has it. *)
Lemma C6_path_resolver_witness :
  scheme_B "RES06-HAR" = true
  /\ gaezv5_path "RES06-HAR" None None None (Some "MAIZ") (Some "WSI") "https"
     = Ok "https://storage.googleapis.com/fao-gismgr-gaez-v5-data/DATA/GAEZ-V5/MAPSET/RES06-HAR/GAEZ-V5.RES06-HAR.MAIZ.WSI.tif".
Proof.
  split; [reflexivity |].
  apply (proj1 (proj2 C6_path_resolver) "RES06-HAR" None None None (Some "MAIZ") (Some "WSI")).
  reflexivity.
Defined.

(** C7: a variable family that matches no known prefix makes the
    resolver raise its ValueError ("Unrecognized variable code family."),
    and every family that matches one resolves without error; under
    both storage schemes. *)
Theorem C7_unrecognized_family_raises (vc : string) (p m s c w : option string) :
  Forall (fun scheme =>
      (gaezv5_path vc p m s c w scheme
         = Raise (ValueError "Unrecognized variable code family.") <-> recognized vc = false)
      /\ is_ok (gaezv5_path vc p m s c w scheme) = recognized vc)
    ["https"; "gs"].
Proof.
  assert (H : forall scheme base, BASE !! scheme = Some base ->
    (gaezv5_path vc p m s c w scheme
       = Raise (ValueError "Unrecognized variable code family.") <-> recognized vc = false)
    /\ is_ok (gaezv5_path vc p m s c w scheme) = recognized vc).
  { intros scheme base Hb. rewrite (gaezv5_path_cases _ _ _ _ _ _ _ _ Hb).
    unfold recognized. destruct (scheme_A vc), (scheme_B vc); simpl; split; try done. }
  apply Forall_cons; split; [apply (H _ _ BASE_https) |].
  apply Forall_cons; split; [apply (H _ _ BASE_gs) | apply Forall_nil_2].
Qed.

(** ** The monad *)

Lemma bind_ok {A B} (a : A) (k : A -> M B) : bind (lift (Ok a)) k = k a.
Proof. unfold bind, lift. by destruct (k a). Qed.

Lemma bind_raise {A B} (e : exn) (k : A -> M B) : bind (lift (Raise e)) k = ([], Raise e).
Proof. reflexivity. Qed.

Lemma bind_ret {A B} (a : A) (k : A -> M B) : bind (ret a) k = k a.
Proof. apply bind_ok. Qed.

Lemma bind_log {A B} (log : list warning) (r : result A) (k : A -> M B) :
  bind (log, r) k = (log ++ (bind (lift r) k).1, (bind (lift r) k).2).
Proof.
  destruct r as [a|e]; simpl; [|by rewrite app_nil_r].
  by destruct (k a).
Qed.

(** ** Grid Aligner *)

Lemma grid_differs_false (a r : Raster) : grid_differs a r = false <-> grid a = grid r.
Proof.
  unfold grid_differs, grid. split.
  - intros H. apply orb_false_elim in H as [H H3]. apply orb_false_elim in H as [H1 H2].
    apply negb_false_iff, bool_decide_eq_true in H1, H2, H3. congruence.
  - intros [= H1 H2 H3]. by rewrite !bool_decide_eq_true_2.
Qed.

Lemma align_to_grid (resample : Raster -> Raster -> list cell) (r a : Raster) :
  grid (align_to resample r a) = grid r.
Proof.
  unfold align_to. destruct (grid_differs a r) eqn:Hd; [done |].
  by apply grid_differs_false.
Qed.

Lemma grid_astype (to : cell -> cell) (r : Raster) : grid (astype to r) = grid r.
Proof. reflexivity. Qed.

(** C8: a candidate raster whose grid (crs, affine transform, shape)
    equals the reference grid passes through the Grid Aligner unchanged,
    whatever the resampler would compute: it is not consulted. *)
Theorem C8_aligner_identity (resample : Raster -> Raster -> list cell)
    (reference candidate : Raster) :
  grid candidate = grid reference ->
  align_to resample reference candidate = candidate.
Proof.
  intros Hg. unfold align_to. by rewrite (proj2 (grid_differs_false _ _) Hg).
Qed.

(** ** Water regimes *)

Ltac table_lookup H :=
  repeat (rewrite lookup_insert in H; case_decide;
          [injection H as <-; subst; set_solver |]);
  by rewrite lookup_empty in H.

Lemma YR_WATER_TO_AREA_lookup (k v : string) :
  YR_WATER_TO_AREA !! k = Some v <->
  (k, v) ∈ [("HILM", "WSI"); ("LILM", "WSI"); ("HRLM", "WSR"); ("LRLM", "WSR")].
Proof.
  unfold YR_WATER_TO_AREA. split.
  - intros H. table_lookup H.
  - rewrite !elem_of_cons, elem_of_nil.
    intros [H|[H|[H|[H|[]]]]]; injection H as -> ->; by vm_compute.
Qed.

Lemma har_YR_WATER_TO_AREA_lookup (k v : string) :
  get_har_area.YR_WATER_TO_AREA !! k = Some v <->
  (k, v) ∈ [("HILM", "WSI"); ("HRLM", "WSR")].
Proof.
  unfold get_har_area.YR_WATER_TO_AREA. split.
  - intros H. table_lookup H.
  - rewrite !elem_of_cons, elem_of_nil.
    intros [H|[H|[]]]; injection H as -> ->; by vm_compute.
Qed.

(** ** The member loop of the Group Aggregator *)

Section GroupFacts.

Variable open_raster : string -> result Raster.
Variable resample : Raster -> Raster -> list cell.
Variable coords : Labelling.
Variables (group : string) (kcal_per_kg : cell) (water_code vcy : string).
Variables (period climate_model scenario : option string).

Local Abbreviation yield_path' := (yield_path water_code vcy period climate_model scenario).
Local Abbreviation load_members' :=
  (load_members open_raster resample group water_code vcy period climate_model scenario).
Local Abbreviation loaded' :=
  (loaded_members open_raster water_code vcy period climate_model scenario).
Local Abbreviation skipped' :=
  (skipped_members open_raster group water_code vcy period climate_model scenario).
Local Abbreviation gka :=
  (group_kcal_average open_raster resample coords group kcal_per_kg water_code vcy
     period climate_model scenario).

Lemma load_members_cons (c : string) (rest : list string) (st : loop_state) :
  load_members' (c :: rest) st
  = let* y_path := lift (yield_path' c) in
    let* st' := load_member open_raster resample group water_code c y_path st in
    load_members' rest st'.
Proof. reflexivity. Qed.

Lemma yield_path_recognized (c : string) :
  recognized vcy = true -> exists y_path, yield_path' c = Ok y_path.
Proof.
  intros Hr. unfold yield_path.
  rewrite (gaezv5_path_cases _ _ _ _ _ _ _ _ BASE_https).
  unfold recognized in Hr. destruct (scheme_A vcy); [by eexists |].
  destruct (scheme_B vcy); [by eexists | done].
Qed.

Lemma yield_path_unrecognized (c : string) :
  recognized vcy = false ->
  yield_path' c = Raise (ValueError "Unrecognized variable code family.").
Proof.
  intros Hr. unfold yield_path.
  rewrite (gaezv5_path_cases _ _ _ _ _ _ _ _ BASE_https).
  unfold recognized in Hr. by destruct (scheme_A vcy), (scheme_B vcy).
Qed.

Lemma after_members_nil (st : loop_state) : after_members resample st [] = st.
Proof. destruct st as [a [r|] l]; unfold after_members; simpl; by rewrite app_nil_r. Qed.

(** The loop never fails for a recognized yield family: it logs the
    members that do not open and keeps the others, cast to float64. *)
Lemma load_members_spec (crops : list string) (st : loop_state) :
  recognized vcy = true ->
  load_members' crops st
  = (skipped' crops, Ok (after_members resample st (loaded' crops))).
Proof.
  intros Hr. revert st. induction crops as [|c rest IH]; intros st.
  - simpl. by rewrite after_members_nil.
  - destruct (yield_path_recognized c Hr) as [y_path Hp].
    rewrite load_members_cons, Hp, bind_ok.
    unfold loaded_members, skipped_members. simpl omap. rewrite Hp.
    unfold load_member. destruct (open_raster y_path) as [yld|e].
    + rewrite bind_ret, IH. f_equal. f_equal.
      destruct st as [a [r|] l]; unfold after_members; simpl;
        by rewrite <- app_assoc.
    + change (let* _ := logging_warning (SkipCrop group c water_code y_path e) in ret st)
        with ([SkipCrop group c water_code y_path e], Ok st).
      rewrite bind_log, bind_ok, IH. done.
Qed.

(** An unrecognized yield family stops the loop at its first member:
    the resolver is called outside the [try]. *)
Lemma load_members_unrecognized (c : string) (rest : list string) (st : loop_state) :
  recognized vcy = false ->
  load_members' (c :: rest) st
  = ([], Raise (ValueError "Unrecognized variable code family.")).
Proof. intros Hr. by rewrite load_members_cons, (yield_path_unrecognized c Hr). Qed.

Lemma area_path_ok (area_water : string) :
  exists a_path, area_path group area_water = Ok a_path.
Proof.
  unfold area_path. rewrite (gaezv5_path_cases _ _ _ _ _ _ _ _ BASE_https).
  by eexists.
Qed.

(** [group_kcal_average], once the water code is known, the area has
    loaded and the member list is there. *)
Lemma group_kcal_average_spec (area_water a_path : string) (area : Raster)
    (crops : list string) :
  YR_WATER_TO_AREA !! water_code = Some area_water ->
  area_path group area_water = Ok a_path ->
  open_raster a_path = Ok area ->
  recognized vcy = true ->
  gka (Some crops)
  = (skipped' crops,
     Ok (group_output resample coords group kcal_per_kg area (loaded' crops))).
Proof.
  intros Hw Hp Ha Hr. unfold group_kcal_average, getitem.
  rewrite Hw, bind_ok, Hp, bind_ok, Ha, bind_ok. simpl iter. rewrite bind_ok.
  rewrite (load_members_spec _ _ Hr), bind_log.
  unfold after_members, group_output. simpl.
  destruct (loaded' crops) as [|yld ys]; simpl.
  - by rewrite app_nil_r.
  - by rewrite app_nil_r.
Qed.

End GroupFacts.

(** Closed statements over concrete rasters are settled by evaluation. *)
Ltac by_evaluation := apply (bool_decide_unpack _); vm_compute; exact I.
(** ** Floating-point cells *)

Lemma nan_to_zero_valid (x : cell) : is_nan x = false -> nan_to_zero x = x.
Proof. unfold nan_to_zero. by intros ->. Qed.

Lemma nan_to_zero_nan (x : cell) : is_nan x = true -> nan_to_zero x = zero.
Proof. unfold nan_to_zero. by intros ->. Qed.

Lemma f64_add_zero_r (x z : cell) :
  is_zero z = true -> cell_same (f64_add x z) x.
Proof.
  destruct z as [sz| | |]; try done. intros _.
  destruct x as [sx|sx| |sx mx ex]; [|by left..].
  destruct sx, sz; by (left + (right; done)).
Qed.

Lemma f64_add_same (a a' x : cell) :
  cell_same a a' -> cell_same (f64_add a x) (f64_add a' x).
Proof.
  intros [->|[Ha Ha']]; [by left |].
  destruct a as [s| | |], a' as [s'| | |]; try done.
  destruct x as [sx|sx| |sx mx ex]; [|by left..].
  right. by destruct s, s', sx.
Qed.

Lemma cell_same_refl (x : cell) : cell_same x x.
Proof. by left. Qed.

Lemma cell_same_trans (x y z : cell) : cell_same x y -> cell_same y z -> cell_same x z.
Proof.
  intros [->|[Hx Hy]] [->|[Hy' Hz]]; [by left | by right | by right | by right].
Qed.

Lemma foldl_add_same (l : list cell) (a a' : cell) :
  cell_same a a' -> cell_same (foldl f64_add a l) (foldl f64_add a' l).
Proof.
  revert a a'. induction l as [|x l IH]; intros a a' H; [done |].
  simpl. by apply IH, f64_add_same.
Qed.

Lemma nansum_app (l1 l2 : list cell) :
  nansum (l1 ++ l2) = foldl f64_add (nansum l1) (nan_to_zero <$> l2).
Proof. unfold nansum. by rewrite fmap_app, foldl_app. Qed.

Lemma nansum_skip (l1 l2 : list cell) (x : cell) :
  is_nan x = true \/ is_zero x = true ->
  cell_same (nansum (l1 ++ x :: l2)) (nansum (l1 ++ l2)).
Proof.
  intros Hx. rewrite !nansum_app. simpl. apply foldl_add_same, f64_add_zero_r.
  destruct Hx as [Hx|Hx]; [by rewrite nan_to_zero_nan | by destruct x].
Qed.

Lemma foldl_add_valid (l : list cell) (a a' : cell) :
  cell_same a a' ->
  cell_same (foldl f64_add a (nan_to_zero <$> l)) (foldl f64_add a' (valid l)).
Proof.
  revert a a'. induction l as [|x l IH]; intros a a' Ha; [done |].
  unfold valid. rewrite filter_cons, fmap_cons. simpl foldl.
  destruct (is_nan x) eqn:Hx.
  - rewrite decide_False by done. rewrite (nan_to_zero_nan _ Hx). apply IH.
    eapply cell_same_trans; [|exact Ha]. by apply f64_add_zero_r.
  - rewrite decide_True by done. rewrite (nan_to_zero_valid _ Hx). simpl.
    by apply IH, f64_add_same.
Qed.

(** The total is that of the valid entries alone. *)
Lemma nansum_valid (l : list cell) :
  cell_same (nansum l) (foldl f64_add zero (valid l)).
Proof. apply foldl_add_valid. by left. Qed.

Lemma nansum_all_nan (l : list cell) :
  Forall (fun x => is_nan x = true) l -> nansum l = zero.
Proof.
  unfold nansum. induction 1 as [|x l Hx _ IH]; [done |].
  rewrite fmap_cons. simpl. rewrite (nan_to_zero_nan _ Hx). exact IH.
Qed.

Lemma valid_all_nan (l : list cell) :
  Forall (fun x => is_nan x = true) l -> valid l = [].
Proof.
  induction 1 as [|x l Hx _ IH]; [done |].
  unfold valid. rewrite filter_cons. case_decide; [congruence | exact IH].
Qed.

Lemma nanmean_all_nan (l : list cell) :
  Forall (fun x => is_nan x = true) l -> nanmean l = NaN.
Proof.
  intros H. unfold nanmean, count_valid. by rewrite (nansum_all_nan _ H), (valid_all_nan _ H).
Qed.

Lemma f64_mul_nan_r (x : cell) : f64_mul x NaN = NaN.
Proof. by destruct x. Qed.

Lemma f64_mul_nan_l (x : cell) : f64_mul NaN x = NaN.
Proof. done. Qed.

Lemma float32_zero : float32 zero = zero.
Proof. done. Qed.

(** A float32 cell times [0.0]. *)
Lemma f32_mul_zero (x : cell) :
  f32_mul x (float32 zero) =
    match x with
    | S754_zero s | S754_finite s _ _ => S754_zero s
    | _ => NaN
    end.
Proof. destruct x as [[]|[]| |[] m e]; reflexivity. Qed.

(** Rounding never yields NaN. *)
Lemma shr_1_nonneg (mrs : shr_record) : (0 <= shr_m mrs)%Z -> (0 <= shr_m (shr_1 mrs))%Z.
Proof. destruct mrs as [[|[p|p|]|p] r s]; simpl; lia. Qed.

Lemma iter_pos_shr_1_nonneg (p : positive) (mrs : shr_record) :
  (0 <= shr_m mrs)%Z -> (0 <= shr_m (SpecFloat.iter_pos shr_1 p mrs))%Z.
Proof.
  revert mrs. induction p as [p IH|p IH|]; intros mrs H; simpl.
  - by apply IH, IH, shr_1_nonneg.
  - by apply IH, IH.
  - by apply shr_1_nonneg.
Qed.

Lemma shr_fexp_nonneg (prec emax m e : Z) (l : location) :
  (0 <= m)%Z -> (0 <= shr_m (shr_fexp prec emax m e l).1)%Z.
Proof.
  intros Hm. unfold shr_fexp, shr.
  assert (H0 : (0 <= shr_m (shr_record_of_loc m l))%Z).
  { by destruct l as [|[]]. }
  destruct (fexp prec emax (Zdigits2 m + e) - e)%Z; simpl; try done.
  by apply iter_pos_shr_1_nonneg.
Qed.

Lemma round_nearest_even_nonneg (m : Z) (l : location) :
  (0 <= m)%Z -> (0 <= round_nearest_even m l)%Z.
Proof. intros Hm. destruct l as [|[]]; simpl; try done; [destruct (Z.even m)|]; lia. Qed.

Lemma binary_round_aux_not_nan (prec emax : Z) (s : bool) (m e : Z) (l : location) :
  (0 <= m)%Z -> binary_round_aux prec emax s m e l <> S754_nan.
Proof.
  intros Hm. unfold binary_round_aux.
  pose proof (shr_fexp_nonneg prec emax m e l Hm) as H1.
  destruct (shr_fexp prec emax m e l) as [mrs' e'] eqn:E1. simpl in H1.
  pose proof (shr_fexp_nonneg prec emax
                (round_nearest_even (shr_m mrs') (loc_of_shr_record mrs')) e' loc_Exact
                (round_nearest_even_nonneg _ _ H1)) as H2.
  destruct (shr_fexp prec emax _ e' loc_Exact) as [mrs'' e''] eqn:E2. simpl in H2.
  destruct (shr_m mrs'') as [|p|p]; [done | by destruct (_ <=? _)%Z | lia].
Qed.

Lemma binary_normalize_not_nan (prec emax m e : Z) (s : bool) :
  binary_normalize prec emax m e s <> S754_nan.
Proof.
  destruct m as [|p|p]; simpl; [done | |]; unfold binary_round;
    destruct (shl_align _ _ _) as [mz ez]; by apply binary_round_aux_not_nan.
Qed.

Lemma f64_add_nan (x y : cell) :
  f64_add x y = NaN ->
  is_nan x = true \/ is_nan y = true \/ (is_inf x = true /\ is_inf y = true).
Proof.
  destruct x as [sx|sx| |sx mx ex], y as [sy|sy| |sy my ey]; simpl; intros H;
    try (by auto); try (by destruct sx, sy).
  exfalso. revert H. apply binary_normalize_not_nan.
Qed.

Lemma foldl_add_nan (l : list cell) (a : cell) :
  foldl f64_add a l = NaN ->
  is_nan a = true \/ Exists (fun x => is_nan x = true \/ is_inf x = true) l.
Proof.
  revert a. induction l as [|x l IH]; intros a H; [simpl in H; subst; by left |].
  simpl in H. destruct (IH _ H) as [Hn|He].
  - destruct (f64_add a x) eqn:E; try done.
    apply f64_add_nan in E as [E|[E|[_ E]]]; [by left | right..];
      apply Exists_cons_hd; auto.
  - right. by apply Exists_cons_tl.
Qed.

(** The total is NaN only where an entry is infinite. *)
Lemma nansum_nan (l : list cell) :
  nansum l = NaN -> Exists (fun x => is_inf x = true) l.
Proof.
  intros H. apply foldl_add_nan in H as [H|H]; [done |].
  apply Exists_exists in H as (x' & Hin & Hx').
  apply list_elem_of_fmap in Hin as (x & -> & Hin).
  apply Exists_exists. exists x. split; [done |].
  unfold nan_to_zero in Hx'. destruct x; simpl in *; by destruct Hx'.
Qed.

(** The cells of the fallback: the area times [0.0], in float32. *)
Lemma scale_zero_lookup (area : Raster) (k : nat) (x : cell) :
  values area !! k = Some x ->
  values (scale area zero) !! k = Some (f32_mul x zero).
Proof. intros Hk. simpl. by rewrite list_lookup_fmap, Hk. Qed.

Lemma f32_mul_zero_finite (x : cell) :
  is_finite x = true -> is_zero (f32_mul x zero) = true.
Proof. by destruct x as [[]|[]| |[] m e]. Qed.

Lemma f32_mul_zero_not_finite (x : cell) :
  is_finite x = false -> f32_mul x zero = NaN.
Proof. by destruct x as [[]|[]| |[] m e]. Qed.

(** The promotion to float64 leaves the cells of a fallback layer as
    they are. *)
Lemma float64_fallback_cell (x : cell) : float64 (f32_mul x zero) = f32_mul x zero.
Proof. by destruct x as [[]|[]| |[] m e]. Qed.

(** ** Indexes *)

Lemma index_union_same (a : list Qc) : index_union a a = a.
Proof. unfold index_union. by rewrite decide_True. Qed.

Lemma elem_of_index_union (a b : list Qc) (l : Qc) :
  l ∈ index_union a b <-> l ∈ a \/ l ∈ b.
Proof.
  unfold index_union. repeat case_decide; subst.
  - tauto.
  - rewrite elem_of_nil. tauto.
  - rewrite elem_of_nil. tauto.
  - rewrite merge_sort_Permutation, elem_of_app, list_elem_of_filter.
    destruct (decide (l ∈ a)); tauto.
Qed.

Lemma elem_of_join_union (first : list Qc) (others : list (list Qc)) (l : Qc) :
  l ∈ join_indexes index_union first others
  <-> l ∈ first \/ exists o, o ∈ others /\ l ∈ o.
Proof.
  unfold join_indexes. revert first. induction others as [|o others IH]; intros first; simpl.
  - split; [by left |]. intros [H|(o & Ho & _)]; [done | by apply elem_of_nil in Ho].
  - rewrite IH, elem_of_index_union. split.
    + intros [[H|H]|(o' & Ho' & H)]; [by left | right; exists o | right; exists o'];
        (split; [|done]); [apply list_elem_of_here | by apply list_elem_of_further].
    + intros [H|(o' & Ho' & H)]; [by left; left |].
      apply elem_of_cons in Ho' as [->|Ho']; [by left; right | right; by exists o'].
Qed.

Lemma join_union_same (first : list Qc) (others : list (list Qc)) :
  Forall (fun o => o = first) others -> join_indexes index_union first others = first.
Proof.
  unfold join_indexes. induction 1 as [|o others -> _ IH]; [done |].
  simpl. by rewrite index_union_same.
Qed.

Lemma elem_of_index_intersection (a b : list Qc) (l : Qc) :
  l ∈ index_intersection a b <-> l ∈ a /\ l ∈ b.
Proof.
  unfold index_intersection. case_decide; subst; [tauto |].
  rewrite list_elem_of_filter. tauto.
Qed.

Lemma filter_none {A} (P : A -> Prop) `{!forall x, Decision (P x)} (l : list A) :
  (forall x, x ∈ l -> ~ P x) -> filter P l = [].
Proof.
  induction l as [|x l IH]; intros Hall; [done |].
  rewrite filter_cons. case_decide as Hx.
  - destruct (Hall x); [apply list_elem_of_here | done].
  - apply IH. intros y Hy. apply Hall. by apply list_elem_of_further.
Qed.

Lemma filter_all {A} (P : A -> Prop) `{!forall x, Decision (P x)} (l : list A) :
  (forall x, x ∈ l -> P x) -> filter P l = l.
Proof.
  induction l as [|x l IH]; intros Hall; [done |].
  rewrite filter_cons. rewrite decide_True by (apply Hall, list_elem_of_here).
  f_equal. apply IH. intros y Hy. apply Hall. by apply list_elem_of_further.
Qed.

(** The labels of the first index are kept by the union, each as often
    as it occurs there. *)
Lemma filter_union_first (first acc b : list Qc) :
  filter (fun l => l ∈ first) acc ≡ₚ first ->
  filter (fun l => l ∈ first) (index_union acc b) ≡ₚ first.
Proof.
  intros Hacc. unfold index_union. repeat case_decide; subst; try done.
  - simpl in Hacc. apply Permutation_nil_l in Hacc. subst.
    rewrite filter_none; [done |]. intros x _ Hx. by apply elem_of_nil in Hx.
  - rewrite merge_sort_Permutation, filter_app.
    rewrite (filter_none _ (filter _ b)); [by rewrite app_nil_r |].
    intros x Hx Hfirst. apply list_elem_of_filter in Hx as [Hx _]. apply Hx.
    rewrite <- Hacc in Hfirst. by apply list_elem_of_filter in Hfirst as [_ ?].
Qed.

Lemma filter_join_union_first (first : list Qc) (others : list (list Qc)) :
  filter (fun l => l ∈ first) (join_indexes index_union first others) ≡ₚ first.
Proof.
  unfold join_indexes.
  assert (H : forall acc, filter (fun l => l ∈ first) acc ≡ₚ first ->
            filter (fun l => l ∈ first) (foldl index_union acc others) ≡ₚ first).
  { induction others as [|o others IH]; intros acc Hacc; [done |].
    simpl. by apply IH, filter_union_first. }
  apply H. by rewrite filter_all.
Qed.

(** Joining the union of some indexes with the first of them gives back
    the labels of the first. *)
Lemma intersection_join_union (first : list Qc) (others : list (list Qc)) :
  index_intersection (join_indexes index_union first others) first ≡ₚ first.
Proof.
  unfold index_intersection. case_decide as H; [by rewrite H |].
  apply filter_join_union_first.
Qed.

(** ** Positions of labels *)

Lemma get_loc_Some (index : list Qc) (l : Qc) (i : nat) :
  get_loc index l = Some i -> index !! i = Some l.
Proof.
  revert i. induction index as [|l' index IH]; intros i; [done |].
  simpl. case_decide as Hl; [by intros [= <-]; subst |].
  destruct (get_loc index l) as [i'|]; [|done]. simpl. intros [= <-]. by apply IH.
Qed.

Lemma get_loc_elem_of (index : list Qc) (l : Qc) :
  l ∈ index -> exists i, get_loc index l = Some i.
Proof.
  induction 1 as [l index|l l' index _ [i IH]]; simpl.
  - rewrite decide_True by done. by eexists.
  - case_decide; [by eexists |]. rewrite IH. by eexists.
Qed.

Lemma get_loc_None (index : list Qc) (l : Qc) : l ∉ index -> get_loc index l = None.
Proof.
  induction index as [|l' index IH]; intros H; [done |].
  apply not_elem_of_cons in H as [Hne H]. simpl.
  rewrite decide_False by done. by rewrite IH.
Qed.

Lemma length_get_indexer (index target : list Qc) :
  length (get_indexer index target) = length target.
Proof.
  unfold get_indexer. case_decide as H; [subst|]; by rewrite length_fmap, ?length_seq.
Qed.

(** Where the indexer sends the position of a label of the target. *)
Lemma get_indexer_lookup (index target : list Qc) (l : Qc) (i : nat) :
  get_loc target l = Some i ->
  get_indexer index target !! i = Some (get_loc index l).
Proof.
  intros Hi. pose proof (get_loc_Some _ _ _ Hi) as Hl.
  unfold get_indexer. case_decide as H; [subst|].
  - rewrite list_lookup_fmap, lookup_seq_lt by (by eapply lookup_lt_Some).
    simpl. by rewrite Hi.
  - by rewrite list_lookup_fmap, Hl.
Qed.

Lemma length_row {A B C} (f : A -> B -> C) (a : A) (lb : list B) :
  length (y ← lb; [f a y]) = length lb.
Proof. induction lb as [|b lb IH]; [done |]. rewrite bind_cons. simpl. by rewrite IH. Qed.

Lemma row_lookup {A B C} (f : A -> B -> C) (a : A) (lb : list B) (j : nat) (b : B) :
  lb !! j = Some b -> (y ← lb; [f a y]) !! j = Some (f a b).
Proof.
  revert j. induction lb as [|b' lb IH]; intros j Hb; [done |].
  rewrite bind_cons. destruct j as [|j]; simpl in *; [by injection Hb as -> |].
  by apply IH.
Qed.

Lemma product_lookup {A B C} (f : A -> B -> C) (la : list A) (lb : list B)
    (i j : nat) (a : A) (b : B) :
  la !! i = Some a -> lb !! j = Some b ->
  (x ← la; y ← lb; [f x y]) !! (i * length lb + j) = Some (f a b).
Proof.
  revert i. induction la as [|a' la IH]; intros i Ha Hb; [done |].
  rewrite bind_cons. destruct i as [|i]; simpl in Ha.
  - injection Ha as ->. simpl. rewrite lookup_app_l.
    + by apply row_lookup.
    + rewrite length_row. by eapply lookup_lt_Some.
  - rewrite lookup_app_r by (rewrite length_row; simpl; lia).
    rewrite length_row.
    replace (S i * length lb + j - length lb) with (i * length lb + j) by (simpl; lia).
    by apply IH.
Qed.


(** ** Cells by label *)

(** A re-indexed buffer holds, at the position of a pair of labels, the
    cell the array has at these labels. *)
Lemma reindex_sel (ys' xs' : list Qc) (d : DataArray) (y x : Qc) (i j : nat) :
  get_loc ys' y = Some i -> get_loc xs' x = Some j ->
  default NaN (reindex ys' xs' d !! (i * length xs' + j)) = sel d y x.
Proof.
  intros Hi Hj. unfold reindex, sel. case_decide as H.
  - destruct H as [Hy Hx]. rewrite Hy, Hx, Hi, Hj. unfold take_cell. by rewrite Hx.
  - rewrite <- (length_get_indexer (da_xs d) xs').
    erewrite product_lookup; [done | by apply get_indexer_lookup..].
Qed.


Lemma sel_position (d : DataArray) (y x : Qc) (i j : nat) :
  get_loc (da_ys d) y = Some i -> get_loc (da_xs d) x = Some j ->
  sel d y x = default NaN (da_values d !! (i * length (da_xs d) + j)).
Proof. intros Hi Hj. unfold sel. by rewrite Hi, Hj. Qed.

Lemma sel_absent (d : DataArray) (y x : Qc) :
  y ∉ da_ys d \/ x ∉ da_xs d -> sel d y x = NaN.
Proof.
  intros [H|H]; unfold sel; rewrite (get_loc_None _ _ H); [done |].
  unfold take_cell. by destruct (get_loc (da_ys d) y).
Qed.

Lemma column_reindex_sel (ys' xs' : list Qc) (layers : list DataArray) (y x : Qc)
    (i j : nat) :
  get_loc ys' y = Some i -> get_loc xs' x = Some j ->
  column (i * length xs' + j) (reindex ys' xs' <$> layers) = (fun d => sel d y x) <$> layers.
Proof.
  intros Hi Hj. unfold column. rewrite <- list_fmap_compose.
  apply list_fmap_ext. intros _ d _. simpl. by apply reindex_sel.
Qed.

Lemma position_bound (ys' xs' : list Qc) (y x : Qc) (i j : nat) :
  get_loc ys' y = Some i -> get_loc xs' x = Some j ->
  i * length xs' + j < length ys' * length xs'.
Proof.
  intros Hi Hj. apply get_loc_Some, lookup_lt_Some in Hi.
  apply get_loc_Some, lookup_lt_Some in Hj. nia.
Qed.

(** The reduction of a stack of layers, cell by cell: at a pair of
    labels of the result, what [f] makes of the cells the layers have at
    these labels. *)
Lemma sel_reduce_layers (f : list cell -> cell) (first : DataArray)
    (others : list DataArray) (y x : Qc) :
  y ∈ da_ys (reduce_layers f first others) ->
  x ∈ da_xs (reduce_layers f first others) ->
  sel (reduce_layers f first others) y x = f ((fun d => sel d y x) <$> first :: others).
Proof.
  intros Hy Hx.
  destruct (get_loc_elem_of _ _ Hy) as [i Hi], (get_loc_elem_of _ _ Hx) as [j Hj].
  rewrite (sel_position _ _ _ _ _ Hi Hj).
  unfold reduce_layers in *. cbn [da_ys da_xs da_values] in *.
  rewrite <- (column_reindex_sel _ _ (first :: others) y x i j Hi Hj).
  rewrite list_lookup_fmap, lookup_seq_lt by (by apply position_bound with y x).
  done.
Qed.

Lemma sel_da_mul (a b : DataArray) (y x : Qc) :
  y ∈ da_ys (da_mul a b) -> x ∈ da_xs (da_mul a b) ->
  sel (da_mul a b) y x = f64_mul (sel a y x) (sel b y x).
Proof.
  intros Hy Hx.
  destruct (get_loc_elem_of _ _ Hy) as [i Hi], (get_loc_elem_of _ _ Hx) as [j Hj].
  rewrite (sel_position _ _ _ _ _ Hi Hj).
  unfold da_mul in *. cbn [da_ys da_xs da_values] in *.
  rewrite <- (reindex_sel _ _ a y x i j Hi Hj), <- (reindex_sel _ _ b y x i j Hi Hj).
  rewrite lookup_zip_with.
  destruct (reindex _ _ a !! _) as [va|]; simpl; [|done].
  destruct (reindex _ _ b !! _) as [vb|]; simpl; [done |]. by rewrite f64_mul_nan_r.
Qed.

Lemma sel_da_scale (d : DataArray) (k : cell) (y x : Qc) :
  sel (da_scale d k) y x = f64_mul (sel d y x) k.
Proof.
  unfold sel, take_cell. simpl.
  destruct (get_loc (da_ys d) y) as [i|]; [|done].
  destruct (get_loc (da_xs d) x) as [j|]; [|done].
  rewrite list_lookup_fmap. by destruct (da_values d !! _).
Qed.

Lemma sel_da_set_name (d : DataArray) (n : string) (y x : Qc) :
  sel (da_set_name d n) y x = sel d y x.
Proof. reflexivity. Qed.

Lemma sel_labelled_astype (coords : Labelling) (to : cell -> cell) (r : Raster) (y x : Qc) :
  to NaN = NaN ->
  sel (labelled coords (astype to r)) y x = to (sel (labelled coords r) y x).
Proof.
  intros Hto. unfold sel, take_cell. simpl.
  destruct (get_loc _ y) as [i|]; [|done].
  destruct (get_loc _ x) as [j|]; [|done].
  rewrite list_lookup_fmap. by destruct (values r !! _).
Qed.

Lemma da_grid_labelled (coords : Labelling) (r : Raster) :
  da_grid (labelled coords r) = grid r.
Proof.
  unfold da_grid, da_shape, grid. simpl. rewrite !length_fmap, !length_seq.
  by destruct (shape r).
Qed.


(** Rasters on one grid carry the same labels. *)
Lemma labelled_same_grid (coords : Labelling) (r r' : Raster) :
  grid r = grid r' ->
  da_ys (labelled coords r) = da_ys (labelled coords r')
  /\ da_xs (labelled coords r) = da_xs (labelled coords r').
Proof. intros [= _ Ht Hs]. simpl. by rewrite Ht, Hs. Qed.

(** The labels of a reduction are those of its layers. *)
Lemma reduce_layers_labels (f : list cell -> cell) (first : DataArray)
    (others : list DataArray) :
  (forall y, y ∈ da_ys (reduce_layers f first others)
     <-> exists d, d ∈ first :: others /\ y ∈ da_ys d)
  /\ (forall x, x ∈ da_xs (reduce_layers f first others)
     <-> exists d, d ∈ first :: others /\ x ∈ da_xs d).
Proof.
  assert (Hlab : forall (proj : DataArray -> list Qc) l,
            l ∈ join_indexes index_union (proj first) (proj <$> others)
            <-> exists d, d ∈ first :: others /\ l ∈ proj d).
  { intros proj l. rewrite elem_of_join_union. split.
    - intros [H|(o & Ho & H)]; [exists first; split; [apply list_elem_of_here | done] |].
      apply list_elem_of_fmap in Ho as (d & -> & Hd). exists d.
      split; [by apply list_elem_of_further | done].
    - intros (d & Hd & H). apply elem_of_cons in Hd as [->|Hd]; [by left |].
      right. exists (proj d). split; [by apply list_elem_of_fmap_2 | done]. }
  split; [apply (Hlab da_ys) | apply (Hlab da_xs)].
Qed.

Lemma da_wf_reduce_layers (f : list cell -> cell) (first : DataArray)
    (others : list DataArray) : da_wf (reduce_layers f first others).
Proof. unfold da_wf, reduce_layers. simpl. by rewrite length_fmap, length_seq. Qed.

Lemma Forall2_fmap_same {A B} (R : B -> B -> Prop) (f g : A -> B) (l : list A) :
  (forall x, x ∈ l -> R (f x) (g x)) -> Forall2 R (f <$> l) (g <$> l).
Proof.
  induction l as [|x l IH]; intros H; [constructor |].
  rewrite !fmap_cons. constructor; [apply H, list_elem_of_here |].
  apply IH. intros y Hy. apply H. by apply list_elem_of_further.
Qed.

(** Layers that carry one and the same labels are stacked as they are,
    and reduced position by position. *)
Lemma concat_reduce_same_labels (f : list cell -> cell) (layers : list DataArray)
    (ys' xs' : list Qc) :
  layers <> [] ->
  Forall (fun d => da_ys d = ys' /\ da_xs d = xs') layers ->
  exists out,
    concat_reduce f layers = Ok out
    /\ da_ys out = ys' /\ da_xs out = xs'
    /\ da_values out
       = (fun k => f (column k (da_values <$> layers))) <$> seq 0 (length ys' * length xs').
Proof.
  intros Hne Hall. destruct layers as [|first others]; [done |]. clear Hne.
  pose proof (Forall_inv Hall) as [Hy Hx]. pose proof (Forall_inv_tail Hall) as Hrest.
  assert (Hjy : join_indexes index_union (da_ys first) (da_ys <$> others) = ys').
  { rewrite join_union_same; [done |]. apply Forall_fmap.
    eapply Forall_impl; [exact Hrest |]. intros d [Hd _]. simpl. congruence. }
  assert (Hjx : join_indexes index_union (da_xs first) (da_xs <$> others) = xs').
  { rewrite join_union_same; [done |]. apply Forall_fmap.
    eapply Forall_impl; [exact Hrest |]. intros d [_ Hd]. simpl. congruence. }
  eexists. split; [reflexivity |]. unfold reduce_layers. cbn [da_ys da_xs da_values].
  rewrite Hjy, Hjx. split; [done |]. split; [done |].
  assert (Heq : reindex ys' xs' <$> first :: others = da_values <$> first :: others).
  { apply Forall_fmap_ext. eapply Forall_impl; [exact Hall |].
    intros d Hd. unfold reindex. by rewrite decide_True. }
  by rewrite Heq.
Qed.

(** ** Cross-Group Reducer *)

(** C1 as stated fails: where every group is masked the reducer yields
    0, not NaN. *)
Lemma C1_all_nan_counterexample :
  Forall (fun d => da_values d !! 0 = Some NaN) [Scenario.layer_masked; Scenario.layer_50]
  /\ concat_reduce nansum [Scenario.layer_masked; Scenario.layer_50]
     = Ok (Scenario.layer_of Scenario.five_arcmin 2 2 [0; 51; 51; 51]%Z).
Proof. split; [by repeat constructor | by_evaluation]. Qed.

(** C1 (amended): the Cross-Group Reducer returns an array over all the
    coordinates of its group layers, and none else.  At each pair of
    coordinates the cell is the float64 sum, in the order of the groups,
    of what the groups hold there, a NaN cell and a missing cell
    counting as 0; this is the sum of the valid contributions alone.  A
    cell at which every group is NaN or missing is 0, and the sum is NaN
    only where a contribution is infinite. *)
Theorem C1_reducer_sums_valid_cells (first : DataArray) (others : list DataArray) :
  exists out,
    concat_reduce nansum (first :: others) = Ok out
    /\ (forall y, y ∈ da_ys out <-> exists d, d ∈ first :: others /\ y ∈ da_ys d)
    /\ (forall x, x ∈ da_xs out <-> exists d, d ∈ first :: others /\ x ∈ da_xs d)
    /\ (forall d y x, y ∉ da_ys d \/ x ∉ da_xs d -> sel d y x = NaN)
    /\ forall y x, y ∈ da_ys out -> x ∈ da_xs out ->
         sel out y x = nansum ((fun d => sel d y x) <$> first :: others)
         /\ cell_same (sel out y x)
              (foldl f64_add zero (valid ((fun d => sel d y x) <$> first :: others)))
         /\ (Forall (fun d => sel d y x = NaN) (first :: others) -> sel out y x = zero)
         /\ (sel out y x = NaN ->
             Exists (fun d => is_inf (sel d y x) = true) (first :: others)).
Proof.
  exists (reduce_layers nansum first others). split; [done |].
  destruct (reduce_layers_labels nansum first others) as [Hys Hxs].
  split; [exact Hys |]. split; [exact Hxs |].
  split; [apply sel_absent |].
  intros y x Hy Hx. rewrite (sel_reduce_layers _ _ _ _ _ Hy Hx).
  split; [done |]. split; [apply nansum_valid |]. split.
  - intros Hnan. apply nansum_all_nan. apply Forall_fmap.
    eapply Forall_impl; [exact Hnan |]. intros d Hd. simpl. by rewrite Hd.
  - intros Hsum. apply nansum_nan in Hsum. by apply Exists_fmap in Hsum.
Qed.

(** The specification's scenario: one group is 100 everywhere, the other
    is masked at the first cell and 50 elsewhere. *)
Lemma C1_reducer_sums_valid_cells_witness :
  exists out,
    concat_reduce nansum [Scenario.layer_100; Scenario.layer_50] = Ok out
    /\ forall y x, y ∈ da_ys out -> x ∈ da_xs out ->
         sel out y x
         = nansum [sel Scenario.layer_100 y x; sel Scenario.layer_50 y x].
Proof.
  destruct (C1_reducer_sums_valid_cells Scenario.layer_100 [Scenario.layer_50])
    as (out & Hout & _ & _ & _ & Hcell).
  exists out. split; [exact Hout |]. intros y x Hy Hx.
  exact (proj1 (Hcell y x Hy Hx)).
Defined.

Example reducer_scenario :
  concat_reduce nansum [Scenario.layer_100; Scenario.layer_50]
  = Ok (Scenario.layer_of Scenario.five_arcmin 2 2 [100; 150; 150; 150]%Z).
Proof. by_evaluation. Qed.

(** Two groups on grids that share one column: the total has the three
    columns of both, and only the shared one holds the sum of two
    cells. *)
Example reducer_union_scenario :
  concat_reduce nansum [Scenario.layer_of Scenario.five_arcmin 2 2 [2; 2; 2; 2]%Z;
                        Scenario.layer_east]
  = Ok (mkDataArray Scenario.wgs84 Scenario.five_arcmin
          (da_ys Scenario.layer_east)
          (da_xs Scenario.layer_100 ++ drop 1 (da_xs Scenario.layer_east))
          (Scenario.num64 <$> [2; 17; 15; 2; 17; 15]%Z) None).
Proof. by_evaluation. Qed.

(** The reducer of the calorie path and that of the area path are this
    reduction over the layers collected. *)
Lemma sum_groups_kcal_reduces (open_raster : string -> result Raster)
    (resample : Raster -> Raster -> list cell) (coords : Labelling)
    (crop_mapping : gmap string (list string))
    (water_code vcy : string) (period climate_model scenario : option string)
    (calorie_mapping : list (string * cell)) (log : list warning)
    (layers : list DataArray) :
  collect_group_layers open_raster resample coords crop_mapping water_code vcy period
    climate_model scenario calorie_mapping [] = (log, Ok layers) ->
  sum_groups_kcal open_raster resample coords crop_mapping water_code vcy period
    climate_model scenario calorie_mapping
  = (log, match concat_reduce nansum layers with
          | Ok total =>
            Ok (da_set_name total
                  ("cal_yld_" +:+ vcy +:+ "_" +:+ fmt period +:+ "_" +:+ fmt climate_model
                     +:+ "_" +:+ fmt scenario +:+ "_" +:+ water_code))
          | Raise e => Raise e
          end).
Proof.
  intros Hc. unfold sum_groups_kcal. rewrite Hc, bind_log, bind_ok.
  destruct (concat_reduce nansum layers) as [r|e].
  - rewrite bind_ok. simpl. by rewrite app_nil_r.
  - rewrite bind_raise. simpl. by rewrite app_nil_r.
Qed.

Lemma sum_groups_har_area_reduces (open_raster : string -> result Raster)
    (resample : Raster -> Raster -> list cell) (coords : Labelling)
    (groups : list string)
    (water_code area_water : string) (log : list warning) (l : Raster) (ls : list Raster) :
  get_har_area.YR_WATER_TO_AREA !! water_code = Some area_water ->
  get_har_area.load_areas open_raster resample water_code area_water groups None []
    = (log, Ok (l :: ls)) ->
  get_har_area.sum_groups_har_area open_raster resample coords groups water_code
  = (log, match concat_reduce nansum (labelled coords <$> l :: ls) with
          | Ok total => Ok (da_set_name total ("har_area_" +:+ water_code))
          | Raise e => Raise e
          end).
Proof.
  intros Hw Hl. unfold get_har_area.sum_groups_har_area, getitem.
  rewrite Hw, bind_ok, Hl, bind_log, bind_ok. simpl. by rewrite app_nil_r.
Qed.

(** ** Grid Aligner, at a concrete raster *)

Lemma C8_aligner_identity_witness :
  align_to Scenario.resample_first
    (Scenario.const_raster Scenario.five_arcmin 2 2 (Scenario.num 100))
    (Scenario.const_raster Scenario.five_arcmin 2 2 (Scenario.num 50))
  = Scenario.const_raster Scenario.five_arcmin 2 2 (Scenario.num 50).
Proof. apply C8_aligner_identity. reflexivity. Defined.
(** ** Water regimes *)

(** C9 as stated fails for the table of the harvested-area script: a
    low-input code is not in it, and the script raises KeyError. *)
Lemma C9_area_script_counterexample :
  getitem get_har_area.YR_WATER_TO_AREA "LILM" = Raise (KeyError "LILM")
  /\ get_har_area.sum_groups_har_area Scenario.store_BAN Scenario.resample_first
       Scenario.centres ["BAN"] "LILM" = ([], Raise (KeyError "LILM")).
Proof. split; by_evaluation. Qed.

(** C9 (amended): the translation of the Group Aggregator is defined on
    exactly the four yield water codes, HILM and LILM going to the
    irrigated area code WSI and HRLM and LRLM to the rainfed code WSR.
    The table of the harvested-area script holds only the two high-input
    codes, with the same images; any other code is a KeyError. *)
Theorem C9_water_to_area_tables (k : string) :
  (forall v, YR_WATER_TO_AREA !! k = Some v <->
     (k, v) ∈ [("HILM", "WSI"); ("LILM", "WSI"); ("HRLM", "WSR"); ("LRLM", "WSR")])
  /\ is_ok (getitem YR_WATER_TO_AREA k) = bool_decide (k ∈ ["HILM"; "LILM"; "HRLM"; "LRLM"])
  /\ (forall v, get_har_area.YR_WATER_TO_AREA !! k = Some v <->
     (k, v) ∈ [("HILM", "WSI"); ("HRLM", "WSR")])
  /\ is_ok (getitem get_har_area.YR_WATER_TO_AREA k) = bool_decide (k ∈ ["HILM"; "HRLM"]).
Proof.
  split; [intros v; apply YR_WATER_TO_AREA_lookup |].
  split.
  { unfold getitem. destruct (YR_WATER_TO_AREA !! k) as [v|] eqn:Hk; simpl.
    - apply YR_WATER_TO_AREA_lookup in Hk. symmetry. apply bool_decide_eq_true.
      exact (list_elem_of_fmap_2 fst _ _ Hk).
    - symmetry. apply bool_decide_eq_false. intros Hin.
      assert (exists v, YR_WATER_TO_AREA !! k = Some v) as [v Hv]; [|congruence].
      rewrite !elem_of_cons, elem_of_nil in Hin.
      destruct Hin as [->|[->|[->|[->|[]]]]]; by eexists. }
  split; [intros v; apply har_YR_WATER_TO_AREA_lookup |].
  unfold getitem. destruct (get_har_area.YR_WATER_TO_AREA !! k) as [v|] eqn:Hk; simpl.
  - apply har_YR_WATER_TO_AREA_lookup in Hk. symmetry. apply bool_decide_eq_true.
    exact (list_elem_of_fmap_2 fst _ _ Hk).
  - symmetry. apply bool_decide_eq_false. intros Hin.
    assert (exists v, get_har_area.YR_WATER_TO_AREA !! k = Some v) as [v Hv]; [|congruence].
    rewrite !elem_of_cons, elem_of_nil in Hin.
    destruct Hin as [->|[->|[]]]; by eexists.
Qed.

(** ** Group Aggregator *)

Section GroupClaims.

Variable open_raster : string -> result Raster.
Variable resample : Raster -> Raster -> list cell.
Variable coords : Labelling.
Variables (group : string) (kcal_per_kg : cell) (water_code vcy : string).
Variables (period climate_model scenario : option string).

Local Abbreviation yield_path' := (yield_path water_code vcy period climate_model scenario).
Local Abbreviation opens' := (opens open_raster water_code vcy period climate_model scenario).
Local Abbreviation load_members' :=
  (load_members open_raster resample group water_code vcy period climate_model scenario).
Local Abbreviation loaded' :=
  (loaded_members open_raster water_code vcy period climate_model scenario).
Local Abbreviation skipped' :=
  (skipped_members open_raster group water_code vcy period climate_model scenario).
Local Abbreviation gka :=
  (group_kcal_average open_raster resample coords group kcal_per_kg water_code vcy
     period climate_model scenario).
Local Abbreviation labelled' := (labelled coords).

Lemma loaded_members_cons (c : string) (crops : list string) :
  loaded' (c :: crops) =
    match yield_path' c with
    | Ok y_path =>
      match open_raster y_path with
      | Ok yld => yld :: loaded' crops
      | Raise _ => loaded' crops
      end
    | Raise _ => loaded' crops
    end.
Proof.
  unfold loaded_members. simpl omap.
  destruct (yield_path' c) as [y_path|]; [|done]. by destruct (open_raster y_path).
Qed.

Lemma skipped_members_cons (c : string) (crops : list string) :
  skipped' (c :: crops) =
    match yield_path' c with
    | Ok y_path =>
      match open_raster y_path with
      | Ok _ => skipped' crops
      | Raise e => SkipCrop group c water_code y_path e :: skipped' crops
      end
    | Raise _ => skipped' crops
    end.
Proof.
  unfold skipped_members. simpl omap.
  destruct (yield_path' c) as [y_path|]; [|done]. by destruct (open_raster y_path).
Qed.

Lemma loaded_members_none (crops : list string) :
  Forall (fun c => opens' c = false) crops -> loaded' crops = [].
Proof.
  induction 1 as [|c crops Hc _ IH]; [done |].
  rewrite loaded_members_cons. unfold opens in Hc.
  destruct (yield_path' c) as [y_path|]; [|done].
  by destruct (open_raster y_path).
Qed.

(** Leaving out the members that do not open changes neither the
    rasters loaded nor their order, and leaves nothing to warn about. *)
Lemma loaded_members_filter (crops : list string) :
  loaded' (filter (fun c => opens' c = true) crops) = loaded' crops.
Proof.
  induction crops as [|c crops IH]; [done |].
  rewrite filter_cons. case_decide as Hc.
  - rewrite !loaded_members_cons, IH. done.
  - rewrite loaded_members_cons, IH. unfold opens in Hc.
    destruct (yield_path' c) as [y_path|]; [|done].
    by destruct (open_raster y_path).
Qed.

Lemma skipped_members_filter (crops : list string) :
  skipped' (filter (fun c => opens' c = true) crops) = [].
Proof.
  induction crops as [|c crops IH]; [done |].
  rewrite filter_cons. case_decide as Hc; [|done].
  rewrite skipped_members_cons, IH. unfold opens in Hc.
  destruct (yield_path' c) as [y_path|]; [|done].
  by destruct (open_raster y_path).
Qed.

Lemma skipped_members_length (crops : list string) :
  recognized vcy = true ->
  length (skipped' crops) = length (filter (fun c => opens' c = false) crops).
Proof.
  intros Hr. induction crops as [|c crops IH]; [done |].
  rewrite skipped_members_cons, filter_cons.
  destruct (yield_path_recognized water_code vcy period climate_model scenario c Hr)
    as [y_path Hp].
  case_decide as Hc; unfold opens in Hc; rewrite Hp in Hc |- *;
    destruct (open_raster y_path); simpl in *; try done; by rewrite IH.
Qed.

Lemma skipped_members_sound (crops : list string) :
  Forall (fun w => exists c y_path e,
            w = SkipCrop group c water_code y_path e /\ c ∈ crops
            /\ yield_path' c = Ok y_path /\ open_raster y_path = Raise e)
         (skipped' crops).
Proof.
  induction crops as [|c crops IH]; [constructor |].
  assert (IH' : Forall (fun w => exists c0 y_path e,
            w = SkipCrop group c0 water_code y_path e /\ c0 ∈ c :: crops
            /\ yield_path' c0 = Ok y_path /\ open_raster y_path = Raise e)
         (skipped' crops)).
  { eapply Forall_impl; [exact IH |]. intros w (c0 & y & e & -> & Hin & Hy & He).
    exists c0, y, e. split; [done |]. split; [by apply list_elem_of_further | done]. }
  rewrite skipped_members_cons.
  destruct (yield_path' c) as [y_path|] eqn:Hp; [|exact IH'].
  destruct (open_raster y_path) as [|e] eqn:He; [exact IH' |].
  constructor; [|exact IH'].
  exists c, y_path, e. split; [done |]. split; [by apply list_elem_of_here | done].
Qed.

(** C3 (amended): when no member yield raster opens, the Group
    Aggregator returns normally, for every kcal_per_kg, the harvested-area
    raster times 0.0: an array on the grid and of the shape of the
    harvested-area raster whose cells are zeros where the area holds a
    finite number, and NaN where the area is masked or infinite. *)
Theorem C3_no_member_fallback (area_water a_path : string) (area : Raster)
    (crops : list string) :
  YR_WATER_TO_AREA !! water_code = Some area_water ->
  area_path group area_water = Ok a_path ->
  open_raster a_path = Ok area ->
  recognized vcy = true ->
  Forall (fun c => opens' c = false) crops ->
  exists out,
    gka (Some crops) = (skipped' crops, Ok out)
    /\ out = labelled' (scale area zero)
    /\ da_grid out = grid area
    /\ length (da_values out) = length (values area)
    /\ forall k x, values area !! k = Some x ->
         da_values out !! k = Some (f32_mul x zero)
         /\ (is_finite x = true -> is_zero (f32_mul x zero) = true)
         /\ (is_finite x = false -> f32_mul x zero = NaN).
Proof.
  intros Hw Hp Ha Hr Hnone. exists (labelled' (scale area zero)).
  rewrite (group_kcal_average_spec _ _ _ _ _ _ _ _ _ _ _ _ _ _ Hw Hp Ha Hr).
  rewrite (loaded_members_none _ Hnone). simpl group_output.
  split; [done |]. split; [done |]. split; [by rewrite da_grid_labelled |].
  split; [simpl; by rewrite length_fmap |].
  intros k x Hk. split; [by apply scale_zero_lookup |].
  split; [apply f32_mul_zero_finite | apply f32_mul_zero_not_finite].
Qed.

(** C5: a member whose yield raster fails to open is absorbed: one
    warning is logged for it, it is left out, and the group computation
    goes on to the raster it would return without that member.  A
    failure to open the harvested-area raster is not caught: its
    exception leaves [group_kcal_average]. *)
Theorem C5_member_failure_absorbed_area_failure_raised (area_water a_path : string)
    (crops : list string) :
  YR_WATER_TO_AREA !! water_code = Some area_water ->
  area_path group area_water = Ok a_path ->
  (forall e, open_raster a_path = Raise e -> gka (Some crops) = ([], Raise e))
  /\ (forall area, open_raster a_path = Ok area -> recognized vcy = true ->
      exists out,
        gka (Some crops) = (skipped' crops, Ok out)
        /\ gka (Some (filter (fun c => opens' c = true) crops)) = ([], Ok out)
        /\ length (skipped' crops) = length (filter (fun c => opens' c = false) crops)
        /\ Forall (fun w => exists c y_path e,
                     w = SkipCrop group c water_code y_path e /\ c ∈ crops
                     /\ yield_path' c = Ok y_path /\ open_raster y_path = Raise e)
                  (skipped' crops)).
Proof.
  intros Hw Hp. split.
  - intros e He. unfold group_kcal_average, getitem.
    by rewrite Hw, bind_ok, Hp, bind_ok, He, bind_raise.
  - intros area Ha Hr. eexists. split.
    { apply (group_kcal_average_spec _ _ _ _ _ _ _ _ _ _ _ _ _ _ Hw Hp Ha Hr). }
    split.
    { rewrite (group_kcal_average_spec _ _ _ _ _ _ _ _ _ _ _ _ _ _ Hw Hp Ha Hr).
      by rewrite skipped_members_filter, loaded_members_filter. }
    split; [by apply skipped_members_length | apply skipped_members_sound].
Qed.

(** C2 (amended): when at least one member yield raster opens, the loop
    leaves the harvested-area raster on the grid of the first member that
    opened, and keeps the member rasters as they were loaded, cast to
    float64.  So the rasters entering the mean and the product are on one
    grid exactly when every later member that opened is already on the
    grid of the first. *)
Theorem C2_area_on_first_member_grid (area : Raster) (crops : list string)
    (yld : Raster) (ys : list Raster) :
  recognized vcy = true ->
  loaded' crops = yld :: ys ->
  exists st,
    load_members' crops (mkLoop area None []) = (skipped' crops, Ok st)
    /\ ref st = Some yld
    /\ yld_ha_layers st = astype float64 <$> yld :: ys
    /\ areaG st = align_to resample yld area
    /\ grid (areaG st) = grid yld
    /\ (Forall (fun r => grid r = grid yld) (areaG st :: yld_ha_layers st)
        <-> Forall (fun r => grid r = grid yld) ys).
Proof.
  intros Hr Hl. eexists. split; [by apply load_members_spec |].
  rewrite Hl. unfold after_members. simpl.
  split; [done |]. split; [done |]. split; [done |].
  split; [apply align_to_grid |].
  rewrite !Forall_cons, Forall_fmap. split; [tauto |].
  intros Hys. split; [apply align_to_grid |]. split; [done | exact Hys].
Qed.


(** The labels of the group output are those of the first member
    loaded. *)
Lemma group_output_labels (area yld : Raster) (ys : list Raster) :
  da_ys (group_output resample coords group kcal_per_kg area (yld :: ys))
    ≡ₚ da_ys (labelled' yld)
  /\ da_xs (group_output resample coords group kcal_per_kg area (yld :: ys))
    ≡ₚ da_xs (labelled' yld).
Proof.
  destruct (labelled_same_grid coords (astype float64 (align_to resample yld area)) yld)
    as [Hy Hx].
  { rewrite grid_astype. apply align_to_grid. }
  unfold group_output, da_set_name, da_scale, da_mul, reduce_layers.
  cbn [da_ys da_xs]. rewrite Hy, Hx.
  split; apply intersection_join_union.
Qed.

(** The cell of the group output at a pair of its labels. *)
Lemma sel_group_output (area yld : Raster) (ys : list Raster) (y x : Qc) :
  y ∈ da_ys (labelled' yld) -> x ∈ da_xs (labelled' yld) ->
  sel (group_output resample coords group kcal_per_kg area (yld :: ys)) y x
  = f64_mul
      (f64_mul (nanmean ((fun m => float64 (sel (labelled' m) y x)) <$> yld :: ys))
         (float64 (sel (labelled' (align_to resample yld area)) y x)))
      kcal_per_kg.
Proof.
  intros Hy Hx. pose proof (group_output_labels area yld ys) as [Hys Hxs].
  unfold group_output in *. rewrite sel_da_set_name, sel_da_scale.
  cbn [da_set_name da_scale da_ys da_xs] in Hys, Hxs.
  rewrite sel_da_mul by (by rewrite ?Hys, ?Hxs).
  rewrite sel_labelled_astype by done. f_equal. f_equal.
  rewrite sel_reduce_layers.
  - f_equal. rewrite !fmap_cons, <- !list_fmap_compose.
    f_equal; [by apply sel_labelled_astype |].
    apply list_fmap_ext. intros _ m _. simpl. by apply sel_labelled_astype.
  - apply elem_of_join_union. left. exact Hy.
  - apply elem_of_join_union. left. exact Hx.
Qed.

(** C4: when at least one member yield raster opens, the output of the
    Group Aggregator has the coordinates of the first member that
    opened, and at each of them the cell is the unweighted mean of the
    members' valid yields there (a member that is NaN there, or whose
    grid lacks the coordinates, is left out), times the harvested area
    aligned to that grid, times kcal_per_kg, all in float64.  The mean is
    the total of the valid yields over their number, and the aligned area
    is the area itself when it is already on that grid.  With one member
    of yield 2, area 100 and factor 39.4 the cell is 7880. *)
Theorem C4_group_output_cell (area_water a_path : string) (area : Raster)
    (crops : list string) (yld : Raster) (ys : list Raster) :
  YR_WATER_TO_AREA !! water_code = Some area_water ->
  area_path group area_water = Ok a_path ->
  open_raster a_path = Ok area ->
  recognized vcy = true ->
  loaded' crops = yld :: ys ->
  exists out,
    gka (Some crops) = (skipped' crops, Ok out)
    /\ (forall y, y ∈ da_ys out <-> y ∈ da_ys (labelled' yld))
    /\ (forall x, x ∈ da_xs out <-> x ∈ da_xs (labelled' yld))
    /\ forall y x, y ∈ da_ys out -> x ∈ da_xs out ->
         let yields := (fun m => float64 (sel (labelled' m) y x)) <$> yld :: ys in
         let a := float64 (sel (labelled' (align_to resample yld area)) y x) in
         sel out y x = f64_mul (f64_mul (nanmean yields) a) kcal_per_kg
         /\ nanmean yields = f64_div (nansum yields) (f64_of_nat (length (valid yields)))
         /\ cell_same (nansum yields) (foldl f64_add zero (valid yields))
         /\ (grid area = grid yld -> a = float64 (sel (labelled' area) y x))
         /\ (ys = [] -> sel (labelled' yld) y x = Scenario.num 2 ->
             sel (labelled' (align_to resample yld area)) y x = Scenario.num 100 ->
             kcal_per_kg = DriverScenario.kcal_BAN ->
             sel out y x = Scenario.num64 7880).
Proof.
  intros Hw Hp Ha Hr Hl.
  pose proof (group_output_labels area yld ys) as [Hys Hxs].
  eexists. split.
  { rewrite (group_kcal_average_spec _ _ _ _ _ _ _ _ _ _ _ _ _ _ Hw Hp Ha Hr), Hl. done. }
  split; [intros y; by rewrite Hys |]. split; [intros x; by rewrite Hxs |].
  intros y x Hy Hx yields a. rewrite Hys in Hy. rewrite Hxs in Hx.
  rewrite (sel_group_output _ _ _ _ _ Hy Hx). fold yields. fold a.
  split; [done |]. split; [done |]. split; [apply nansum_valid |]. split.
  - intros Hsame. unfold a, align_to.
    by rewrite (proj2 (grid_differs_false _ _) Hsame).
  - intros -> Hv Harea ->. unfold yields, a. rewrite fmap_cons, Hv, Harea.
    by vm_compute.
Qed.

End GroupClaims.
(** ** Calorie reducer *)

Section ReducerClaims.

Variable open_raster : string -> result Raster.
Variable resample : Raster -> Raster -> list cell.
Variable coords : Labelling.
Variable crop_mapping : gmap string (list string).
Variables (water_code vcy : string) (period climate_model scenario : option string).

Local Abbreviation gka' group kcal :=
  (group_kcal_average open_raster resample coords group kcal water_code vcy
     period climate_model scenario).
Local Abbreviation collect' :=
  (collect_group_layers open_raster resample coords crop_mapping water_code vcy
     period climate_model scenario).
Local Abbreviation sum_groups_kcal' :=
  (sum_groups_kcal open_raster resample coords crop_mapping water_code vcy
     period climate_model scenario).

(** Without a member list the Group Aggregator never returns. *)
Lemma group_kcal_average_None (group : string) (kcal : cell) :
  gka' group kcal None = ([], Raise (absent_members_error open_raster group water_code)).
Proof.
  unfold group_kcal_average, absent_members_error.
  destruct (getitem YR_WATER_TO_AREA water_code) as [area_water|e]; [|done].
  rewrite bind_ok.
  destruct (area_path group area_water) as [a_path|e]; [|done].
  rewrite bind_ok.
  destruct (open_raster a_path) as [area|e]; [|done].
  by rewrite bind_ok.
Qed.

Lemma collect_group_layers_cons (group : string) (kcal : cell)
    (rest : list (string * cell)) (acc : list DataArray) :
  collect' ((group, kcal) :: rest) acc
  = let* layer := gka' group kcal (crop_mapping !! group) in
    collect' rest (acc ++ [layer]).
Proof. reflexivity. Qed.

Lemma collect_group_layers_raises (items : list (string * cell)) (group : string)
    (kcal : cell) (acc : list DataArray) :
  (group, kcal) ∈ items -> crop_mapping !! group = None ->
  exists log e, collect' items acc = (log, Raise e).
Proof.
  intros Hin Hnone. revert acc.
  induction items as [|[g k] rest IH]; intros acc; [by apply elem_of_nil in Hin |].
  rewrite collect_group_layers_cons.
  apply elem_of_cons in Hin as [[= <- <-]|Hin].
  - rewrite Hnone, group_kcal_average_None. by eexists _, _.
  - destruct (gka' g k (crop_mapping !! g)) as [log [layer|e]].
    + rewrite bind_log, bind_ok.
      destruct (IH Hin (acc ++ [layer])) as (log' & e & ->). by eexists _, _.
    + by eexists _, _.
Qed.

Lemma collect_group_layers_app (pre rest : list (string * cell))
    (acc layers : list DataArray) (log : list warning) :
  collect' pre acc = (log, Ok layers) ->
  collect' (pre ++ rest) acc
  = (log ++ (collect' rest layers).1, (collect' rest layers).2).
Proof.
  revert acc log. induction pre as [|[g k] pre IH]; intros acc log.
  - intros [= <- <-]. simpl. by destruct (collect' rest acc).
  - rewrite <- app_comm_cons, !collect_group_layers_cons.
    destruct (gka' g k (crop_mapping !! g)) as [log1 [layer|e]]; [|done].
    rewrite !bind_log, !bind_ok.
    destruct (collect' pre (acc ++ [layer])) as [log2 r2] eqn:Hpre.
    intros [= <- ->]. rewrite (IH _ _ Hpre). simpl. by rewrite app_assoc.
Qed.

(** C10: when a group of the calorie mapping has no entry in the
    crop-group mapping, [sum_groups_kcal] ends in an exception, whatever
    the store holds.  If the groups before it were aggregated, the
    exception is raised while that group is processed: its member list is
    [None], and once its harvested area has loaded the loop over the
    members raises TypeError.  The group is not skipped and no degraded
    raster is returned. *)
Theorem C10_group_without_members_raises (calorie_mapping : list (string * cell))
    (group : string) (kcal : cell) :
  (group, kcal) ∈ calorie_mapping ->
  crop_mapping !! group = None ->
  (exists log e, sum_groups_kcal' calorie_mapping = (log, Raise e))
  /\ (forall pre post log layers,
        calorie_mapping = pre ++ (group, kcal) :: post ->
        collect' pre [] = (log, Ok layers) ->
        sum_groups_kcal' calorie_mapping
        = (log, Raise (absent_members_error open_raster group water_code)))
  /\ (forall area_water a_path area,
        YR_WATER_TO_AREA !! water_code = Some area_water ->
        area_path group area_water = Ok a_path ->
        open_raster a_path = Ok area ->
        absent_members_error open_raster group water_code
        = TypeError "'NoneType' object is not iterable").
Proof.
  intros Hin Hnone. split; [|split].
  - destruct (collect_group_layers_raises _ _ _ [] Hin Hnone) as (log & e & Hc).
    exists log, e. unfold sum_groups_kcal. by rewrite Hc.
  - intros pre post log layers -> Hpre. unfold sum_groups_kcal.
    rewrite (collect_group_layers_app _ _ _ _ _ Hpre).
    rewrite collect_group_layers_cons, Hnone, group_kcal_average_None.
    simpl. by rewrite app_nil_r.
  - intros area_water a_path area Hw Hp Ha. unfold absent_members_error, getitem.
    by rewrite Hw, Hp, Ha.
Qed.

End ReducerClaims.

(** ** The scenarios of the specification, evaluated *)

Section Scenarios.

Import Scenario DriverScenario.

Local Abbreviation area_BAN := (const_raster five_arcmin 2 2 (num 100)).
Local Abbreviation yield_BANA := (const_raster five_arcmin 2 2 (num 2)).
Local Abbreviation yield_PLNT := (const_raster shifted 2 2 (num 4)).

(** The labels of the first row and the first column of the 5
    arc-minute grid. *)
Local Abbreviation y0 := (row_label centres five_arcmin 0).
Local Abbreviation x0 := (col_label centres five_arcmin 0).

(** C2 as stated fails: two members open on different grids, and the
    second enters the mean on its own grid. *)
Lemma C2_member_grids_counterexample :
  load_members store_two_grids resample_first "BAN" "HILM" "RES05-YCX"
    (Some "HP0120") (Some "AGERA5") (Some "HIST") ["BANA"; "PLNT"]
    (mkLoop area_BAN None [])
  = ([], Ok (mkLoop area_BAN (Some yield_BANA)
               [astype float64 yield_BANA; astype float64 yield_PLNT]))
  /\ grid (astype float64 yield_PLNT) <> grid (astype float64 yield_BANA).
Proof. split; by_evaluation. Qed.

Lemma C2_area_on_first_member_grid_witness :
  exists st,
    load_members store_two_grids resample_first "BAN" "HILM" "RES05-YCX"
      (Some "HP0120") (Some "AGERA5") (Some "HIST") ["BANA"; "PLNT"]
      (mkLoop area_BAN None [])
    = (skipped_members store_two_grids "BAN" "HILM" "RES05-YCX"
         (Some "HP0120") (Some "AGERA5") (Some "HIST") ["BANA"; "PLNT"], Ok st)
    /\ grid (areaG st) = grid yield_BANA.
Proof.
  destruct (C2_area_on_first_member_grid store_two_grids resample_first "BAN" "HILM"
              "RES05-YCX" (Some "HP0120") (Some "AGERA5") (Some "HIST") area_BAN
              ["BANA"; "PLNT"] yield_BANA [yield_PLNT])
    as (st & Hst & _ & _ & _ & Hgrid & _).
  - reflexivity.
  - vm_compute. reflexivity.
  - exists st. split; [exact Hst | exact Hgrid].
Defined.

(** C3 as stated fails: no member opens and the harvested area is
    masked at its first cell, and so is the array returned. *)
Lemma C3_masked_area_counterexample :
  Forall (fun c => opens store_masked_area "HILM" "RES05-YCX"
                     (Some "HP0120") (Some "AGERA5") (Some "HIST") c = false)
         ["BANA"; "PLNT"]
  /\ (group_kcal_average store_masked_area resample_first centres "BAN" kcal_BAN "HILM"
        "RES05-YCX" (Some "HP0120") (Some "AGERA5") (Some "HIST")
        (Some ["BANA"; "PLNT"])).2
     = Ok (labelled centres (raster_of five_arcmin 2 2 [NaN; zero; zero; zero])).
Proof. split; [by repeat constructor | by_evaluation]. Qed.

(** An area cell that overflowed to infinity when cast to float32 is
    NaN in the fallback as well. *)
Example fallback_infinite_area :
  (group_kcal_average store_inf_area resample_first centres "BAN" kcal_BAN "HILM"
     "RES05-YCX" (Some "HP0120") (Some "AGERA5") (Some "HIST")
     (Some ["BANA"; "PLNT"])).2
  = Ok (labelled centres (raster_of five_arcmin 2 2 [NaN; zero; zero; zero])).
Proof. by_evaluation. Qed.

Lemma C3_no_member_fallback_witness :
  exists out,
    group_kcal_average store_masked_area resample_first centres "BAN" kcal_BAN "HILM"
      "RES05-YCX" (Some "HP0120") (Some "AGERA5") (Some "HIST") (Some ["BANA"; "PLNT"])
    = (skipped_members store_masked_area "BAN" "HILM" "RES05-YCX"
         (Some "HP0120") (Some "AGERA5") (Some "HIST") ["BANA"; "PLNT"], Ok out)
    /\ da_grid out = grid (raster_of five_arcmin 2 2 [NaN; num 100; num 100; num 100]).
Proof.
  destruct (C3_no_member_fallback store_masked_area resample_first centres "BAN" kcal_BAN
              "HILM" "RES05-YCX" (Some "HP0120") (Some "AGERA5") (Some "HIST")
              "WSI" (area_url "BAN")
              (raster_of five_arcmin 2 2 [NaN; num 100; num 100; num 100])
              ["BANA"; "PLNT"])
    as (out & Hout & _ & Hgrid & _).
  - vm_compute. reflexivity.
  - vm_compute. reflexivity.
  - vm_compute. reflexivity.
  - reflexivity.
  - repeat constructor.
  - exists out. split; [exact Hout | exact Hgrid].
Defined.

(** The end-to-end scenario of the specification: group "BAN" with
    members "BANA" and "PLNT", the latter missing. *)
Lemma C4_group_output_cell_witness :
  exists out,
    group_kcal_average store_BAN resample_first centres "BAN" kcal_BAN "HILM"
      "RES05-YCX" (Some "HP0120") (Some "AGERA5") (Some "HIST") (Some ["BANA"; "PLNT"])
    = (skipped_members store_BAN "BAN" "HILM" "RES05-YCX"
         (Some "HP0120") (Some "AGERA5") (Some "HIST") ["BANA"; "PLNT"], Ok out)
    /\ sel out y0 x0 = num64 7880.
Proof.
  destruct (C4_group_output_cell store_BAN resample_first centres "BAN" kcal_BAN "HILM"
              "RES05-YCX" (Some "HP0120") (Some "AGERA5") (Some "HIST")
              "WSI" (area_url "BAN") area_BAN ["BANA"; "PLNT"] yield_BANA [])
    as (out & Hout & Hys & Hxs & Hcell).
  - vm_compute. reflexivity.
  - vm_compute. reflexivity.
  - vm_compute. reflexivity.
  - reflexivity.
  - vm_compute. reflexivity.
  - exists out. split; [exact Hout |].
    destruct (Hcell y0 x0) as (_ & _ & _ & _ & H7880).
    + apply Hys. apply (bool_decide_unpack _). vm_compute. exact I.
    + apply Hxs. apply (bool_decide_unpack _). vm_compute. exact I.
    + apply H7880; [reflexivity | | | reflexivity];
        apply (bool_decide_unpack _); vm_compute; exact I.
Defined.

Example group_scenario :
  (group_kcal_average store_BAN resample_first centres "BAN" kcal_BAN "HILM"
     "RES05-YCX" (Some "HP0120") (Some "AGERA5") (Some "HIST") (Some ["BANA"; "PLNT"])).2
  = Ok (da_set_name (layer_of five_arcmin 2 2 [7880; 7880; 7880; 7880]%Z) "kcal_BAN")
  /\ length (group_kcal_average store_BAN resample_first centres "BAN" kcal_BAN "HILM"
               "RES05-YCX" (Some "HP0120") (Some "AGERA5") (Some "HIST")
               (Some ["BANA"; "PLNT"])).1 = 1.
Proof. split; by_evaluation. Qed.

(** Both members open, "PLNT" one pixel to the east of "BANA": the
    output is on the grid of "BANA"; its first column has the yield of
    "BANA" alone, its second the mean of both. *)
Example group_overlap_scenario :
  (group_kcal_average store_overlap resample_first centres "BAN" kcal_BAN "HILM"
     "RES05-YCX" (Some "HP0120") (Some "AGERA5") (Some "HIST") (Some ["BANA"; "PLNT"])).2
  = Ok (da_set_name (layer_of five_arcmin 2 2 [7880; 11820; 7880; 11820]%Z) "kcal_BAN").
Proof. by_evaluation. Qed.

(** With an empty store the failure to open the harvested area leaves
    the function; in the "BAN" scenario the missing "PLNT" is absorbed and
    the result is that of "BANA" alone. *)
Lemma C5_member_failure_absorbed_area_failure_raised_witness :
  group_kcal_average store_empty resample_first centres "BAN" kcal_BAN "HILM"
    "RES05-YCX" (Some "HP0120") (Some "AGERA5") (Some "HIST") (Some ["BANA"; "PLNT"])
  = ([], Raise (RasterioIOError (area_url "BAN")))
  /\ exists out,
       (group_kcal_average store_BAN resample_first centres "BAN" kcal_BAN "HILM"
          "RES05-YCX" (Some "HP0120") (Some "AGERA5") (Some "HIST")
          (Some ["BANA"; "PLNT"])).2 = Ok out
       /\ group_kcal_average store_BAN resample_first centres "BAN" kcal_BAN "HILM"
            "RES05-YCX" (Some "HP0120") (Some "AGERA5") (Some "HIST") (Some ["BANA"])
          = ([], Ok out).
Proof.
  split.
  - apply (C5_member_failure_absorbed_area_failure_raised store_empty resample_first
             centres "BAN" kcal_BAN "HILM" "RES05-YCX" (Some "HP0120") (Some "AGERA5")
             (Some "HIST") "WSI" (area_url "BAN") ["BANA"; "PLNT"]).
    + vm_compute. reflexivity.
    + vm_compute. reflexivity.
    + vm_compute. reflexivity.
  - destruct (C5_member_failure_absorbed_area_failure_raised store_BAN resample_first
                centres "BAN" kcal_BAN "HILM" "RES05-YCX" (Some "HP0120") (Some "AGERA5")
                (Some "HIST") "WSI" (area_url "BAN") ["BANA"; "PLNT"]) as [_ Habsorb].
    + vm_compute. reflexivity.
    + vm_compute. reflexivity.
    + destruct (Habsorb area_BAN) as (out & Hall & Hkept & _).
      * vm_compute. reflexivity.
      * reflexivity.
      * exists out. split; [by rewrite Hall | exact Hkept].
Defined.

(** A calorie mapping that names group "BAN" while the crop-group mapping
    is empty: the harvested area of "BAN" loads, then the loop over its
    absent member list raises. *)
Lemma C10_group_without_members_raises_witness :
  sum_groups_kcal store_BAN resample_first centres ∅ "HILM" "RES05-YCX"
    (Some "HP0120") (Some "AGERA5") (Some "HIST") [("BAN", kcal_BAN)]
  = ([], Raise (TypeError "'NoneType' object is not iterable")).
Proof.
  destruct (C10_group_without_members_raises store_BAN resample_first centres ∅ "HILM"
              "RES05-YCX" (Some "HP0120") (Some "AGERA5") (Some "HIST")
              [("BAN", kcal_BAN)] "BAN" kcal_BAN) as (_ & Hraise & Herr).
  - apply list_elem_of_here.
  - reflexivity.
  - rewrite (Hraise [] [] [] []); [| reflexivity | reflexivity].
    rewrite (Herr "WSI" (area_url "BAN") area_BAN); [reflexivity | | |];
      vm_compute; reflexivity.
Defined.

End Scenarios.
(** * Further properties of the code *)

(** ** Path Resolver *)

Lemma BASE_other (scheme : string) :
  scheme <> "https" -> scheme <> "gs" -> BASE !! scheme = None.
Proof.
  intros H1 H2. unfold BASE.
  rewrite lookup_insert_ne by done. rewrite lookup_insert_ne by done.
  apply lookup_empty.
Qed.

(** X1: The storage scheme is looked up before the family is examined: a
    scheme other than "https" and "gs" is a KeyError on that scheme, for
    recognized and unrecognized families alike. *)
Theorem gaezv5_path_unknown_scheme (vc : string) (p m s c w : option string)
    (scheme : string) :
  scheme <> "https" -> scheme <> "gs" ->
  gaezv5_path vc p m s c w scheme = Raise (KeyError scheme).
Proof. intros H1 H2. unfold gaezv5_path. by rewrite (BASE_other _ H1 H2). Qed.

Lemma gaezv5_path_unknown_scheme_witness :
  gaezv5_path "RES99-XYZ" None None None None None "s3" = Raise (KeyError "s3").
Proof. apply gaezv5_path_unknown_scheme; discriminate. Defined.

(** X2: Under "https" and under "gs" a tuple resolves to the same object:
    the two URLs are the two bases followed by one and the same path,
    and an unrecognized family fails alike under both. *)
Theorem gaezv5_path_schemes_agree (vc : string) (p m s c w : option string) :
  match gaezv5_path vc p m s c w "https", gaezv5_path vc p m s c w "gs" with
  | Ok u, Ok v => exists path, u = https_base +:+ path /\ v = gs_base +:+ path
  | Raise e, Raise e' => e = e'
  | _, _ => False
  end.
Proof.
  rewrite (gaezv5_path_cases _ _ _ _ _ _ _ _ BASE_https).
  rewrite (gaezv5_path_cases _ _ _ _ _ _ _ _ BASE_gs).
  destruct (scheme_A vc); [by eexists |].
  destruct (scheme_B vc); [by eexists | done].
Qed.

(** X3: The resolver does not check that a token is given: an absent token
    is written into the identifier as the text "None", so the tuple
    resolves as if the caller had passed that text. *)
Theorem gaezv5_path_absent_token_is_None_text (vc : string) (p m s c w : option string)
    (scheme : string) :
  gaezv5_path vc p m s c w scheme
  = gaezv5_path vc (Some (fmt p)) (Some (fmt m)) (Some (fmt s)) (Some (fmt c))
      (Some (fmt w)) scheme
  /\ is_ok (gaezv5_path vc p m s c w scheme)
     = is_ok (gaezv5_path vc None None None None None scheme).
Proof.
  split; [reflexivity |]. unfold gaezv5_path.
  destruct (BASE !! scheme); [|done].
  by repeat (destruct (startswith vc _); [done |]).
Qed.

Lemma scheme_A_prefix (vc : string) :
  scheme_A vc = true ->
  exists d t, vc = "RES0" +:+ String d t /\ d <> "6"%char.
Proof.
  unfold scheme_A, startswith. simpl. rewrite orb_false_r.
  intros H. repeat (apply orb_prop in H as [H|H]);
    apply prefix_app in H as [t ->]; eexists _, t; (split; [reflexivity | discriminate]).
Qed.

(** X4: An identifier of scheme A is never an identifier of scheme B,
    whatever the tokens hold: the family heads the path. *)
Theorem gaezv5_path_schemes_disjoint (vc1 vc2 : string)
    (p1 m1 s1 c1 w1 p2 m2 s2 c2 w2 : option string) :
  scheme_A vc1 = true -> scheme_B vc2 = true ->
  gaezv5_path vc1 p1 m1 s1 c1 w1 "https" <> gaezv5_path vc2 p2 m2 s2 c2 w2 "https".
Proof.
  intros HA HB.
  rewrite !(gaezv5_path_cases _ _ _ _ _ _ _ _ BASE_https).
  rewrite HA, (scheme_B_not_A _ HB), HB.
  destruct (scheme_A_prefix _ HA) as (d & t & -> & Hd).
  unfold scheme_B, startswith in HB. simpl in HB. rewrite orb_false_r in HB.
  apply prefix_app in HB as [t' ->].
  intros Heq. apply Ok_inj in Heq. apply (inj (String.append https_base)) in Heq.
  rewrite !append_cons, !append_nil in Heq. injection Heq as Heq _. by destruct Hd.
Qed.

Lemma gaezv5_path_schemes_disjoint_witness :
  gaezv5_path "RES05-YCX" (Some "HP0120") (Some "AGERA5") (Some "HIST") (Some "MAIZ")
    (Some "HILM") "https"
  <> gaezv5_path "RES06-HAR" None None None (Some "MAIZ") (Some "WSI") "https".
Proof. apply gaezv5_path_schemes_disjoint; reflexivity. Defined.


(** ** Group Aggregator *)

Section GroupExtras.

Variable open_raster : string -> result Raster.
Variable resample : Raster -> Raster -> list cell.
Variable coords : Labelling.
Variables (group : string) (kcal_per_kg : cell) (water_code vcy : string).
Variables (period climate_model scenario : option string).

Local Abbreviation loaded' :=
  (loaded_members open_raster water_code vcy period climate_model scenario).
Local Abbreviation skipped' :=
  (skipped_members open_raster group water_code vcy period climate_model scenario).
Local Abbreviation gka :=
  (group_kcal_average open_raster resample coords group kcal_per_kg water_code vcy
     period climate_model scenario).
Local Abbreviation labelled' := (labelled coords).

(** X5: A water code outside the table stops the Group Aggregator at once
    with a KeyError: nothing is loaded and nothing is logged, whatever
    the member list is. *)
Theorem group_kcal_average_unknown_water (crops : option (list string)) :
  YR_WATER_TO_AREA !! water_code = None ->
  gka crops = ([], Raise (KeyError water_code)).
Proof. intros Hw. unfold group_kcal_average, getitem. by rewrite Hw. Qed.

(** X6: The yield path is resolved outside the [try]: with an unrecognized
    yield family the first member makes the Group Aggregator raise the
    resolver's ValueError, and no warning absorbs it.  Only an empty
    member list escapes this, and yields the fallback. *)
Theorem group_kcal_average_unrecognized_family (area_water a_path : string)
    (area : Raster) (c : string) (rest : list string) :
  YR_WATER_TO_AREA !! water_code = Some area_water ->
  area_path group area_water = Ok a_path ->
  open_raster a_path = Ok area ->
  recognized vcy = false ->
  gka (Some (c :: rest)) = ([], Raise (ValueError "Unrecognized variable code family."))
  /\ gka (Some []) = ([], Ok (labelled' (scale area zero))).
Proof.
  intros Hw Hp Ha Hr.
  split; unfold group_kcal_average, getitem;
    rewrite Hw, bind_ok, Hp, bind_ok, Ha, bind_ok; simpl iter; rewrite bind_ok.
  - by rewrite (load_members_unrecognized _ _ _ _ _ _ _ _ _ _ _ Hr).
  - reflexivity.
Qed.


(** X8: Where the result is NaN.  A cell of the result is NaN wherever no
    loaded member has a valid yield, or the aligned harvested area is
    NaN, or kcal_per_kg is NaN; so a calorie factor that is not a number
    blanks the whole array.  These are not the only cells: an infinite
    area over a zero mean yield is NaN as well. *)
Theorem group_kcal_average_nan_cells (area_water a_path : string) (area : Raster)
    (crops : list string) (yld : Raster) (ys : list Raster) :
  YR_WATER_TO_AREA !! water_code = Some area_water ->
  area_path group area_water = Ok a_path ->
  open_raster a_path = Ok area ->
  recognized vcy = true ->
  loaded' crops = yld :: ys ->
  exists out,
    gka (Some crops) = (skipped' crops, Ok out)
    /\ forall y x, y ∈ da_ys out -> x ∈ da_xs out ->
         let yields := (fun m => sel (labelled' m) y x) <$> yld :: ys in
         let a := sel (labelled' (align_to resample yld area)) y x in
         (Forall (fun v => is_nan v = true) yields \/ is_nan a = true
          \/ is_nan kcal_per_kg = true -> sel out y x = NaN)
         /\ (is_zero (nanmean (float64 <$> yields)) = true -> is_inf a = true ->
             sel out y x = NaN).
Proof.
  intros Hw Hp Ha Hr Hl.
  pose proof (group_output_labels resample coords group kcal_per_kg area yld ys)
    as [Hys Hxs].
  eexists. split.
  { rewrite (group_kcal_average_spec _ _ _ _ _ _ _ _ _ _ _ _ _ _ Hw Hp Ha Hr), Hl. done. }
  intros y x Hy Hx yields a. rewrite Hys in Hy. rewrite Hxs in Hx.
  rewrite (sel_group_output _ _ _ _ _ _ _ _ _ Hy Hx).
  replace ((fun m => float64 (sel (labelled' m) y x)) <$> yld :: ys)
    with (float64 <$> yields) by (unfold yields; by rewrite <- list_fmap_compose).
  fold a. split.
  - intros [H|[H|H]].
    + rewrite nanmean_all_nan; [done |]. apply Forall_fmap.
      eapply Forall_impl; [exact H |]. intros v Hv. simpl. by destruct v.
    + destruct a; try done. simpl. by rewrite f64_mul_nan_r.
    + destruct kcal_per_kg; try done. by rewrite f64_mul_nan_r.
  - intros Hz Hinf. destruct (nanmean _); try done. by destruct a.
Qed.

End GroupExtras.

(** ** Calorie reducer *)

Lemma column_app (k : nat) (l1 l2 : list (list cell)) :
  column k (l1 ++ l2) = column k l1 ++ column k l2.
Proof. unfold column. by rewrite fmap_app. Qed.

(** X10: A group that fell back to "area times 0" adds nothing: on one grid,
    the total with such a layer in the stack has the cells of the total
    without it (a zero comparing equal to a zero, whatever its sign). *)
Theorem reducer_ignores_fallback_layer (coords : Labelling) (g : Grid) (area : Raster)
    (before after : list DataArray) :
  on_grid g area ->
  Forall (da_on_grid coords g) (before ++ after) ->
  before ++ after <> [] ->
  exists with_fallback without,
    result_cells (concat_reduce nansum
                    (before ++ labelled coords (scale area zero) :: after))
      = Some with_fallback
    /\ result_cells (concat_reduce nansum (before ++ after)) = Some without
    /\ Forall2 cell_same with_fallback without.
Proof.
  intros [Hga Hwa] Hg Hne.
  set (ys' := row_label coords (grid_transform g) <$> seq 0 (grid_shape g).1).
  set (xs' := col_label coords (grid_transform g) <$> seq 0 (grid_shape g).2).
  assert (Hlab : Forall (fun d => da_ys d = ys' /\ da_xs d = xs') (before ++ after)).
  { eapply Forall_impl; [exact Hg |]. intros d (Hy & Hx & _). done. }
  assert (Hlab' : Forall (fun d => da_ys d = ys' /\ da_xs d = xs')
                    (before ++ labelled coords (scale area zero) :: after)).
  { apply Forall_app in Hlab as [H1 H2]. apply Forall_app. split; [done |].
    constructor; [|done]. subst g. done. }
  assert (Hne' : before ++ labelled coords (scale area zero) :: after <> [])
    by (by destruct before).
  destruct (concat_reduce_same_labels nansum _ ys' xs' Hne' Hlab')
    as (out1 & -> & _ & _ & Hv1).
  destruct (concat_reduce_same_labels nansum _ ys' xs' Hne Hlab)
    as (out2 & -> & _ & _ & Hv2).
  eexists _, _. split; [reflexivity |]. split; [reflexivity |].
  rewrite Hv1, Hv2. apply Forall2_fmap_same. intros k _.
  rewrite !fmap_app, fmap_cons, !column_app. unfold column at 2. rewrite fmap_cons.
  apply nansum_skip. cbn [labelled da_values scale values].
  rewrite list_lookup_fmap. destruct (values area !! k) as [x|]; simpl; [|by left].
  destruct (is_finite x) eqn:Hx.
  - right. by apply f32_mul_zero_finite.
  - left. by rewrite f32_mul_zero_not_finite.
Qed.

Section ReducerExtras.

Variable open_raster : string -> result Raster.
Variable resample : Raster -> Raster -> list cell.
Variable coords : Labelling.
Variable crop_mapping : gmap string (list string).
Variables (water_code vcy : string) (period climate_model scenario : option string).

Local Abbreviation gka' group kcal :=
  (group_kcal_average open_raster resample coords group kcal water_code vcy
     period climate_model scenario).
Local Abbreviation collect' :=
  (collect_group_layers open_raster resample coords crop_mapping water_code vcy
     period climate_model scenario).
Local Abbreviation sum_groups_kcal' :=
  (sum_groups_kcal open_raster resample coords crop_mapping water_code vcy
     period climate_model scenario).

(** Group [item] is aggregated, with log and layer [out]. *)
Local Abbreviation aggregated :=
  (fun (item : string * cell) (out : list warning * DataArray) =>
     gka' item.1 item.2 (crop_mapping !! item.1) = (out.1, Ok out.2)).

Lemma collect_group_layers_all_ok (items : list (string * cell))
    (outs : list (list warning * DataArray)) (acc : list DataArray) :
  Forall2 aggregated items outs ->
  collect' items acc = (concat outs.*1, Ok (acc ++ outs.*2)).
Proof.
  intros H. revert acc. induction H as [|[g k] [w r] items outs Hgo _ IH]; intros acc.
  - simpl. by rewrite app_nil_r.
  - rewrite collect_group_layers_cons. simpl in Hgo. rewrite Hgo, bind_log, bind_ok, IH.
    simpl. by rewrite <- app_assoc.
Qed.

(** X11: When every group of the calorie mapping is aggregated, the reducer
    returns: the log is the groups' logs in order; the total has the
    coordinates of all the layers, which are stacked as returned,
    without any resampling; and at each pair of coordinates its cell is
    the float64 sum, in the order of the groups, of what the group
    layers hold there, NaN and missing cells counting as 0.  An empty
    calorie mapping is no such case: there is nothing to concatenate,
    and the reducer raises ValueError. *)
Theorem sum_groups_kcal_all_groups_aggregated (items : list (string * cell))
    (outs : list (list warning * DataArray)) :
  Forall2 aggregated items outs ->
  match outs with
  | [] =>
    sum_groups_kcal' items
    = ([], Raise (ValueError "must supply at least one object to concatenate"))
  | first :: _ =>
    exists total,
      sum_groups_kcal' items = (concat outs.*1, Ok total)
      /\ da_wf total
      /\ (forall y, y ∈ da_ys total <-> exists d, d ∈ outs.*2 /\ y ∈ da_ys d)
      /\ (forall x, x ∈ da_xs total <-> exists d, d ∈ outs.*2 /\ x ∈ da_xs d)
      /\ forall y x, y ∈ da_ys total -> x ∈ da_xs total ->
           sel total y x = nansum ((fun d => sel d y x) <$> outs.*2)
  end.
Proof.
  intros H. unfold sum_groups_kcal.
  rewrite (collect_group_layers_all_ok _ _ [] H), bind_log, bind_ok. simpl.
  destruct outs as [|[w r] outs]; [done |]. simpl.
  eexists. rewrite app_nil_r. split; [reflexivity |].
  split; [apply da_wf_reduce_layers |].
  destruct (reduce_layers_labels nansum r outs.*2) as [Hys Hxs].
  split; [exact Hys |]. split; [exact Hxs |].
  intros y x Hy Hx. rewrite sel_da_set_name. by apply sel_reduce_layers.
Qed.

(** X12: The reducer stops at the first group that cannot be aggregated: its
    exception is the reducer's, the log holds what was logged up to
    there, and the groups after it are never looked at. *)
Theorem sum_groups_kcal_first_failure (pre post : list (string * cell))
    (outs : list (list warning * DataArray)) (group : string) (kcal : cell)
    (log : list warning) (e : exn) :
  Forall2 aggregated pre outs ->
  gka' group kcal (crop_mapping !! group) = (log, Raise e) ->
  sum_groups_kcal' (pre ++ (group, kcal) :: post) = (concat outs.*1 ++ log, Raise e).
Proof.
  intros Hpre Hg. unfold sum_groups_kcal.
  rewrite (collect_group_layers_app _ _ _ _ _ _ _ _ _ _ _ _ _ _
             (collect_group_layers_all_ok _ _ [] Hpre)).
  by rewrite collect_group_layers_cons, Hg.
Qed.

Lemma sum_groups_kcal_name (p m s : string) (items : list (string * cell))
    (log : list warning) (total : DataArray) :
  sum_groups_kcal open_raster resample coords crop_mapping water_code vcy
    (Some p) (Some m) (Some s) items = (log, Ok total) ->
  da_name total = Some (get_data.fname vcy p m s water_code).
Proof.
  unfold sum_groups_kcal.
  destruct (collect_group_layers _ _ _ _ _ _ _ _ _ items []) as [log1 [layers|e]];
    [|done].
  rewrite bind_log, bind_ok.
  destruct (concat_reduce nansum layers) as [r|e]; [|done].
  rewrite bind_ok. simpl. by intros [= _ <-].
Qed.

Lemma name_or_fname (da : DataArray) (fname : string) :
  da_name da = Some fname -> get_data.name_or da fname = fname.
Proof. intros H. unfold get_data.name_or. rewrite H. by case_bool_decide. Qed.

(** X13: The name the reducer gives its result is the file name the driver
    computes for the same combination, so [da.name or fname], taken
    after the cast to float32, is that name and the file the driver
    writes is the one whose absence it checked. *)
Theorem sum_groups_kcal_name_is_driver_fname (p m s : string)
    (items : list (string * cell)) (log : list warning) (total : DataArray) :
  sum_groups_kcal open_raster resample coords crop_mapping water_code vcy
    (Some p) (Some m) (Some s) items = (log, Ok total) ->
  da_name total = Some (get_data.fname vcy p m s water_code)
  /\ get_data.out_path vcy
       (get_data.name_or (da_astype float32 total) (get_data.fname vcy p m s water_code))
     = get_data.job_path vcy ((p, m, s), water_code).
Proof.
  intros H. pose proof (sum_groups_kcal_name _ _ _ _ _ _ H) as Hn.
  split; [done |]. by rewrite (name_or_fname (da_astype float32 total) _ Hn).
Qed.

End ReducerExtras.

(** ** Harvested-area reducer *)

Section AreaExtras.

Variable open_raster : string -> result Raster.
Variable resample : Raster -> Raster -> list cell.
Variable coords : Labelling.

Local Abbreviation load_areas' := (get_har_area.load_areas open_raster resample).
Local Abbreviation sum_area' :=
  (get_har_area.sum_groups_har_area open_raster resample coords).
Local Abbreviation opened' := (opened_areas open_raster).
Local Abbreviation skipped' := (skipped_groups open_raster).

Lemma load_areas_cons (water_code area_water group : string) (rest : list string)
    (ref : option Raster) (acc : list Raster) :
  load_areas' water_code area_water (group :: rest) ref acc
  = let* a_path := lift (area_path group area_water) in
    match open_raster a_path with
    | Raise e =>
      let* _ := logging_warning (SkipGroup group water_code a_path e) in
      load_areas' water_code area_water rest ref acc
    | Ok area =>
      match ref with
      | None =>
        load_areas' water_code area_water rest (Some area) (acc ++ [astype float64 area])
      | Some r =>
        load_areas' water_code area_water rest ref
          (acc ++ [astype float64 (align_to resample r area)])
      end
    end.
Proof. reflexivity. Qed.

Lemma opened_areas_cons (area_water group : string) (rest : list string) :
  opened' area_water (group :: rest) =
    match area_path group area_water with
    | Ok a_path =>
      match open_raster a_path with
      | Ok area => area :: opened' area_water rest
      | Raise _ => opened' area_water rest
      end
    | Raise _ => opened' area_water rest
    end.
Proof.
  unfold opened_areas. simpl omap.
  destruct (area_path group area_water) as [a_path|]; [|done].
  by destruct (open_raster a_path).
Qed.

Lemma skipped_groups_cons (water_code area_water group : string) (rest : list string) :
  skipped' water_code area_water (group :: rest) =
    match area_path group area_water with
    | Ok a_path =>
      match open_raster a_path with
      | Ok _ => skipped' water_code area_water rest
      | Raise e =>
        SkipGroup group water_code a_path e :: skipped' water_code area_water rest
      end
    | Raise _ => skipped' water_code area_water rest
    end.
Proof.
  unfold skipped_groups. simpl omap.
  destruct (area_path group area_water) as [a_path|]; [|done].
  by destruct (open_raster a_path).
Qed.

(** The area loop never fails: it logs the groups whose raster does not
    open and appends the others, aligned to the first one opened and
    cast to float64. *)
Lemma load_areas_spec (water_code area_water : string) (groups : list string)
    (ref : option Raster) (acc : list Raster) :
  load_areas' water_code area_water groups ref acc
  = (skipped' water_code area_water groups,
     Ok (acc ++ (astype float64 <$> aligned_areas resample ref (opened' area_water groups)))).
Proof.
  revert ref acc. induction groups as [|group rest IH]; intros ref acc.
  - simpl. destruct ref; simpl; by rewrite app_nil_r.
  - rewrite load_areas_cons, opened_areas_cons, skipped_groups_cons.
    destruct (area_path_ok group area_water) as [a_path ->]. rewrite bind_ok.
    destruct (open_raster a_path) as [area|e].
    + destruct ref as [r|]; rewrite IH; simpl; by rewrite <- app_assoc.
    + change (let* _ := logging_warning (SkipGroup group water_code a_path e)
              in load_areas' water_code area_water rest ref acc)
        with (bind ([SkipGroup group water_code a_path e], Ok tt)
                (fun _ => load_areas' water_code area_water rest ref acc)).
      rewrite bind_log, bind_ok, IH. done.
Qed.

Lemma skipped_opened_length (water_code area_water : string) (groups : list string) :
  length (skipped' water_code area_water groups) + length (opened' area_water groups)
  = length groups.
Proof.
  induction groups as [|group rest IH]; [done |].
  rewrite opened_areas_cons, skipped_groups_cons.
  destruct (area_path_ok group area_water) as [a_path ->].
  destruct (open_raster a_path); simpl; lia.
Qed.

Lemma aligned_areas_grid (first : Raster) (rest : list Raster) :
  Forall (fun r => grid r = grid first) (aligned_areas resample None (first :: rest)).
Proof.
  simpl. constructor; [done |]. apply Forall_fmap, Forall_true.
  intros r. apply align_to_grid.
Qed.

(** X14: A water code that the script's table does not hold (any code but
    "HILM" and "HRLM") ends the area reducer with a KeyError before any
    raster is opened. *)
Theorem sum_groups_har_area_unknown_water (groups : list string) (water_code : string) :
  water_code <> "HILM" -> water_code <> "HRLM" ->
  get_har_area.sum_groups_har_area open_raster resample coords groups water_code
  = ([], Raise (KeyError water_code)).
Proof.
  intros H1 H2. unfold get_har_area.sum_groups_har_area, getitem.
  replace (get_har_area.YR_WATER_TO_AREA !! water_code) with (@None string); [done |].
  unfold get_har_area.YR_WATER_TO_AREA.
  rewrite lookup_insert_ne by done. rewrite lookup_insert_ne by done.
  by rewrite lookup_empty.
Qed.

Lemma sum_groups_har_area_no_layer (groups : list string)
    (water_code area_water : string) :
  get_har_area.YR_WATER_TO_AREA !! water_code = Some area_water ->
  opened' area_water groups = [] ->
  sum_area' groups water_code
  = (skipped' water_code area_water groups,
     Raise (ValueError ("No valid area layers found for water_code=" +:+ water_code))).
Proof.
  intros Hw Hnone. unfold get_har_area.sum_groups_har_area, getitem.
  rewrite Hw, bind_ok, load_areas_spec, Hnone, bind_log, bind_ok. simpl.
  by rewrite app_nil_r.
Qed.

(** X15: When no group's harvested-area raster opens (an empty list of groups
    included), the area reducer raises ValueError "No valid area layers
    found for water_code=<code>", having logged one warning per group. *)
Theorem sum_groups_har_area_no_valid_layer (groups : list string)
    (water_code area_water : string) :
  get_har_area.YR_WATER_TO_AREA !! water_code = Some area_water ->
  opened' area_water groups = [] ->
  sum_area' groups water_code
  = (skipped' water_code area_water groups,
     Raise (ValueError ("No valid area layers found for water_code=" +:+ water_code)))
  /\ length (skipped' water_code area_water groups) = length groups.
Proof.
  intros Hw Hnone. split; [by apply sum_groups_har_area_no_layer |].
  pose proof (skipped_opened_length water_code area_water groups) as H.
  rewrite Hnone in H. simpl in H. lia.
Qed.

(** X16: When some group's raster opens, the area reducer returns an array
    named "har_area_<code>" on the grid of the first raster opened.
    Unlike the member loop of the calorie path, every later raster goes
    through the aligner, so all the layers summed are on that grid; each
    cell of the result is the sum, in float64, of the valid cells of the
    layers. *)
Theorem sum_groups_har_area_result (groups : list string)
    (water_code area_water : string) (first : Raster) (rest : list Raster) :
  get_har_area.YR_WATER_TO_AREA !! water_code = Some area_water ->
  opened' area_water groups = first :: rest ->
  exists out,
    sum_area' groups water_code = (skipped' water_code area_water groups, Ok out)
    /\ da_name out = Some ("har_area_" +:+ water_code)
    /\ da_grid out = grid first
    /\ Forall (fun r => grid r = grid first)
         (aligned_areas resample None (first :: rest))
    /\ length (skipped' water_code area_water groups) + S (length rest) = length groups
    /\ forall k, k < (shape first).1 * (shape first).2 ->
         da_values out !! k
         = Some (nansum
                   (column k (values <$> (astype float64
                                <$> aligned_areas resample None (first :: rest)))))
           /\ cell_same
                (nansum (column k (values <$> (astype float64
                                     <$> aligned_areas resample None (first :: rest)))))
                (foldl f64_add zero
                   (valid (column k (values <$> (astype float64
                                       <$> aligned_areas resample None (first :: rest)))))).
Proof.
  intros Hw Hopen.
  pose proof (aligned_areas_grid first rest) as Hgrid.
  set (layers := astype float64 <$> aligned_areas resample None (first :: rest)) in *.
  assert (Hlab : Forall (fun d => da_ys d = da_ys (labelled coords first)
                                  /\ da_xs d = da_xs (labelled coords first))
                   (labelled coords <$> layers)).
  { unfold layers. rewrite <- list_fmap_compose. apply Forall_fmap.
    eapply Forall_impl; [exact Hgrid |]. intros r Hr.
    apply (labelled_same_grid coords (astype float64 r) first). by rewrite grid_astype. }
  assert (Hcons : exists l ls, layers = l :: ls) by (by eexists _, _).
  assert (Hne : labelled coords <$> layers <> []).
  { destruct Hcons as (l & ls & ->). done. }
  destruct (concat_reduce_same_labels nansum _ _ _ Hne Hlab)
    as (out & Hout & Hys & Hxs & Hvals).
  exists (da_set_name out ("har_area_" +:+ water_code)). split.
  { unfold get_har_area.sum_groups_har_area, getitem.
    rewrite Hw, bind_ok, load_areas_spec, Hopen, bind_log, bind_ok.
    fold layers. change ([] ++ layers) with layers.
    destruct Hcons as (l & ls & Hls). rewrite Hls in *. rewrite Hout, bind_ok.
    simpl. by rewrite app_nil_r. }
  split; [done |]. split.
  { unfold da_grid, da_shape. cbn [da_set_name da_crs da_transform da_ys da_xs].
    rewrite Hys, Hxs.
    assert (Hfirst : da_crs out = crs first /\ da_transform out = transform first).
    { destruct Hcons as (l & ls & Hls). unfold layers in Hls. simpl in Hls.
      injection Hls as <- _. simpl in Hout. injection Hout as <-. done. }
    destruct Hfirst as [-> ->].
    cbn [labelled da_ys da_xs]. rewrite !length_fmap, !length_seq.
    unfold grid. by destruct (shape first). }
  split; [exact Hgrid |]. split.
  { pose proof (skipped_opened_length water_code area_water groups) as H.
    rewrite Hopen in H. simpl in H. lia. }
  intros k Hk. split; [|apply nansum_valid].
  cbn [da_set_name da_values]. rewrite Hvals, list_lookup_fmap.
  cbn [labelled da_ys da_xs]. rewrite !length_fmap, !length_seq.
  rewrite lookup_seq_lt by done. simpl. by rewrite <- list_fmap_compose.
Qed.

End AreaExtras.

(** ** Calorie driver: the combinations *)

Lemma combos_spec (scenarios : list (string * get_data.scenario_cfg)) (p m s : string) :
  (p, m, s) ∈ get_data.combos scenarios
  <-> exists cfg, (s, cfg) ∈ scenarios /\ p ∈ get_data.periods cfg
                  /\ m ∈ get_data.models cfg.
Proof.
  unfold get_data.combos. rewrite list_elem_of_bind. split.
  - intros ([s' cfg] & Hin & Hs). simpl in Hin.
    apply list_elem_of_bind in Hin as (p' & Hin & Hp).
    apply list_elem_of_bind in Hin as (m' & Hin & Hm).
    apply list_elem_of_singleton in Hin as [= -> -> ->]. by exists cfg.
  - intros (cfg & Hs & Hp & Hm). exists (s, cfg). split; [|done]. simpl.
    apply list_elem_of_bind. exists p. split; [|done].
    apply list_elem_of_bind. exists m. split; [|done].
    by apply list_elem_of_singleton.
Qed.

(** X17: [valid_combos] yields exactly the triples (period, model, scenario)
    whose period and model are listed under that scenario in SCENARIOS:
    fourteen triples, none twice, the historical periods and the model
    "AGERA5" under "HIST" only, the future periods and "ENSEMBLE" under
    the three SSP scenarios only. *)
Theorem valid_combos_spec :
  (forall p m s,
     (p, m, s) ∈ get_data.valid_combos
     <-> exists cfg, (s, cfg) ∈ get_data.SCENARIOS /\ p ∈ get_data.periods cfg
                     /\ m ∈ get_data.models cfg)
  /\ NoDup get_data.valid_combos
  /\ length get_data.valid_combos = 14
  /\ Forall (fun c => (c.2 = "HIST" <-> c.1.1 ∈ get_data.HIST_PERIODS)
                      /\ (c.2 = "HIST" <-> c.1.2 = "AGERA5")
                      /\ (c.2 <> "HIST" <-> c.1.1 ∈ get_data.FUTURE_PERIODS))
       get_data.valid_combos.
Proof.
  split; [intros p m s; apply combos_spec |].
  split; [by_evaluation |]. split; [reflexivity | by_evaluation].
Qed.

(** ** Datasets from the written rasters *)

Lemma where_nonneg_cell_nonneg (x : cell) : nonneg_cell (process_data.where_nonneg_cell x).
Proof.
  unfold nonneg_cell, process_data.where_nonneg_cell.
  by destruct (SFleb zero x) eqn:Hx.
Qed.

Lemma where_nonneg_cell_fixes (x : cell) :
  nonneg_cell x -> process_data.where_nonneg_cell x = x.
Proof. unfold nonneg_cell, process_data.where_nonneg_cell. by intros ->. Qed.

Lemma where_nonneg_cell_negative (x : cell) :
  SFltb x zero = true -> process_data.where_nonneg_cell x = zero.
Proof. by destruct x as [[]|[]| |[] m e]. Qed.

Section BuildExtras.

Variable open_tif_local : string -> result Raster.
Variable resample : Raster -> Raster -> list cell.
Variables (folder variable_prefix : string).

Local Abbreviation load_vars' := (process_data.load_vars open_tif_local resample).
Local Abbreviation build' :=
  (process_data.build_dataset_for_variable_local open_tif_local resample
     folder variable_prefix).

Lemma load_vars_all_open (ref : Raster) (clamp : bool) (files : list string) :
  Forall (fun f => is_ok (open_tif_local f) = true) files ->
  exists data_vars,
    load_vars' ref clamp files = Ok data_vars
    /\ data_vars.*1 = files
    /\ Forall (fun v => grid v.2 = grid ref) data_vars
    /\ (clamp = true -> Forall (fun v => Forall nonneg_cell (values v.2)) data_vars).
Proof.
  induction 1 as [|f rest Hf _ (vars & IH & Hnames & Hgrid & Hclamp)].
  - exists []. by repeat split.
  - simpl. destruct (open_tif_local f) as [da|]; [|done]. rewrite IH.
    eexists. split; [reflexivity |].
    split; [rewrite fmap_cons; simpl; by rewrite Hnames |].
    split.
    + constructor; [|done]. simpl. destruct clamp; apply align_to_grid.
    + intros ->. constructor; [|by apply Hclamp]. simpl.
      apply Forall_fmap, Forall_true. intros x. apply where_nonneg_cell_nonneg.
Qed.

Lemma load_vars_first_failure (ref : Raster) (clamp : bool) (opened : list string)
    (f : string) (rest : list string) (e : exn) :
  Forall (fun f => is_ok (open_tif_local f) = true) opened ->
  open_tif_local f = Raise e ->
  load_vars' ref clamp (opened ++ f :: rest) = Raise e.
Proof.
  intros Hopen Hf. induction Hopen as [|f0 opened Hf0 _ IH]; simpl.
  - by rewrite Hf.
  - destruct (open_tif_local f0); [|done]. by rewrite IH.
Qed.

Lemma build_dataset_cons (first : string) (rest : list string) (clamp : bool) :
  build' (first :: rest) clamp =
    match open_tif_local first with
    | Raise e => process_data.OpenFailed e
    | Ok ref =>
      match load_vars' ref clamp (first :: rest) with
      | Ok data_vars => process_data.Built data_vars
      | Raise e => process_data.OpenFailed e
      end
    end.
Proof. reflexivity. Qed.

(** X18: When every file opens, the dataset holds one variable per file, in
    the order of the files and under their names, and every variable lies
    on the grid of the first file, whether it had to be resampled or not. *)
Theorem build_dataset_variables_on_first_grid (first : string) (rest : list string)
    (ref : Raster) (clamp_negatives : bool) :
  Forall (fun f => is_ok (open_tif_local f) = true) (first :: rest) ->
  open_tif_local first = Ok ref ->
  exists data_vars,
    build' (first :: rest) clamp_negatives = process_data.Built data_vars
    /\ data_vars.*1 = first :: rest
    /\ Forall (fun v => grid v.2 = grid ref) data_vars.
Proof.
  intros Hall Href.
  destruct (load_vars_all_open ref clamp_negatives _ Hall) as (vars & Hv & Hn & Hg & _).
  exists vars. unfold process_data.build_dataset_for_variable_local.
  by rewrite Href, Hv.
Qed.

(** X19: With [clamp_negatives] no cell of the dataset is negative and none
    is NaN: the test [da >= 0] fails on a masked cell too, so masked
    cells are written as 0 along with the negative ones.  Cells that are
    numbers not below zero are kept (positive infinity among them). *)
Theorem build_dataset_clamp_zeroes_masked_cells (first : string) (rest : list string) :
  Forall (fun f => is_ok (open_tif_local f) = true) (first :: rest) ->
  exists data_vars,
    build' (first :: rest) true = process_data.Built data_vars
    /\ Forall (fun v => Forall nonneg_cell (values v.2)) data_vars
    /\ process_data.where_nonneg_cell NaN = zero
    /\ (forall x, nonneg_cell x -> process_data.where_nonneg_cell x = x)
    /\ (forall x, SFltb x zero = true -> process_data.where_nonneg_cell x = zero).
Proof.
  intros Hall.
  destruct (open_tif_local first) as [ref|] eqn:Href.
  2:{ apply Forall_inv in Hall. by rewrite Href in Hall. }
  destruct (load_vars_all_open ref true _ Hall) as (vars & Hv & _ & _ & Hc).
  exists vars. unfold process_data.build_dataset_for_variable_local.
  rewrite Href, Hv. split; [done |]. split; [by apply Hc |]. split; [done |].
  split; [apply where_nonneg_cell_fixes | apply where_nonneg_cell_negative].
Qed.

(** X20: No file matching the prefix is a FileNotFoundError; otherwise the
    first file that does not open ends the build with its exception,
    and no dataset is returned for the files that did open. *)
Theorem build_dataset_failures (clamp_negatives : bool) :
  build' [] clamp_negatives
  = process_data.FileNotFoundError
      ("No tifs matching " +:+ variable_prefix +:+ "_*.tif in " +:+ folder)
  /\ forall opened f rest e,
       Forall (fun f => is_ok (open_tif_local f) = true) opened ->
       open_tif_local f = Raise e ->
       build' (opened ++ f :: rest) clamp_negatives = process_data.OpenFailed e.
Proof.
  split; [reflexivity |]. intros opened f rest e Hopen Hf.
  destruct opened as [|f0 opened].
  - rewrite app_nil_l, build_dataset_cons. by rewrite Hf.
  - pose proof (Forall_inv Hopen) as Hf0. simpl in Hf0.
    rewrite <- app_comm_cons, build_dataset_cons.
    destruct (open_tif_local f0) as [ref|] eqn:Href; [|done].
    rewrite app_comm_cons.
    by rewrite (load_vars_first_failure ref clamp_negatives (f0 :: opened) f rest e Hopen Hf).
Qed.

End BuildExtras.
(** ** Calorie driver: the files *)

Section RunExtras.

Variable open_raster : string -> result Raster.
Variable resample : Raster -> Raster -> list cell.
Variable coords : Labelling.
Variable get_cal_mapper : result (list (string * cell)).
Variable get_crop_mapping : string -> result (gmap string (list string)).
Variable to_raster :
  string -> DataArray -> gmap string DataArray -> gmap string DataArray * result unit.

Local Abbreviation build_output' :=
  (get_data.build_output open_raster resample coords to_raster).
Local Abbreviation build_outputs' :=
  (get_data.build_outputs open_raster resample coords to_raster).
Local Abbreviation run_vars' :=
  (get_data.run_vars open_raster resample coords get_crop_mapping to_raster).
Local Abbreviation run' :=
  (get_data.run open_raster resample coords get_cal_mapper get_crop_mapping to_raster).

(** One output touches at most its own file, and only when that file is
    not there yet. *)
Lemma build_output_frame (cal_map : list (string * cell))
    (crop_mapping : gmap string (list string)) (yield_var : string)
    (job : (string * string * string) * string) (fs : gmap string DataArray) (p : string) :
  writes_only_target to_raster ->
  p <> get_data.job_path yield_var job \/ is_Some (fs !! p) ->
  (build_output' cal_map crop_mapping yield_var job fs).2 !! p = fs !! p.
Proof.
  intros Hframe Hp. destruct job as [[[period model] scen] water].
  unfold get_data.build_output. simpl negb. rewrite andb_true_r.
  case_bool_decide as Hex; [done |].
  destruct (sum_groups_kcal _ _ _ _ _ _ _ _ _ cal_map) as [log [da|e]] eqn:Hsum; [|done].
  cbv zeta.
  rewrite (name_or_fname (da_astype float32 da) _
             (sum_groups_kcal_name _ _ _ _ _ _ _ _ _ _ _ _ Hsum)).
  assert (Hne : p <> get_data.out_path yield_var
                       (get_data.fname yield_var period model scen water)).
  { destruct Hp as [Hp|Hp]; [exact Hp |]. intros ->. by apply Hex. }
  pose proof (Hframe _ (da_astype float32 da) fs _ Hne) as Hw.
  by destruct (to_raster _ (da_astype float32 da) fs) as [fs' [[]|e]].
Qed.

Lemma build_outputs_frame (cal_map : list (string * cell))
    (crop_mapping : gmap string (list string)) (yield_var : string)
    (todo : list ((string * string * string) * string)) (fs : gmap string DataArray)
    (p : string) :
  writes_only_target to_raster ->
  p ∉ get_data.job_path yield_var <$> todo \/ is_Some (fs !! p) ->
  (build_outputs' cal_map crop_mapping yield_var todo fs).2 !! p = fs !! p.
Proof.
  intros Hframe. revert fs. induction todo as [|job rest IH]; intros fs Hp; [done |].
  simpl.
  destruct (build_output' cal_map crop_mapping yield_var job fs) as [log1 fs1] eqn:H1.
  destruct (build_outputs' cal_map crop_mapping yield_var rest fs1) as [log2 fs2] eqn:H2.
  simpl.
  assert (Hfs1 : fs1 !! p = fs !! p).
  { change fs1 with (log1, fs1).2. rewrite <- H1. apply build_output_frame; [done |].
    destruct Hp as [Hp|Hp]; [left | by right].
    intros ->. apply Hp. rewrite fmap_cons. apply list_elem_of_here. }
  change fs2 with (log2, fs2).2. rewrite <- H2, IH; [done |].
  destruct Hp as [Hp|Hp]; [left | right; by rewrite Hfs1].
  intros Hin. apply Hp. rewrite fmap_cons. by apply list_elem_of_further.
Qed.

Lemma run_vars_cons (cal_map : list (string * cell)) (yield_var : string)
    (rest : list string) (fs : gmap string DataArray) :
  run_vars' cal_map (yield_var :: rest) fs =
    match get_crop_mapping yield_var with
    | Raise e => ([], fs, Raise e)
    | Ok crop_mapping =>
      let '(log1, fs1) := build_outputs' cal_map crop_mapping yield_var get_data.jobs fs in
      let '(log2, fs2, r) := run_vars' cal_map rest fs1 in
      (log1 ++ log2, fs2, r)
    end.
Proof. reflexivity. Qed.

Lemma run_vars_frame (cal_map : list (string * cell)) (yield_vars : list string)
    (fs : gmap string DataArray) (p : string) :
  writes_only_target to_raster ->
  p ∉ (yield_var ← yield_vars; job ← get_data.jobs; [get_data.job_path yield_var job])
    \/ is_Some (fs !! p) ->
  (run_vars' cal_map yield_vars fs).1.2 !! p = fs !! p.
Proof.
  intros Hframe. revert fs. induction yield_vars as [|yv rest IH]; intros fs Hp; [done |].
  rewrite run_vars_cons. destruct (get_crop_mapping yv) as [cm|e]; [|done].
  destruct (build_outputs' cal_map cm yv get_data.jobs fs) as [log1 fs1] eqn:H1.
  destruct (run_vars' cal_map rest fs1) as [[log2 fs2] r] eqn:H2.
  cbn [fst snd].
  assert (Hfs1 : fs1 !! p = fs !! p).
  { change fs1 with (log1, fs1).2. rewrite <- H1. apply build_outputs_frame; [done |].
    destruct Hp as [Hp|Hp]; [left | by right].
    intros Hin. apply Hp. rewrite bind_cons. apply elem_of_app. left.
    apply list_elem_of_fmap in Hin as (job & -> & Hjob).
    apply list_elem_of_bind. exists job. split; [apply list_elem_of_here | done]. }
  change fs2 with (log2, fs2, r).1.2. rewrite <- H2, IH; [done |].
  destruct Hp as [Hp|Hp]; [left | right; by rewrite Hfs1].
  intros Hin. apply Hp. rewrite bind_cons. apply elem_of_app. by right.
Qed.

(** X21: [run] changes the files only where an output it is to produce is
    missing: a file that exists is never rewritten, and no file other
    than a requested output is touched, whatever the store holds and
    whether or not the writes succeed. *)
Theorem run_touches_only_missing_outputs (fs : gmap string DataArray) (p : string) :
  writes_only_target to_raster ->
  p ∉ get_data.requested_paths \/ is_Some (fs !! p) ->
  (run' fs).1.2 !! p = fs !! p.
Proof.
  intros Hframe Hp. unfold get_data.run.
  destruct get_cal_mapper as [cal_map|e]; [|done].
  by apply run_vars_frame.
Qed.

Lemma sum_groups_kcal_missing_group (crop_mapping : gmap string (list string))
    (water_code vcy : string) (period climate_model scenario : option string)
    (cal_map : list (string * cell)) (group : string) (kcal : cell) :
  (group, kcal) ∈ cal_map -> crop_mapping !! group = None ->
  exists log e,
    sum_groups_kcal open_raster resample coords crop_mapping water_code vcy period
      climate_model scenario cal_map = (log, Raise e).
Proof.
  intros Hin Hnone.
  destruct (collect_group_layers_raises open_raster resample coords crop_mapping water_code vcy
              period climate_model scenario _ _ _ [] Hin Hnone) as (log & e & Hc).
  exists log, e. unfold sum_groups_kcal. by rewrite Hc.
Qed.

Lemma build_outputs_cons (cal_map : list (string * cell))
    (crop_mapping : gmap string (list string)) (yield_var : string)
    (job : (string * string * string) * string)
    (rest : list ((string * string * string) * string)) (fs : gmap string DataArray) :
  build_outputs' cal_map crop_mapping yield_var (job :: rest) fs =
    let '(log1, fs1) := build_output' cal_map crop_mapping yield_var job fs in
    let '(log2, fs2) := build_outputs' cal_map crop_mapping yield_var rest fs1 in
    (log1 ++ log2, fs2).
Proof. reflexivity. Qed.

Lemma build_output_missing_group (cal_map : list (string * cell))
    (crop_mapping : gmap string (list string)) (yield_var : string)
    (job : (string * string * string) * string) (fs : gmap string DataArray)
    (group : string) (kcal : cell) :
  (group, kcal) ∈ cal_map -> crop_mapping !! group = None ->
  exists log,
    build_output' cal_map crop_mapping yield_var job fs = (log, fs)
    /\ Forall not_saved log
    /\ (fs !! get_data.job_path yield_var job = None ->
        exists e, Failed (get_data.fname yield_var job.1.1.1 job.1.1.2 job.1.2 job.2) e
                  ∈ log).
Proof.
  intros Hin Hnone. destruct job as [[[period model] scen] water].
  unfold get_data.build_output. simpl negb. rewrite andb_true_r.
  case_bool_decide as Hex.
  - eexists. split; [reflexivity |]. split; [by repeat constructor |].
    intros Hp. unfold get_data.job_path in Hp. simpl in Hp.
    rewrite Hp in Hex. by destruct Hex.
  - destruct (sum_groups_kcal_missing_group crop_mapping water yield_var (Some period)
                (Some model) (Some scen) cal_map group kcal Hin Hnone) as (log & e & ->).
    eexists. split; [reflexivity |]. split.
    + constructor; [done |]. apply Forall_app. split.
      * apply Forall_fmap, Forall_true. by intros w.
      * by repeat constructor.
    + intros _. exists e. simpl. apply list_elem_of_further, elem_of_app. right.
      apply list_elem_of_here.
Qed.

Lemma build_outputs_missing_group (cal_map : list (string * cell))
    (crop_mapping : gmap string (list string)) (yield_var : string)
    (todo : list ((string * string * string) * string)) (fs : gmap string DataArray)
    (group : string) (kcal : cell) :
  (group, kcal) ∈ cal_map -> crop_mapping !! group = None ->
  exists log,
    build_outputs' cal_map crop_mapping yield_var todo fs = (log, fs)
    /\ Forall not_saved log
    /\ forall job, job ∈ todo -> fs !! get_data.job_path yield_var job = None ->
         exists e, Failed (get_data.fname yield_var job.1.1.1 job.1.1.2 job.1.2 job.2) e
                   ∈ log.
Proof.
  intros Hin Hnone. induction todo as [|job rest (log2 & IH & Hns2 & Hf2)].
  - exists []. split; [done |]. split; [constructor |]. intros job Hj.
    by apply elem_of_nil in Hj.
  - destruct (build_output_missing_group cal_map crop_mapping yield_var job fs group kcal
                Hin Hnone) as (log1 & H1 & Hns1 & Hf1).
    exists (log1 ++ log2). rewrite build_outputs_cons, H1, IH.
    split; [done |]. split; [by apply Forall_app |].
    intros j Hj Hp. apply elem_of_cons in Hj as [->|Hj].
    + destruct (Hf1 Hp) as [e He]. exists e. apply elem_of_app. by left.
    + destruct (Hf2 j Hj Hp) as [e He]. exists e. apply elem_of_app. by right.
Qed.

(** X22: A group of the calorie table without an entry in the crop table
    makes every combination fail, and [run] absorbs each failure: it
    returns normally, writes no file at all, and logs a failure for
    every requested output that is not there yet. *)
Theorem run_missing_crop_group_writes_nothing (cal_map : list (string * cell))
    (group : string) (kcal : cell) (fs : gmap string DataArray) :
  get_cal_mapper = Ok cal_map ->
  (group, kcal) ∈ cal_map ->
  Forall (fun yield_var => exists crop_mapping,
            get_crop_mapping yield_var = Ok crop_mapping
            /\ crop_mapping !! group = None) get_data.YIELD_VARS ->
  exists log,
    run' fs = (log, fs, Ok tt)
    /\ Forall not_saved log
    /\ forall yield_var job,
         yield_var ∈ get_data.YIELD_VARS -> job ∈ get_data.jobs ->
         fs !! get_data.job_path yield_var job = None ->
         exists e, Failed (get_data.fname yield_var job.1.1.1 job.1.1.2 job.1.2 job.2) e
                   ∈ log.
Proof.
  intros Hcal Hin Hmaps. unfold get_data.run. rewrite Hcal.
  induction Hmaps as [|yv rest (cm & Hcm & Hnone) _ (log2 & IH & Hns2 & Hf2)].
  - exists []. split; [done |]. split; [constructor |].
    intros yv job Hyv. by apply elem_of_nil in Hyv.
  - destruct (build_outputs_missing_group cal_map cm yv get_data.jobs fs group kcal
                Hin Hnone) as (log1 & H1 & Hns1 & Hf1).
    exists (log1 ++ log2). rewrite run_vars_cons, Hcm, H1, IH.
    split; [done |]. split; [by apply Forall_app |].
    intros yv' job Hyv Hjob Hp. apply elem_of_cons in Hyv as [->|Hyv].
    + destruct (Hf1 job Hjob Hp) as [e He]. exists e. apply elem_of_app. by left.
    + destruct (Hf2 yv' job Hyv Hjob Hp) as [e He]. exists e. apply elem_of_app.
      by right.
Qed.

End RunExtras.

Section RunSkips.

Variable open_raster : string -> result Raster.
Variable resample : Raster -> Raster -> list cell.
Variable coords : Labelling.
Variable get_cal_mapper : result (list (string * cell)).
Variable get_crop_mapping : string -> result (gmap string (list string)).
Variable to_raster :
  string -> DataArray -> gmap string DataArray -> gmap string DataArray * result unit.

Local Abbreviation build_outputs' :=
  (get_data.build_outputs open_raster resample coords to_raster).
Local Abbreviation run_vars' :=
  (get_data.run_vars open_raster resample coords get_crop_mapping to_raster).
Local Abbreviation run' :=
  (get_data.run open_raster resample coords get_cal_mapper get_crop_mapping to_raster).

Lemma build_outputs_all_exist (cal_map : list (string * cell))
    (crop_mapping : gmap string (list string)) (yield_var : string)
    (todo : list ((string * string * string) * string)) (fs : gmap string DataArray) :
  Forall (fun job => is_Some (fs !! get_data.job_path yield_var job)) todo ->
  build_outputs' cal_map crop_mapping yield_var todo fs
  = (Exists_skipping <$> (todo ≫= fun job => [get_data.job_path yield_var job]), fs).
Proof.
  induction 1 as [|job rest Hjob _ IH]; [done |].
  rewrite build_outputs_cons, bind_cons.
  assert (Hskip : get_data.build_output open_raster resample coords to_raster cal_map
                    crop_mapping yield_var job fs
                  = ([Exists_skipping (get_data.job_path yield_var job)], fs)).
  { destruct job as [[[period model] scen] water].
    unfold get_data.build_output. simpl negb. rewrite andb_true_r.
    by rewrite bool_decide_eq_true_2. }
  by rewrite Hskip, IH.
Qed.

Lemma run_vars_all_exist (cal_map : list (string * cell)) (yield_vars : list string)
    (fs : gmap string DataArray) :
  Forall (fun yield_var => is_ok (get_crop_mapping yield_var) = true) yield_vars ->
  Forall (fun p => is_Some (fs !! p))
    (yield_var ← yield_vars; job ← get_data.jobs; [get_data.job_path yield_var job]) ->
  run_vars' cal_map yield_vars fs
  = (Exists_skipping
       <$> (yield_var ← yield_vars; job ← get_data.jobs;
            [get_data.job_path yield_var job]),
     fs, Ok tt).
Proof.
  induction 1 as [|yv rest Hyv _ IH]; intros Hex; [done |].
  rewrite bind_cons in Hex. apply Forall_app in Hex as [Hex1 Hex2].
  rewrite run_vars_cons. destruct (get_crop_mapping yv) as [cm|]; [|done].
  rewrite (build_outputs_all_exist cal_map cm yv get_data.jobs fs).
  - rewrite (IH Hex2), bind_cons, fmap_app. done.
  - apply Forall_forall. intros job Hjob.
    rewrite Forall_forall in Hex1. apply Hex1.
    apply list_elem_of_bind. exists job. split; [apply list_elem_of_here | done].
Qed.

(** X23: When every requested output is already there, [run] does no work:
    whatever the store holds it opens nothing and writes nothing, and the
    log is one "Exists, skipping" per output, in the order of the loops. *)
Theorem run_all_outputs_exist (cal_map : list (string * cell))
    (fs : gmap string DataArray) :
  get_cal_mapper = Ok cal_map ->
  Forall (fun yield_var => is_ok (get_crop_mapping yield_var) = true)
    get_data.YIELD_VARS ->
  Forall (fun p => is_Some (fs !! p)) get_data.requested_paths ->
  run' fs = (Exists_skipping <$> get_data.requested_paths, fs, Ok tt).
Proof.
  intros Hcal Hmaps Hex. unfold get_data.run. rewrite Hcal.
  by apply run_vars_all_exist.
Qed.

End RunSkips.

(** The requested outputs are 28 files, all different: no two
    combinations are written to one file. *)
Lemma requested_paths_distinct :
  NoDup get_data.requested_paths
  /\ length get_data.requested_paths
     = length get_data.YIELD_VARS * length get_data.valid_combos
       * length get_data.WATERS.
Proof. split; [by_evaluation | reflexivity]. Qed.

(** ** Harvested-area driver: the files *)

Section AreaRunExtras.

Variable open_raster : string -> result Raster.
Variable resample : Raster -> Raster -> list cell.
Variable coords : Labelling.
Variable get_cal_mapper : result (list (string * cell)).
Variable to_raster :
  string -> DataArray -> gmap string DataArray -> gmap string DataArray * result unit.

Local Abbreviation build_output' :=
  (get_har_area_run.build_output open_raster resample coords to_raster).
Local Abbreviation build_outputs' :=
  (get_har_area_run.build_outputs open_raster resample coords to_raster).
Local Abbreviation run' :=
  (get_har_area_run.run open_raster resample coords get_cal_mapper to_raster).

Lemma area_build_output_frame (groups : list string) (water : string)
    (fs : gmap string DataArray) (p : string) :
  writes_only_target to_raster ->
  p <> get_har_area_run.out_path ("har_area_" +:+ water) \/ is_Some (fs !! p) ->
  (build_output' groups water fs).2 !! p = fs !! p.
Proof.
  intros Hframe Hp. unfold get_har_area_run.build_output. simpl negb.
  rewrite andb_true_r. case_bool_decide as Hex; [done |].
  destruct (get_har_area.sum_groups_har_area _ _ _ groups water) as [log [da|e]]; [|done].
  assert (Hne : p <> get_har_area_run.out_path ("har_area_" +:+ water)).
  { destruct Hp as [Hp|Hp]; [exact Hp |]. intros ->. by apply Hex. }
  pose proof (Hframe _ (da_astype float32 da) fs _ Hne) as Hw.
  cbv zeta.
  by destruct (to_raster _ (da_astype float32 da) fs) as [fs' [[]|e]].
Qed.

Lemma area_build_outputs_frame (groups waters : list string)
    (fs : gmap string DataArray) (p : string) :
  writes_only_target to_raster ->
  p ∉ (fun water => get_har_area_run.out_path ("har_area_" +:+ water)) <$> waters
    \/ is_Some (fs !! p) ->
  (build_outputs' groups waters fs).2 !! p = fs !! p.
Proof.
  intros Hframe. revert fs. induction waters as [|water rest IH]; intros fs Hp; [done |].
  simpl.
  destruct (build_output' groups water fs) as [log1 fs1] eqn:H1.
  destruct (build_outputs' groups rest fs1) as [log2 fs2] eqn:H2. simpl.
  assert (Hfs1 : fs1 !! p = fs !! p).
  { change fs1 with (log1, fs1).2. rewrite <- H1. apply area_build_output_frame; [done |].
    destruct Hp as [Hp|Hp]; [left | by right].
    intros ->. apply Hp. rewrite fmap_cons. apply list_elem_of_here. }
  change fs2 with (log2, fs2).2. rewrite <- H2, IH; [done |].
  destruct Hp as [Hp|Hp]; [left | right; by rewrite Hfs1].
  intros Hin. apply Hp. rewrite fmap_cons. by apply list_elem_of_further.
Qed.

(** X24: The area driver changes at most the two files
    "outputs/har_area/har_area_HILM.tif" and
    "outputs/har_area/har_area_HRLM.tif", and each of them only when it
    is missing. *)
Theorem area_run_touches_only_missing_outputs (fs : gmap string DataArray) (p : string) :
  writes_only_target to_raster ->
  p ∉ ["outputs/har_area/har_area_HILM.tif"; "outputs/har_area/har_area_HRLM.tif"]
    \/ is_Some (fs !! p) ->
  (run' fs).1.2 !! p = fs !! p.
Proof.
  intros Hframe Hp. unfold get_har_area_run.run.
  destruct get_cal_mapper as [cal_map|e]; [|done].
  destruct (build_outputs' cal_map.*1 get_har_area.WATERS fs) as [log fs'] eqn:H.
  cbn [fst snd]. change fs' with (log, fs').2. rewrite <- H.
  by apply area_build_outputs_frame.
Qed.

Lemma opened_areas_none (area_water : string) (groups : list string) :
  (forall url, is_ok (open_raster url) = false) ->
  opened_areas open_raster area_water groups = [].
Proof.
  intros Hnone. induction groups as [|group rest IH]; [done |].
  rewrite opened_areas_cons, IH.
  destruct (area_path group area_water) as [a_path|]; [|done].
  specialize (Hnone a_path). by destruct (open_raster a_path).
Qed.

Lemma area_build_output_no_layer (groups : list string) (water area_water : string)
    (fs : gmap string DataArray) :
  (forall url, is_ok (open_raster url) = false) ->
  get_har_area.YR_WATER_TO_AREA !! water = Some area_water ->
  fs !! get_har_area_run.out_path ("har_area_" +:+ water) = None ->
  exists log,
    build_output' groups water fs = (log, fs)
    /\ Forall not_saved log
    /\ Failed ("har_area_" +:+ water)
         (ValueError ("No valid area layers found for water_code=" +:+ water)) ∈ log.
Proof.
  intros Hnone Hw Hp. unfold get_har_area_run.build_output. simpl negb.
  rewrite andb_true_r, bool_decide_eq_false_2.
  2:{ rewrite Hp. by intros [? ?]. }
  rewrite (sum_groups_har_area_no_layer open_raster resample coords groups water area_water Hw
             (opened_areas_none area_water groups Hnone)).
  eexists. split; [reflexivity |]. split.
  - constructor; [done |]. apply Forall_app. split.
    + apply Forall_fmap, Forall_true. by intros w.
    + by repeat constructor.
  - apply list_elem_of_further, elem_of_app. right. apply list_elem_of_here.
Qed.

(** X25: With a store in which nothing opens the area driver still returns
    normally and writes nothing; for each of the two water codes whose
    file is missing it logs the reducer's ValueError "No valid area
    layers found for water_code=<code>". *)
Theorem area_run_empty_store (cal_map : list (string * cell)) (fs : gmap string DataArray) :
  get_cal_mapper = Ok cal_map ->
  (forall url, is_ok (open_raster url) = false) ->
  fs !! "outputs/har_area/har_area_HILM.tif" = None ->
  fs !! "outputs/har_area/har_area_HRLM.tif" = None ->
  exists log,
    run' fs = (log, fs, Ok tt)
    /\ Forall not_saved log
    /\ Failed "har_area_HILM"
         (ValueError "No valid area layers found for water_code=HILM") ∈ log
    /\ Failed "har_area_HRLM"
         (ValueError "No valid area layers found for water_code=HRLM") ∈ log.
Proof.
  intros Hcal Hnone H1 H2. unfold get_har_area_run.run. rewrite Hcal.
  destruct (area_build_output_no_layer cal_map.*1 "HILM" "WSI" fs Hnone eq_refl H1)
    as (l1 & Hb1 & Hns1 & Hf1).
  destruct (area_build_output_no_layer cal_map.*1 "HRLM" "WSR" fs Hnone eq_refl H2)
    as (l2 & Hb2 & Hns2 & Hf2).
  exists (Processing cal_map.*1 :: l1 ++ l2 ++ []).
  split.
  { unfold get_har_area.WATERS. cbn [get_har_area_run.build_outputs].
    by rewrite Hb1, Hb2. }
  split.
  { constructor; [done |]. apply Forall_app. split; [done |].
    apply Forall_app. split; [done | constructor]. }
  split.
  - apply list_elem_of_further, elem_of_app. by left.
  - apply list_elem_of_further, elem_of_app. right. apply elem_of_app. by left.
Qed.

End AreaRunExtras.

(** ** The further properties at concrete inputs *)

Section ExtraScenarios.

Import Scenario DriverScenario.

Local Abbreviation area_BAN := (const_raster five_arcmin 2 2 (num 100)).
Local Abbreviation yield_BANA := (const_raster five_arcmin 2 2 (num 2)).
Local Abbreviation warn_PLNT :=
  (SkipCrop "BAN" "PLNT" "HILM" (yield_url "PLNT") (RasterioIOError (yield_url "PLNT"))).
Local Abbreviation layer_BAN :=
  (da_set_name (layer_of five_arcmin 2 2 [7880; 7880; 7880; 7880]%Z) "kcal_BAN").
Local Abbreviation y0 := (row_label centres five_arcmin 0).
Local Abbreviation x0 := (col_label centres five_arcmin 0).

Lemma group_kcal_average_unknown_water_witness :
  group_kcal_average store_BAN resample_first centres "BAN" kcal_BAN "WSI" "RES05-YCX"
    (Some "HP0120") (Some "AGERA5") (Some "HIST") None
  = ([], Raise (KeyError "WSI")).
Proof. apply group_kcal_average_unknown_water. vm_compute. reflexivity. Defined.

Lemma group_kcal_average_unrecognized_family_witness :
  group_kcal_average store_BAN resample_first centres "BAN" kcal_BAN "HILM" "RES07-XXX"
    (Some "HP0120") (Some "AGERA5") (Some "HIST") (Some ["BANA"; "PLNT"])
  = ([], Raise (ValueError "Unrecognized variable code family.")).
Proof.
  apply (group_kcal_average_unrecognized_family store_BAN resample_first centres "BAN"
           kcal_BAN "HILM" "RES07-XXX" (Some "HP0120") (Some "AGERA5") (Some "HIST")
           "WSI" (area_url "BAN") area_BAN "BANA" ["PLNT"]);
    vm_compute; reflexivity.
Defined.


Lemma group_kcal_average_nan_cells_witness :
  exists out,
    (group_kcal_average store_BAN resample_first centres "BAN" NaN "HILM" "RES05-YCX"
       (Some "HP0120") (Some "AGERA5") (Some "HIST") (Some ["BANA"; "PLNT"])).2 = Ok out
    /\ sel out y0 x0 = NaN.
Proof.
  destruct (group_kcal_average_nan_cells store_BAN resample_first centres "BAN" NaN
              "HILM" "RES05-YCX" (Some "HP0120") (Some "AGERA5") (Some "HIST")
              "WSI" (area_url "BAN") area_BAN ["BANA"; "PLNT"] yield_BANA [])
    as (out & Hout & Hnan).
  - vm_compute. reflexivity.
  - vm_compute. reflexivity.
  - vm_compute. reflexivity.
  - reflexivity.
  - vm_compute. reflexivity.
  - exists out. rewrite Hout. split; [reflexivity |].
    assert (Hy : y0 ∈ da_ys out).
    { injection Hout as <-. apply (bool_decide_unpack _). vm_compute. exact I. }
    assert (Hx : x0 ∈ da_xs out).
    { injection Hout as <-. apply (bool_decide_unpack _). vm_compute. exact I. }
    destruct (Hnan y0 x0 Hy Hx) as [H _]. apply H. right. right. reflexivity.
Defined.

(** An infinite harvested area over a mean yield of zero: the product is
    NaN although neither factor is. *)
Example group_zero_yield_infinite_area :
  sel (group_output resample_first centres "BAN" kcal_BAN
         (const_raster five_arcmin 2 2 inf) [const_raster five_arcmin 2 2 (num 0)])
      y0 x0
  = NaN.
Proof. by_evaluation. Qed.

Lemma reducer_ignores_fallback_layer_witness :
  exists with_fallback without,
    result_cells (concat_reduce nansum
                    ([layer_100] ++ labelled centres (scale area_BAN zero) :: [layer_50]))
      = Some with_fallback
    /\ result_cells (concat_reduce nansum ([layer_100] ++ [layer_50])) = Some without
    /\ Forall2 cell_same with_fallback without.
Proof.
  apply (reducer_ignores_fallback_layer centres (grid area_BAN) area_BAN
           [layer_100] [layer_50]).
  - split; reflexivity.
  - repeat constructor; vm_compute; reflexivity.
  - discriminate.
Defined.

Lemma BAN_aggregated :
  group_kcal_average store_BAN resample_first centres "BAN" kcal_BAN "HILM" "RES05-YCX"
    (Some "HP0120") (Some "AGERA5") (Some "HIST") (crop_map !! "BAN")
  = ([warn_PLNT], Ok layer_BAN).
Proof. by_evaluation. Qed.

Lemma sum_groups_kcal_all_groups_aggregated_witness :
  exists total,
    sum_groups_kcal store_BAN resample_first centres crop_map "HILM" "RES05-YCX"
      (Some "HP0120") (Some "AGERA5") (Some "HIST") cal_map = ([warn_PLNT], Ok total)
    /\ sel total y0 x0 = num64 7880.
Proof.
  destruct (sum_groups_kcal_all_groups_aggregated store_BAN resample_first centres
              crop_map "HILM" "RES05-YCX" (Some "HP0120") (Some "AGERA5") (Some "HIST")
              cal_map [([warn_PLNT], layer_BAN)])
    as (total & Hsum & _ & Hys & Hxs & Hcell).
  - constructor; [|constructor]. apply (bool_decide_unpack _). vm_compute. exact I.
  - exists total. split; [exact Hsum |].
    rewrite Hcell.
    + apply (bool_decide_unpack _). vm_compute. exact I.
    + apply Hys. exists layer_BAN. split; [apply list_elem_of_here |].
      apply (bool_decide_unpack _). vm_compute. exact I.
    + apply Hxs. exists layer_BAN. split; [apply list_elem_of_here |].
      apply (bool_decide_unpack _). vm_compute. exact I.
Defined.

Lemma sum_groups_kcal_first_failure_witness :
  sum_groups_kcal store_BAN resample_first centres crop_map "HILM" "RES05-YCX"
    (Some "HP0120") (Some "AGERA5") (Some "HIST")
    ([("BAN", kcal_BAN)] ++ ("XYZ", kcal_BAN) :: [("BAN", kcal_BAN)])
  = (concat [[warn_PLNT]] ++ [], Raise (RasterioIOError (area_url "XYZ"))).
Proof.
  apply (sum_groups_kcal_first_failure store_BAN resample_first centres crop_map "HILM"
           "RES05-YCX" (Some "HP0120") (Some "AGERA5") (Some "HIST")
           [("BAN", kcal_BAN)] [("BAN", kcal_BAN)] [([warn_PLNT], layer_BAN)]).
  - constructor; [|constructor]. apply (bool_decide_unpack _). vm_compute. exact I.
  - vm_compute. reflexivity.
Defined.

Lemma sum_groups_kcal_name_is_driver_fname_witness :
  exists total,
    (sum_groups_kcal store_BAN resample_first centres crop_map "HILM" "RES05-YCX"
       (Some "HP0120") (Some "AGERA5") (Some "HIST") cal_map).2 = Ok total
    /\ da_name total = Some "cal_yld_RES05-YCX_HP0120_AGERA5_HIST_HILM".
Proof.
  destruct (sum_groups_kcal store_BAN resample_first centres crop_map "HILM" "RES05-YCX"
              (Some "HP0120") (Some "AGERA5") (Some "HIST") cal_map)
    as [log [total|e]] eqn:Hsum.
  - exists total. split; [reflexivity |].
    apply (sum_groups_kcal_name_is_driver_fname store_BAN resample_first centres
             crop_map "HILM" "RES05-YCX" "HP0120" "AGERA5" "HIST" cal_map log total Hsum).
  - exfalso. vm_compute in Hsum. discriminate Hsum.
Defined.

Lemma sum_groups_har_area_unknown_water_witness :
  get_har_area.sum_groups_har_area store_BAN resample_first centres ["BAN"] "LRLM"
  = ([], Raise (KeyError "LRLM")).
Proof. apply sum_groups_har_area_unknown_water; discriminate. Defined.

Lemma sum_groups_har_area_no_valid_layer_witness :
  get_har_area.sum_groups_har_area store_empty resample_first centres ["BAN"; "MZE"]
    "HILM"
  = (skipped_groups store_empty "HILM" "WSI" ["BAN"; "MZE"],
     Raise (ValueError ("No valid area layers found for water_code=" +:+ "HILM")))
  /\ length (skipped_groups store_empty "HILM" "WSI" ["BAN"; "MZE"]) = 2.
Proof.
  apply (sum_groups_har_area_no_valid_layer store_empty resample_first centres
           ["BAN"; "MZE"] "HILM" "WSI"); vm_compute; reflexivity.
Defined.

Lemma sum_groups_har_area_result_witness :
  exists out,
    get_har_area.sum_groups_har_area store_BAN resample_first centres ["XYZ"; "BAN"]
      "HILM"
    = (skipped_groups store_BAN "HILM" "WSI" ["XYZ"; "BAN"], Ok out)
    /\ da_name out = Some ("har_area_" +:+ "HILM")
    /\ da_grid out = grid area_BAN
    /\ da_values out !! 0 = Some (num64 100).
Proof.
  destruct (sum_groups_har_area_result store_BAN resample_first centres ["XYZ"; "BAN"]
              "HILM" "WSI" area_BAN []) as (out & Hout & Hname & Hgrid & _ & _ & Hcell).
  - vm_compute. reflexivity.
  - vm_compute. reflexivity.
  - exists out. split; [exact Hout |]. split; [exact Hname |]. split; [exact Hgrid |].
    destruct (Hcell 0) as [H0 _]; [vm_compute; lia |].
    rewrite H0. apply (bool_decide_unpack _). vm_compute. exact I.
Defined.

Lemma build_dataset_variables_on_first_grid_witness :
  exists data_vars,
    process_data.build_dataset_for_variable_local folder resample_first
      "outputs/cal_yld/RES05-YCX" "cal" ["cal_a"; "cal_b"] false
    = process_data.Built data_vars
    /\ data_vars.*1 = ["cal_a"; "cal_b"]
    /\ Forall (fun v => grid v.2 = grid tif_a) data_vars.
Proof.
  apply (build_dataset_variables_on_first_grid folder resample_first
           "outputs/cal_yld/RES05-YCX" "cal" "cal_a" ["cal_b"] tif_a false).
  - repeat constructor.
  - reflexivity.
Defined.

Lemma build_dataset_clamp_zeroes_masked_cells_witness :
  exists data_vars,
    process_data.build_dataset_for_variable_local folder resample_first
      "outputs/cal_yld/RES05-YCX" "cal" ["cal_a"; "cal_b"] true
    = process_data.Built data_vars
    /\ Forall (fun v => Forall nonneg_cell (values v.2)) data_vars.
Proof.
  destruct (build_dataset_clamp_zeroes_masked_cells folder resample_first
              "outputs/cal_yld/RES05-YCX" "cal" "cal_a" ["cal_b"])
    as (data_vars & Hbuilt & Hnonneg & _).
  - repeat constructor.
  - exists data_vars. split; [exact Hbuilt | exact Hnonneg].
Defined.

Example build_dataset_scenario :
  process_data.build_dataset_for_variable_local folder resample_first
    "outputs/cal_yld/RES05-YCX" "cal" ["cal_b"] true
  = process_data.Built [("cal_b", raster_of shifted 2 2 [zero; zero; num 1; zero])].
Proof. apply (bool_decide_unpack _). vm_compute. exact I. Qed.

Lemma build_dataset_failures_witness :
  process_data.build_dataset_for_variable_local folder resample_first
    "outputs/cal_yld/RES05-YCX" "cal" (["cal_a"] ++ "cal_c" :: ["cal_b"]) true
  = process_data.OpenFailed (RasterioIOError "cal_c").
Proof.
  apply (proj2 (build_dataset_failures folder resample_first
                  "outputs/cal_yld/RES05-YCX" "cal" true)).
  - repeat constructor.
  - reflexivity.
Defined.

Lemma to_raster_ok_frame : writes_only_target to_raster_ok.
Proof.
  intros path da fs other Hne. unfold to_raster_ok. simpl.
  by apply lookup_insert_ne.
Qed.

Lemma run_touches_only_missing_outputs_witness :
  (get_data.run store_BAN resample_first centres (Ok cal_map) (fun _ => Ok crop_map)
     to_raster_ok files_with_first).1.2 !! first_output
  = files_with_first !! first_output.
Proof.
  apply run_touches_only_missing_outputs.
  - exact to_raster_ok_frame.
  - right. unfold files_with_first. rewrite lookup_singleton_eq. by eexists.
Defined.

Lemma run_missing_crop_group_writes_nothing_witness :
  exists log,
    get_data.run store_BAN resample_first centres (Ok cal_map) (fun _ => Ok ∅)
      to_raster_ok ∅
    = (log, ∅, Ok tt)
    /\ Forall not_saved log.
Proof.
  destruct (run_missing_crop_group_writes_nothing store_BAN resample_first centres
              (Ok cal_map) (fun _ => Ok ∅) to_raster_ok cal_map "BAN" kcal_BAN ∅)
    as (log & Hrun & Hns & _).
  - reflexivity.
  - apply list_elem_of_here.
  - repeat constructor. exists ∅. split; reflexivity.
  - exists log. split; [exact Hrun | exact Hns].
Defined.

Lemma run_all_outputs_exist_witness :
  get_data.run store_empty resample_first centres (Ok cal_map) (fun _ => Ok crop_map)
    to_raster_ok all_outputs
  = (Exists_skipping <$> get_data.requested_paths, all_outputs, Ok tt).
Proof.
  apply (run_all_outputs_exist store_empty resample_first centres (Ok cal_map)
           (fun _ => Ok crop_map) to_raster_ok cal_map all_outputs).
  - reflexivity.
  - repeat constructor.
  - apply (bool_decide_unpack _). vm_compute. exact I.
Defined.

Lemma area_run_touches_only_missing_outputs_witness :
  (get_har_area_run.run store_BAN resample_first centres (Ok cal_map) to_raster_ok
     files_with_area).1.2 !! area_output_HILM
  = files_with_area !! area_output_HILM.
Proof.
  apply area_run_touches_only_missing_outputs.
  - exact to_raster_ok_frame.
  - right. unfold files_with_area. rewrite lookup_singleton_eq. by eexists.
Defined.

Lemma area_run_empty_store_witness :
  exists log,
    get_har_area_run.run store_empty resample_first centres (Ok cal_map) to_raster_ok ∅
    = (log, ∅, Ok tt)
    /\ Failed "har_area_HILM"
         (ValueError "No valid area layers found for water_code=HILM") ∈ log.
Proof.
  destruct (area_run_empty_store store_empty resample_first centres (Ok cal_map)
              to_raster_ok cal_map ∅) as (log & Hrun & _ & Hfailed & _).
  - reflexivity.
  - intros url. reflexivity.
  - reflexivity.
  - reflexivity.
  - exists log. split; [exact Hrun | exact Hfailed].
Defined.

End ExtraScenarios.
